(** * Outcome resolution and round settlement of the remote gaming server

    A shallow embedding of the Go packages [gamemath], [games/scratch],
    [games/crash], [round], [games], [config] and [operator], of the
    handlers of [server] and of the path checks of the importer, followed
    by the properties of the settlement subsystem and of the code around
    it.

    Conventions of the embedding:
    - [float64] is Rocq's primitive binary64 [float]; Go's arithmetic and
      comparisons on it are the IEEE operations of [PrimFloat].
    - [int] and [int64] are [Z]; where the code can wrap (the running
      totals of [PickTier]) the wrap-around is written out with [wrap64].
    - [crypto/rand] is a tape of reads consumed from the left; an exhausted
      tape is a reader at end of file, which makes a read of [rand.Int]
      fail.  [rand.Int] reads nothing when its bound is 1.
    - Go maps are [gmap]s, the JSON array files are lists.
    - Time is a count of nanoseconds.
    - Handlers are functions from the server state, the decoded request and
      the answers of the outside world to a response, the new state and the
      list of wallet calls they made. *)

From stdpp Require Import gmap strings list sorting.
From Stdlib Require Import Ascii ZArith Floats Lia.

Set Warnings "-inexact-float".
Local Open Scope Z_scope.

(* ===================================================================== *)
(** ** Machine integers *)

Definition wrap64 (z : Z) : Z := (z + 2 ^ 63) mod 2 ^ 64 - 2 ^ 63.

(** [a + b] on [int64]. *)
Definition add64 (a b : Z) : Z := wrap64 (a + b).

Definition int64_range (z : Z) : Prop := - 2 ^ 63 <= z < 2 ^ 63.

(* ===================================================================== *)
(** ** crypto/rand *)

Module csprng.

(** One read of [rand.Int(rand.Reader, max)]: the reader delivers a
    value, or the read fails. *)
Inductive Draw : Type :=
| RandOk (v : Z)
| RandErr.

Definition Tape : Type := list Draw.

(** The value [rand.Int] returns for [max > 1] lies in [0, max); a raw
    draw [v] stands for the value [v mod max].  [None] is [err != nil]. *)
Definition value (max : Z) (d : Draw) : option Z :=
  match d with
  | RandOk v => Some (v mod max)
  | RandErr => None
  end.

(** [rand.Int(rand.Reader, max)].  For [max = 1] the only value below
    [max] is 0, and [rand.Int] returns it without a read and without an
    error ([if bitLen == 0 { return }]); for a larger [max] it reads.
    Every caller passes a positive [max] ([rand.Int] panics otherwise). *)
Definition Int (max : Z) (t : Tape) : option Z * Tape :=
  if max =? 1 then (Some 0, t)
  else
    match t with
    | [] => (None, [])
    | d :: t' => (value max d, t')
    end.

(** The next read of the tape fails. *)
Definition fails (t : Tape) : bool :=
  match t with
  | [] | RandErr :: _ => true
  | RandOk _ :: _ => false
  end.

End csprng.

(* ===================================================================== *)
(** ** The data directory *)

Module fs.

(** How [ensureDir] followed by [os.WriteFile] ends: the file is
    replaced; or nothing is touched ([MkdirAll] or opening the file
    fails); or the write fails after the file was truncated, which leaves
    no readable JSON behind. *)
Inductive WriteResult : Type :=
| WriteOk
| WriteRefused
| WriteTorn.

(** The content of a JSON file after a write of [new]; [None] is a file
    that is missing or does not parse. *)
Definition write {A : Type} (old : option A) (new : A) (w : WriteResult) : option A :=
  match w with
  | WriteOk => Some new
  | WriteRefused => old
  | WriteTorn => None
  end.

(** [err == nil] *)
Definition succeeded (w : WriteResult) : bool :=
  match w with WriteOk => true | _ => false end.

End fs.

(* ===================================================================== *)
(** ** package time *)

Module time.

Definition minDuration : Z := - 2 ^ 63.
Definition maxDuration : Z := 2 ^ 63 - 1.

(** [time.Since(t)] read at the instant [now]: [now.Sub(t)], which
    saturates at the ends of [Duration]. *)
Definition Since (now t : Z) : Z :=
  Z.max minDuration (Z.min maxDuration (now - t)).

(** [Duration.Milliseconds]: integer division, rounding to zero. *)
Definition Milliseconds (d : Z) : Z := Z.quot d 1000000.

(** [Time.UnixMilli] *)
Definition UnixMilli (t : Z) : Z := t / 1000000.

End time.

(* ===================================================================== *)
(** ** package gamemath *)

Module gamemath.

Record Mechanic : Type := {
  Type_ : string;
  MatchCount : Z
}.

Record PrizeTier : Type := {
  Tier : string;
  Multiplier : float;
  Weight : Z
}.

Record GameStats : Type := {
  ComputedRTP : float;
  HitRate : float;
  Variance : float
}.

Record Integrity : Type := {
  ContentHash : string
}.

Record GameMath : Type := {
  SchemaVersion : Z;
  ModelID : string;
  ModelVersion : string;
  Mechanic_ : Mechanic;
  MathMode : string;
  WinLogic : string;
  PrizeTable : list PrizeTier;
  Stats : option GameStats;
  Integrity_ : option Integrity
}.

(** [PrizeTier{}] *)
Definition zeroTier : PrizeTier :=
  {| Tier := ""; Multiplier := 0%float; Weight := 0 |}.

(** First loop of [PickTier]: [total += t.Weight] over the tiers of
    positive weight, on [int64]. *)
Fixpoint sumWeights (total : Z) (table : list PrizeTier) : Z :=
  match table with
  | [] => total
  | t :: rest =>
      if Weight t <=? 0 then sumWeights total rest
      else sumWeights (add64 total (Weight t)) rest
  end.

(** Second loop of [PickTier]: the first tier of positive weight whose
    cumulative weight exceeds [idx]; [None] when the loop runs off the
    table. *)
Fixpoint walk (idx cum : Z) (table : list PrizeTier) : option PrizeTier :=
  match table with
  | [] => None
  | t :: rest =>
      if Weight t <=? 0 then walk idx cum rest
      else
        let cum' := add64 cum (Weight t) in
        if idx <? cum' then Some t else walk idx cum' rest
  end.

(** [func (g *GameMath) PickTier() (PrizeTier, bool)]; a nil receiver is
    [None]. *)
Definition PickTier (g : option GameMath) (tape : csprng.Tape)
  : PrizeTier * bool * csprng.Tape :=
  match g with
  | None => (zeroTier, false, tape)
  | Some g =>
      match PrizeTable g with
      | [] => (zeroTier, false, tape)
      | _ :: _ =>
          let total := sumWeights 0 (PrizeTable g) in
          if total <=? 0 then (zeroTier, false, tape)
          else
            match csprng.Int total tape with
            | (None, tape') => (zeroTier, false, tape')
            | (Some idx, tape') =>
                match walk idx 0 (PrizeTable g) with
                | Some t => (t, true, tape')
                | None => (List.last (PrizeTable g) zeroTier, true, tape')
                end
            end
      end
  end.

(** The prize table behind a model pointer (none behind nil), and the
    [total] that [PickTier] computes for it. *)
Definition table (g : option GameMath) : list PrizeTier :=
  match g with Some m => PrizeTable m | None => [] end.

Definition totalWeight (g : option GameMath) : Z := sumWeights 0 (table g).

(** The sum of the positive weights without wrap-around. *)
Definition exactWeight (tbl : list PrizeTier) : Z :=
  fold_right (fun t acc => if Weight t <=? 0 then acc else Weight t + acc) 0 tbl.

(** [Store]: the registry of models by [model_id] and the file it is
    saved to ([None]: no readable file). *)
Record Store : Type := {
  math : gmap string GameMath;
  file : option (list (string * GameMath))
}.

(** [saveLocked]; the boolean is [err == nil]. *)
Definition saveLocked (s : Store) (w : fs.WriteResult) : Store * bool :=
  ({| math := math s; file := fs.write (file s) (map_to_list (math s)) w |},
   fs.succeeded w).

(** [Register]: [None] is a nil model. *)
Definition Register (s : Store) (m : option GameMath) (w : fs.WriteResult)
  : Store * bool :=
  match m with
  | None => (s, true)
  | Some m =>
      if String.eqb (ModelID m) "" then (s, true)
      else saveLocked {| math := <[ModelID m := m]> (math s); file := file s |} w
  end.

Definition Get (s : Store) (modelID : string) : option GameMath :=
  math s !! modelID.

(** Calls of [Register] one after the other, each with the result of its
    write. *)
Definition RegisterAll (s : Store) (ms : list (option GameMath * fs.WriteResult))
  : Store :=
  foldl (fun s mw => (Register s mw.1 mw.2).1) s ms.

End gamemath.

(* ===================================================================== *)
(** ** package scratch *)

Module scratch.

Definition SymbolCherry : string := "cherry".
Definition SymbolLemon : string := "lemon".
Definition SymbolStar : string := "star".
Definition SymbolSeven : string := "seven".

Definition symbols : list string :=
  [SymbolCherry; SymbolLemon; SymbolStar; SymbolSeven].

(** [symbols[i]]; every index the code uses comes from
    [secureIntn(len(symbols))] and is in range. *)
Definition symbolAt (i : Z) : string := List.nth (Z.to_nat i) symbols "".

(** The array [[3]string]. *)
Definition Symbols3 : Type := (string * string * string)%type.

Record Outcome : Type := {
  Symbols : Symbols3;
  WinAmount : float;
  Match : bool;
  Tier : string
}.

(** [Outcome{}] *)
Definition zeroOutcome : Outcome :=
  {| Symbols := ("", "", ""); WinAmount := 0%float; Match := false; Tier := "" |}.

Definition WinMultiplier : float := 2.0%float.

(** [secureIntn]: 0 for [n <= 0] and when the reader fails. *)
Definition secureIntn (n : Z) (tape : csprng.Tape) : Z * csprng.Tape :=
  if n <=? 0 then (0, tape)
  else
    match csprng.Int n tape with
    | (None, tape') => (0, tape')
    | (Some v, tape') => (v, tape')
    end.

Definition nsymbols : Z := Z.of_nat (length symbols).

(** [s[0] == s[1] && s[1] == s[2]] *)
Definition allSame (s : Symbols3) : bool :=
  let '(s0, s1, s2) := s in String.eqb s0 s1 && String.eqb s1 s2.

(** [for i := range s { s[i] = symbols[secureIntn(len(symbols))] }] *)
Definition draw3 (tape : csprng.Tape) : Symbols3 * csprng.Tape :=
  let '(i0, tape) := secureIntn nsymbols tape in
  let '(i1, tape) := secureIntn nsymbols tape in
  let '(i2, tape) := secureIntn nsymbols tape in
  ((symbolAt i0, symbolAt i1, symbolAt i2), tape).

(** [Generate]: the legacy logic. *)
Definition Generate (betAmount : float) (tape : csprng.Tape)
  : Outcome * csprng.Tape :=
  let '(s, tape) := draw3 tape in
  let match_ := allSame s in
  let winAmount := if match_ then (betAmount * WinMultiplier)%float else 0%float in
  ({| Symbols := s; WinAmount := winAmount; Match := match_; Tier := "" |}, tape).

(** [for s[0] == s[1] && s[1] == s[2] { s[2] = symbols[secureIntn(len(symbols))] }]
    The loop consumes one draw per turn.  On an exhausted reader every
    further [secureIntn] is 0, so the loop either leaves at once or never:
    [None] is the run that never leaves the loop. *)
Fixpoint redraw (s : Symbols3) (tape : csprng.Tape) : option (Symbols3 * csprng.Tape) :=
  if allSame s then
    match tape with
    | [] =>
        let s' := (s.1.1, s.1.2, symbolAt (secureIntn nsymbols []).1) in
        if allSame s' then None else Some (s', [])
    | d :: tape' =>
        redraw (s.1.1, s.1.2, symbolAt (secureIntn nsymbols (d :: tape')).1) tape'
    end
  else Some (s, tape).

(** [GenerateWithMath]; a nil [math] is [None].  The result is [None]
    when the re-draw loop of a losing tier never ends. *)
Definition GenerateWithMath (betAmount : float) (math : option gamemath.GameMath)
    (tape : csprng.Tape) : option (Outcome * bool * csprng.Tape) :=
  match math with
  | None => Some (zeroOutcome, false, tape)
  | Some _ =>
      let '(tier, ok, tape) := gamemath.PickTier math tape in
      if negb ok then Some (zeroOutcome, false, tape)
      else
        let winAmount := (betAmount * gamemath.Multiplier tier)%float in
        let rendered :=
          if String.eqb (gamemath.Tier tier) "LOSE"
             || (gamemath.Multiplier tier =? 0)%float
          then
            let '(s, tape) := draw3 tape in
            redraw s tape
          else
            let '(i, tape) := secureIntn nsymbols tape in
            let sym := symbolAt i in
            Some ((sym, sym, sym), tape)
        in
        match rendered with
        | None => None
        | Some (s, tape) =>
            Some ({| Symbols := s;
                     WinAmount := winAmount;
                     Match := (0 <? winAmount)%float;
                     Tier := gamemath.Tier tier |}, true, tape)
        end
  end.

End scratch.

(* ===================================================================== *)
(** ** package crash *)

Module crash.

Definition StepSize : float := 0.01%float.

Definition CrashStepMin : Z := 10.
Definition CrashStepMax : Z := 400.

(** [float64(step)] for [0 <= step < 2^63]. *)
Definition float64_of_step (step : Z) : float :=
  PrimFloat.of_uint63 (Uint63.of_Z step).

(** [float64(n)] for [- 2^63 < n < 2^63]. *)
Definition float64_of_int (n : Z) : float :=
  if n <? 0 then (- float64_of_step (- n))%float else float64_of_step n.

(** [Multiplier] *)
Definition Multiplier (step : Z) : float :=
  let step := if step <? 0 then 0 else step in
  (1.0 + float64_of_step step * StepSize)%float.

(** [GenerateCrashStep] *)
Definition GenerateCrashStep (tape : csprng.Tape) : Z * csprng.Tape :=
  let n := CrashStepMax - CrashStepMin + 1 in
  match csprng.Int n tape with
  | (None, tape') => (CrashStepMin, tape')
  | (Some v, tape') => (CrashStepMin + v, tape')
  end.

End crash.

(* ===================================================================== *)
(** ** package round *)

Module round.

(** [Result]: one entry of [round_results.json]. *)
Module Result.
Record t : Type := {
  RoundID : string;
  BetID : string;
  Outcome : string;
  NextNumber : Z;
  BalanceDelta : float;
  SettledAt : Z;
  Symbols : list string;
  WinAmount : float
}.
End Result.

(** [json.MarshalIndent] refuses NaN and the infinities. *)
Definition finite (x : float) : bool :=
  negb (PrimFloat.is_nan x || PrimFloat.is_infinity x).

Definition marshals (r : Result.t) : bool :=
  finite (Result.BalanceDelta r) && finite (Result.WinAmount r).

(** [ResultsStore.Append] on the content of [round_results.json]; the
    entries read back from the file were written by an earlier call and
    marshal again.  The boolean is [err == nil]. *)
Definition Append (file : option (list Result.t)) (r : Result.t)
    (w : fs.WriteResult) : option (list Result.t) * bool :=
  let list := match file with Some l => l | None => [] end in
  let list := list ++ [r] in
  if marshals r then (fs.write file list w, fs.succeeded w)
  else (file, false).

(** [for i := len(list) - 1; i >= 0; i-- { if list[i].RoundID == roundID ... }] *)
Definition lastWith (roundID : string) (list : list Result.t) : option Result.t :=
  List.find (fun r => String.eqb (Result.RoundID r) roundID) (rev list).

(** [ResultsStore.GetByRoundID]; the boolean is [err == nil]. *)
Definition GetByRoundID (file : option (list Result.t)) (roundID : string)
  : option Result.t * bool :=
  match file with
  | None => (None, false)
  | Some list => (lastWith roundID list, true)
  end.

(** [CrashRound] *)
Module CrashRound.
Record t : Type := {
  RoundID : string;
  BetID : string;
  Currency : string;
  Amount : float;
  CrashStep : Z;
  StartedAt : Z;
  Settled : bool
}.
End CrashRound.

(** [CrashStore]: the rounds in memory and [crash_rounds.json]. *)
Record CrashStore : Type := {
  rounds : gmap string CrashRound.t;
  file : option (list CrashRound.t)
}.

(** [CrashStore.save]; every caller drops the error. *)
Definition save (s : CrashStore) (w : fs.WriteResult) : CrashStore :=
  {| rounds := rounds s;
     file := fs.write (file s) (map_to_list (rounds s)).*2 w |}.

(** The test of [CrashStore.load]:
    [r.RoundID != "" && !r.Settled] *)
Definition loadable (r : CrashRound.t) : bool :=
  negb (String.eqb (CrashRound.RoundID r) "") && negb (CrashRound.Settled r).

(** [CrashStore.load]: the loop over the decoded list. *)
Definition load (list : list CrashRound.t) : gmap string CrashRound.t :=
  foldl (fun m r => if loadable r then <[CrashRound.RoundID r := r]> m else m)
        ∅ list.

(** [NewCrashStore] *)
Definition NewCrashStore (file : option (list CrashRound.t)) : CrashStore :=
  {| rounds := match file with Some l => load l | None => ∅ end;
     file := file |}.

(** [CrashStore.Create] at the instant [now]. *)
Definition Create (s : CrashStore) (roundID betID currency : string)
    (amount : float) (crashStep now : Z) (w : fs.WriteResult)
  : CrashRound.t * CrashStore :=
  let r := {| CrashRound.RoundID := roundID;
              CrashRound.BetID := betID;
              CrashRound.Currency := currency;
              CrashRound.Amount := amount;
              CrashRound.CrashStep := crashStep;
              CrashRound.StartedAt := now;
              CrashRound.Settled := false |} in
  (r, save {| rounds := <[roundID := r]> (rounds s); file := file s |} w).

(** [CrashStore.Get] *)
Definition Get (s : CrashStore) (roundID : string) : option CrashRound.t :=
  rounds s !! roundID.

(** [r.Settled = true] *)
Definition settle (r : CrashRound.t) : CrashRound.t :=
  {| CrashRound.RoundID := CrashRound.RoundID r;
     CrashRound.BetID := CrashRound.BetID r;
     CrashRound.Currency := CrashRound.Currency r;
     CrashRound.Amount := CrashRound.Amount r;
     CrashRound.CrashStep := CrashRound.CrashStep r;
     CrashRound.StartedAt := CrashRound.StartedAt r;
     CrashRound.Settled := true |}.

(** [CrashStore.Settle] *)
Definition Settle (s : CrashStore) (roundID : string) (w : fs.WriteResult)
  : CrashStore :=
  match rounds s !! roundID with
  | Some r => save {| rounds := <[roundID := settle r]> (rounds s); file := file s |} w
  | None => s
  end.

(** [CrashStore.Delete] *)
Definition Delete (s : CrashStore) (roundID : string) (w : fs.WriteResult)
  : CrashStore :=
  save {| rounds := delete roundID (rounds s); file := file s |} w.

(** Every round sits under its own id, as [Create] and [load] put it. *)
Definition keyed (s : CrashStore) : Prop :=
  forall k r, rounds s !! k = Some r -> CrashRound.RoundID r = k.

(** The store of the next process: [NewCrashStore] on the file as the
    last [save] left it. *)
Definition restart (s : CrashStore) : CrashStore := NewCrashStore (file s).

End round.

(* ===================================================================== *)
(** ** package server: the provider handlers *)

Module server.

(** *** The outside world *)

(** [platform.Client.Bet]: [(betID, status, err)] *)
Inductive BetAnswer : Type :=
| BetOk (betID : string)
| BetErr (status : Z) (msg : string).

(** [platform.Client.Win]: [(status, err)] *)
Inductive WinAnswer : Type :=
| WinOk
| WinErr (status : Z) (msg : string).

(** [operator.Client.Debit] and [Credit]: a response and an error; the
    response is nil exactly when the error is not. *)
Inductive OperatorAnswer : Type :=
| OperatorErr (msg : string)
| OperatorResponse (Code : Z) (Message : string).

(** [rgsdb.GetDB] and the query of [game_sessions]. *)
Inductive SessionAnswer : Type :=
| DatabaseUnavailable
| SessionNotFound
| Session (userID accountID gameID : string) (operatorID : Z).

(** What the world answers during one request: the random reader, the
    fresh identifier of [uuid.New], the clock, the outcome of the one
    write to the data directory, and the wallet and database answers. *)
Record World : Type := {
  tape : csprng.Tape;
  uuid : string;
  now : Z;
  disk : fs.WriteResult;
  session : SessionAnswer;
  debit : OperatorAnswer;
  credit : OperatorAnswer;
  bet : BetAnswer;
  win : WinAnswer
}.

(** The calls a handler makes to the wallets and the transaction table,
    in order, each with the arguments that identify the player, the round
    and the amounts (the fresh transaction identifiers and the constant
    arguments are left out). *)
Inductive Call : Type :=
| Bet (token currency : string) (amount : float) (gameName : string)
| Win (token currency : string) (amount : float) (gameName : string)
| Rollback (token betID : string)
| Debit (userID sessionID roundID gameCode deviceType : string) (betAmount : float)
| Credit (userID sessionID roundID gameCode deviceType : string) (winAmount : float)
| InsertTransaction (accountID sessionID roundID gameCode : string)
    (betAmount winAmount netResult : float).

(** *** The server *)

Record Server : Type := {
  operator : bool;  (* [s.operator != nil] *)
  results : option (list round.Result.t);
  crashStore : round.CrashStore;
  gameMath : gamemath.Store
}.

Definition withResults (s : Server) (f : option (list round.Result.t)) : Server :=
  {| operator := operator s; results := f;
     crashStore := crashStore s; gameMath := gameMath s |}.

Definition withCrashStore (s : Server) (c : round.CrashStore) : Server :=
  {| operator := operator s; results := results s;
     crashStore := c; gameMath := gameMath s |}.

(** *** Requests and responses.  A string field that its handler trims
    holds the value after [strings.TrimSpace]; [Currency] of a crash round
    start, which [handleCrashRoundStart] does not trim, holds the decoded
    value. *)

Module ScratchRoundStartRequest.
Record t : Type := {
  SessionID : string;
  BetAmount : float;
  RoundID : string;
  GameCode : string;
  DeviceType : string;
  Currency : string;
  Token : string;
  Amount : float;
  RoundId : string;
  query_session_id : string  (* [r.URL.Query().Get("session_id")] *)
}.
End ScratchRoundStartRequest.

Module ScratchRoundStartResponse.
Record t : Type := {
  RoundID : string;
  Symbols : scratch.Symbols3;
  WinAmount : float;
  BalanceDelta : float;
  Tier : string;
  Error : string
}.
End ScratchRoundStartResponse.

Module CrashRoundStartRequest.
Record t : Type := {
  Token : string;
  Currency : string;
  Amount : float;
  RoundID : string
}.
End CrashRoundStartRequest.

Module CrashRoundStartResponse.
Record t : Type := {
  RoundID : string;
  StartedAtMs : Z
}.
End CrashRoundStartResponse.

Module CrashCashoutRequest.
Record t : Type := {
  Token : string;
  RoundID : string;
  Step : Z
}.
End CrashCashoutRequest.

Module CrashCashoutResponse.
Record t : Type := {
  RoundID : string;
  CashedOut : bool;
  WinAmount : float;
  BalanceDelta : float;
  Crashed : bool;
  CrashStep : Z
}.
End CrashCashoutResponse.

(** The JSON object of [handleCrashStatus]; an absent key is [None]. *)
Module CrashStatusResponse.
Record t : Type := {
  roundId : string;
  currentStep : Z;
  multiplier : option float;
  crashed : bool;
  crashStep : option Z;
  crashMultiplier : option float
}.
End CrashStatusResponse.

(** What a handler writes: [writeError] with its HTTP status, or
    [writeJSON] with status 200. *)
Inductive Response : Type :=
| APIError (status : Z) (errMsg codeStr : string)
| ScratchRoundStart (r : ScratchRoundStartResponse.t)
| CrashRoundStart (r : CrashRoundStartResponse.t)
| CrashCashout (r : CrashCashoutResponse.t)
| CrashStatus (r : CrashStatusResponse.t).

(** The run of a handler: its response, the server afterwards, the calls
    it made and what is left of the random tape. *)
Record Reply : Type := {
  response : Response;
  server : Server;
  calls : list Call;
  rest : csprng.Tape
}.

Definition StatusOK : Z := 200.
Definition StatusBadRequest : Z := 400.
Definition StatusUnauthorized : Z := 401.
Definition StatusNotFound : Z := 404.
Definition StatusConflict : Z := 409.
Definition StatusBadGateway : Z := 502.

Definition orDefault (s default : string) : string :=
  if String.eqb s "" then default else s.

(** *** Scratch rounds *)

(** The copy loop of the replay:
    [for i := 0; i < 3 && i < len(existing.Symbols); i++] *)
Definition firstThree (l : list string) : scratch.Symbols3 :=
  (List.nth 0 l "", List.nth 1 l "", List.nth 2 l "").

Definition maxBet : float := 1e6%float.

(** The outcome of a new round: the registered model of the game, or the
    legacy generator when there is none or it cannot be used.  [None] when
    [GenerateWithMath] does not return. *)
Definition drawOutcome (s : Server) (gameID : string) (betAmount : float)
    (tape : csprng.Tape) : option (scratch.Outcome * csprng.Tape) :=
  let modelID := gameID in
  match gamemath.Get (gameMath s) modelID with
  | Some math =>
      match scratch.GenerateWithMath betAmount (Some math) tape with
      | None => None
      | Some (o, true, tape') => Some (o, tape')
      | Some (_, false, tape') => Some (scratch.Generate betAmount tape')
      end
  | None => Some (scratch.Generate betAmount tape)
  end.

Definition operatorError (default : string) (a : OperatorAnswer) : string :=
  match a with
  | OperatorResponse _ Message => if String.eqb Message "" then default else Message
  | OperatorErr msg => msg
  end.

Definition operatorFailed (a : OperatorAnswer) : bool :=
  match a with
  | OperatorErr _ => true
  | OperatorResponse Code _ => negb (Code =? 0)
  end.

Definition scratchResponse (roundID : string) (o : scratch.Outcome)
    (winAmount balanceDelta : float) (error : string) : Response :=
  ScratchRoundStart
    {| ScratchRoundStartResponse.RoundID := roundID;
       ScratchRoundStartResponse.Symbols := scratch.Symbols o;
       ScratchRoundStartResponse.WinAmount := winAmount;
       ScratchRoundStartResponse.BalanceDelta := balanceDelta;
       ScratchRoundStartResponse.Tier := scratch.Tier o;
       ScratchRoundStartResponse.Error := error |}.

(** The branch [s.operator != nil]: an early response, or the balance
    delta, with the calls made. *)
Definition settleWithOperator (w : World)
    (sessionID currency roundID deviceType gameCode : string)
    (betAmount : float) (outcome : scratch.Outcome)
  : (Response + float) * list Call :=
  match session w with
  | DatabaseUnavailable =>
      (inl (APIError StatusBadGateway "database unavailable" "TECHNICAL_ERROR"), [])
  | SessionNotFound =>
      (inl (scratchResponse roundID outcome (scratch.WinAmount outcome) 0%float
              "invalid session"), [])
  | Session userID accountID dbGameCode operatorID =>
      let gameCode :=
        if String.eqb gameCode "scratch" && negb (String.eqb dbGameCode "")
        then dbGameCode else gameCode in
      let winAmount := scratch.WinAmount outcome in
      let cDebit := Debit userID sessionID roundID gameCode deviceType betAmount in
      if operatorFailed (debit w) then
        (inl (scratchResponse roundID outcome 0%float 0%float
                (operatorError "debit failed" (debit w))), [cDebit])
      else
        let cCredit := Credit userID sessionID roundID gameCode deviceType winAmount in
        if operatorFailed (credit w) then
          (inl (scratchResponse roundID outcome 0%float 0%float
                  (operatorError "credit failed" (credit w))), [cDebit; cCredit])
        else
          let netResult := (winAmount - betAmount)%float in
          let netResult := if (netResult =? 0)%float then (- betAmount)%float else netResult in
          let cInsert :=
            InsertTransaction accountID sessionID roundID gameCode
              betAmount winAmount netResult in
          let balanceDelta :=
            if (0 <? winAmount)%float then (winAmount - betAmount)%float
            else (- betAmount)%float in
          (inr balanceDelta, [cDebit; cCredit; cInsert])
  end.

(** The branch of the platform client. *)
Definition settleWithPlatform (w : World) (sessionID currency : string)
    (betAmount : float) (outcome : scratch.Outcome)
  : (Response + float) * list Call :=
  let cBet := Bet sessionID currency betAmount "Scratch" in
  match bet w with
  | BetErr status msg =>
      let code := if status =? 0 then StatusBadGateway else status in
      (inl (APIError code msg "BET_FAILED"), [cBet])
  | BetOk betID =>
      if scratch.Match outcome then
        let cWin := Win sessionID currency (scratch.WinAmount outcome) "Scratch" in
        match win w with
        | WinErr _ msg =>
            (inl (APIError StatusBadGateway msg "WIN_FAILED"),
             [cBet; cWin; Rollback sessionID betID])
        | WinOk =>
            (inr (scratch.WinAmount outcome - betAmount)%float, [cBet; cWin])
        end
      else (inr (- betAmount)%float, [cBet])
  end.

(** The normalised fields of the request: [session_id], else [token],
    else the query parameter; [bet_amount], else [amount]; [round_id],
    else [roundId] (empty when the client sent none). *)
Definition requestSessionID (req : ScratchRoundStartRequest.t) : string :=
  orDefault (orDefault (ScratchRoundStartRequest.SessionID req)
                       (ScratchRoundStartRequest.Token req))
            (ScratchRoundStartRequest.query_session_id req).

Definition requestBetAmount (req : ScratchRoundStartRequest.t) : float :=
  if (ScratchRoundStartRequest.BetAmount req <=? 0)%float
  then ScratchRoundStartRequest.Amount req
  else ScratchRoundStartRequest.BetAmount req.

Definition requestRoundID (req : ScratchRoundStartRequest.t) : string :=
  orDefault (ScratchRoundStartRequest.RoundID req) (ScratchRoundStartRequest.RoundId req).

Definition requestDeviceType (req : ScratchRoundStartRequest.t) : string :=
  let deviceType := orDefault (ScratchRoundStartRequest.DeviceType req) "desktop" in
  if negb (String.eqb deviceType "desktop") && negb (String.eqb deviceType "mobile")
  then "desktop" else deviceType.

(** The replay of a recorded result. *)
Definition replayResponse (existing : round.Result.t) : Response :=
  ScratchRoundStart
    {| ScratchRoundStartResponse.RoundID := round.Result.RoundID existing;
       ScratchRoundStartResponse.Symbols := firstThree (round.Result.Symbols existing);
       ScratchRoundStartResponse.WinAmount := round.Result.WinAmount existing;
       ScratchRoundStartResponse.BalanceDelta := round.Result.BalanceDelta existing;
       ScratchRoundStartResponse.Tier := "";
       ScratchRoundStartResponse.Error := "" |}.

(** The entry appended for a settled scratch round. *)
Definition scratchResult (roundID : string) (outcome : scratch.Outcome)
    (balanceDelta : float) (now : Z) : round.Result.t :=
  let '(s0, s1, s2) := scratch.Symbols outcome in
  {| round.Result.RoundID := roundID;
     round.Result.BetID := "";
     round.Result.Outcome := if scratch.Match outcome then "win" else "lose";
     round.Result.NextNumber := 0;
     round.Result.BalanceDelta := balanceDelta;
     round.Result.SettledAt := now;
     round.Result.Symbols := [s0; s1; s2];
     round.Result.WinAmount := scratch.WinAmount outcome |}.

(** The handler once the outcome is drawn: the wallet calls, then
    [_ = s.results.Append(...)], whose error is dropped, then the
    response. *)
Definition settleOutcome (s : Server) (w : World)
    (sessionID currency roundID deviceType gameCode : string)
    (betAmount : float) (outcome : scratch.Outcome) (tape' : csprng.Tape) : Reply :=
  let settled :=
    if operator s
    then settleWithOperator w sessionID currency roundID deviceType gameCode
           betAmount outcome
    else settleWithPlatform w sessionID currency betAmount outcome in
  match settled with
  | (inl early, cs) =>
      {| response := early; server := s; calls := cs; rest := tape' |}
  | (inr balanceDelta, cs) =>
      let appended :=
        round.Append (results s)
          (scratchResult roundID outcome balanceDelta (now w)) (disk w) in
      {| response :=
           scratchResponse roundID outcome (scratch.WinAmount outcome) balanceDelta "";
         server := withResults s appended.1;
         calls := cs;
         rest := tape' |}
  end.

(** [handleScratchRoundStart]; [None] when the handler never answers. *)
Definition handleScratchRoundStart (s : Server)
    (req : ScratchRoundStartRequest.t) (providerID gameID : string) (w : World)
  : option Reply :=
  let answer r := Some {| response := r; server := s; calls := []; rest := tape w |} in
  let sessionID := requestSessionID req in
  if String.eqb sessionID "" then
    answer (APIError StatusUnauthorized "session_id or token required" "TOKEN_REQUIRED")
  else if 512 <? Z.of_nat (String.length sessionID) then
    answer (APIError StatusBadRequest "session_id too long" "INVALID_REQUEST")
  else
  let currency := orDefault (ScratchRoundStartRequest.Currency req) "USD" in
  let betAmount := requestBetAmount req in
  if (betAmount <=? 0)%float then
    answer (APIError StatusBadRequest "bet_amount or amount must be positive" "INVALID_AMOUNT")
  else if (maxBet <? betAmount)%float then
    answer (APIError StatusBadRequest "bet_amount exceeds maximum" "INVALID_AMOUNT")
  else
  let roundID := orDefault (requestRoundID req) (uuid w) in
  let deviceType := requestDeviceType req in
  let gameCode := orDefault (ScratchRoundStartRequest.GameCode req) gameID in
  match round.GetByRoundID (results s) roundID with
  | (Some existing, true) => answer (replayResponse existing)
  | _ =>
      match drawOutcome s gameID betAmount (tape w) with
      | None => None
      | Some (outcome, tape') =>
          Some (settleOutcome s w sessionID currency roundID deviceType gameCode
                  betAmount outcome tape')
      end
  end.

(** A request that passes the checks of the session and of the stake. *)
Definition accepted (req : ScratchRoundStartRequest.t) : bool :=
  negb (String.eqb (requestSessionID req) "")
  && negb (512 <? Z.of_nat (String.length (requestSessionID req)))
  && negb (requestBetAmount req <=? 0)%float
  && negb (maxBet <? requestBetAmount req)%float.

(** The world with another outcome of the write to the data directory. *)
Definition withDisk (w : World) (d : fs.WriteResult) : World :=
  {| tape := tape w; uuid := uuid w; now := now w; disk := d;
     session := session w; debit := debit w; credit := credit w;
     bet := bet w; win := win w |}.

(** *** Crash rounds *)

(** [handleCrashRoundStart] *)
Definition handleCrashRoundStart (s : Server) (req : CrashRoundStartRequest.t)
    (providerID : string) (w : World) : Reply :=
  let answer r cs := {| response := r; server := s; calls := cs; rest := tape w |} in
  let token := CrashRoundStartRequest.Token req in
  if String.eqb token "" then
    answer (APIError StatusUnauthorized "token required" "TOKEN_REQUIRED") []
  else
  let currency := orDefault (CrashRoundStartRequest.Currency req) "USD" in
  let amount := CrashRoundStartRequest.Amount req in
  if (amount <=? 0)%float then
    answer (APIError StatusBadRequest "amount must be positive" "INVALID_AMOUNT") []
  else
  let roundID := orDefault (CrashRoundStartRequest.RoundID req) (uuid w) in
  let cBet := Bet token currency amount "Crash" in
  match bet w with
  | BetErr status msg =>
      let code := if status =? 0 then StatusBadGateway else status in
      answer (APIError code msg "BET_FAILED") [cBet]
  | BetOk betID =>
      let '(crashStep, tape') := crash.GenerateCrashStep (tape w) in
      let '(cr, store) :=
        round.Create (crashStore s) roundID betID currency amount crashStep
          (now w) (disk w) in
      {| response :=
           CrashRoundStart
             {| CrashRoundStartResponse.RoundID := round.CrashRound.RoundID cr;
                CrashRoundStartResponse.StartedAtMs :=
                  time.UnixMilli (round.CrashRound.StartedAt cr) |};
         server := withCrashStore s store;
         calls := [cBet];
         rest := tape' |}
  end.

(** The step reached at the instant [now] by a round started at
    [startedAt], 100ms per step:
    [elapsed := time.Since(cr.StartedAt).Milliseconds()],
    [currentStep := int(elapsed / 100)], and 0 when that is negative. *)
Definition currentStep (now startedAt : Z) : Z :=
  let elapsed := time.Milliseconds (time.Since now startedAt) in
  let currentStep := Z.quot elapsed 100 in
  if currentStep <? 0 then 0 else currentStep.

(** [handleCrashCashout] *)
Definition handleCrashCashout (s : Server) (req : CrashCashoutRequest.t)
    (providerID : string) (w : World) : Reply :=
  let answer r cs := {| response := r; server := s; calls := cs; rest := tape w |} in
  let token := CrashCashoutRequest.Token req in
  let roundID := CrashCashoutRequest.RoundID req in
  if String.eqb token "" then
    answer (APIError StatusUnauthorized "token required" "TOKEN_REQUIRED") []
  else if String.eqb roundID "" then
    answer (APIError StatusBadRequest "roundId required" "INVALID_ROUND") []
  else
  match round.Get (crashStore s) roundID with
  | None => answer (APIError StatusNotFound "round not found" "ROUND_NOT_FOUND") []
  | Some cr =>
      if round.CrashRound.Settled cr then
        answer (APIError StatusConflict "round already settled" "ROUND_SETTLED") []
      else
      let currentStep := currentStep (now w) (round.CrashRound.StartedAt cr) in
      if currentStep <? CrashCashoutRequest.Step req then
        answer (APIError StatusBadRequest "cannot cash out in the future" "INVALID_STEP") []
      else
      let step :=
        if CrashCashoutRequest.Step req <? 0 then 0 else CrashCashoutRequest.Step req in
      if round.CrashRound.CrashStep cr <=? step then
        {| response :=
             CrashCashout
               {| CrashCashoutResponse.RoundID := roundID;
                  CrashCashoutResponse.CashedOut := false;
                  CrashCashoutResponse.WinAmount := 0%float;
                  CrashCashoutResponse.BalanceDelta := (- round.CrashRound.Amount cr)%float;
                  CrashCashoutResponse.Crashed := true;
                  CrashCashoutResponse.CrashStep := round.CrashRound.CrashStep cr |};
           server := withCrashStore s (round.Settle (crashStore s) roundID (disk w));
           calls := [];
           rest := tape w |}
      else
      let mult := crash.Multiplier step in
      let winAmount := (round.CrashRound.Amount cr * mult)%float in
      let cWin := Win token (round.CrashRound.Currency cr) winAmount "Crash" in
      match win w with
      | WinErr _ msg => answer (APIError StatusBadGateway msg "WIN_FAILED") [cWin]
      | WinOk =>
          {| response :=
               CrashCashout
                 {| CrashCashoutResponse.RoundID := roundID;
                    CrashCashoutResponse.CashedOut := true;
                    CrashCashoutResponse.WinAmount := winAmount;
                    CrashCashoutResponse.BalanceDelta :=
                      (winAmount - round.CrashRound.Amount cr)%float;
                    CrashCashoutResponse.Crashed := false;
                    CrashCashoutResponse.CrashStep := 0 |};
             server := withCrashStore s (round.Settle (crashStore s) roundID (disk w));
             calls := [cWin];
             rest := tape w |}
      end
  end.

(** [handleCrashStatus] with the query parameters [roundId] and [token]. *)
Definition handleCrashStatus (s : Server) (roundID token : string) (w : World)
  : Reply :=
  let answer r := {| response := r; server := s; calls := []; rest := tape w |} in
  if String.eqb roundID "" || String.eqb token "" then
    answer (APIError StatusBadRequest "roundId and token required" "INVALID_REQUEST")
  else
  match round.Get (crashStore s) roundID with
  | None =>
      answer (CrashStatus
        {| CrashStatusResponse.roundId := roundID;
           CrashStatusResponse.currentStep := 0;
           CrashStatusResponse.multiplier := None;
           CrashStatusResponse.crashed := false;
           CrashStatusResponse.crashStep := None;
           CrashStatusResponse.crashMultiplier := None |})
  | Some cr =>
      let currentStep := currentStep (now w) (round.CrashRound.StartedAt cr) in
      let crashed := round.CrashRound.CrashStep cr <=? currentStep in
      let store :=
        if crashed then round.Settle (crashStore s) roundID (disk w)
        else crashStore s in
      {| response :=
           CrashStatus
             {| CrashStatusResponse.roundId := roundID;
                CrashStatusResponse.currentStep := currentStep;
                CrashStatusResponse.multiplier := Some (crash.Multiplier currentStep);
                CrashStatusResponse.crashed := crashed;
                CrashStatusResponse.crashStep :=
                  if crashed then Some (round.CrashRound.CrashStep cr) else None;
                CrashStatusResponse.crashMultiplier :=
                  if crashed
                  then Some (crash.Multiplier (round.CrashRound.CrashStep cr))
                  else None |};
         server := withCrashStore s store;
         calls := [];
         rest := tape w |}
  end.

(** *** Requests in sequence *)

(** The round requests that [handleProviderRoute] dispatches. *)
Inductive Request : Type :=
| ScratchStart (req : ScratchRoundStartRequest.t) (providerID gameID : string)
| CrashStart (req : CrashRoundStartRequest.t) (providerID : string)
| Cashout (req : CrashCashoutRequest.t) (providerID : string)
| Status (roundID token : string).

Definition serve (s : Server) (r : Request) (w : World) : option Reply :=
  match r with
  | ScratchStart req providerID gameID => handleScratchRoundStart s req providerID gameID w
  | CrashStart req providerID => Some (handleCrashRoundStart s req providerID w)
  | Cashout req providerID => Some (handleCrashCashout s req providerID w)
  | Status roundID token => Some (handleCrashStatus s roundID token w)
  end.

(** Requests served one after the other, each in its own world; [None]
    when one of them is never answered. *)
Fixpoint serveAll (s : Server) (rs : list (Request * World)) : option Server :=
  match rs with
  | [] => Some s
  | (r, w) :: rs' =>
      match serve s r w with
      | Some reply => serveAll (server reply) rs'
      | None => None
      end
  end.

(** The request is served in a world where no write tears a file. *)
Definition writesWhole (rw : Request * World) : Prop := disk rw.2 <> fs.WriteTorn.

(** The request creates a crash round under [roundID]. *)
Definition starts (roundID : string) (rw : Request * World) : Prop :=
  match rw.1 with
  | CrashStart req _ => orDefault (CrashRoundStartRequest.RoundID req) (uuid rw.2) = roundID
  | _ => False
  end.

(** A cashout or a status query for [roundID], with its token. *)
Definition attempts (roundID : string) (r : Request) : Prop :=
  match r with
  | Cashout req _ =>
      CrashCashoutRequest.RoundID req = roundID /\ CrashCashoutRequest.Token req <> ""
  | Status id token => id = roundID /\ token <> ""
  | _ => False
  end.

(** The response tells the client that the round is over: a cashout
    that was paid or lost, a status with [crashed = true]. *)
Definition concludes (r : Response) : Prop :=
  match r with
  | CrashCashout _ => True
  | CrashStatus st => CrashStatusResponse.crashed st = true
  | _ => False
  end.

Definition alreadySettled : Response :=
  APIError StatusConflict "round already settled" "ROUND_SETTLED".

End server.

(* ===================================================================== *)
(** ** The cashout in the words of the specification *)

Module spec.

Inductive CashoutResult : Type :=
| RoundNotFound
| AlreadySettled
| FutureStep
| Lost (winAmount balanceDelta : float)
| Won (payout balanceDelta : float)
| WalletFailed
| Unspecified.

(** 100ms, in nanoseconds. *)
Definition stepDuration : Z := 100000000.

(** [elapsedStep(round) = floor((now - startTimestamp) / stepDuration)],
    floored at 0. *)
Definition elapsedStep (now startTimestamp : Z) : Z :=
  Z.max 0 ((now - startTimestamp) / stepDuration).

(** [multiplier(step) = 1 + step * stepIncrement], 1% per step. *)
Definition multiplier (step : Z) : float :=
  (1 + crash.float64_of_int step * 0.01)%float.

(** The reference definition of C5. *)
Definition cashout (store : round.CrashStore) (roundID : string)
    (claimedStep now : Z) (w : fs.WriteResult) : CashoutResult * round.CrashStore :=
  match round.Get store roundID with
  | None => (RoundNotFound, store)
  | Some r =>
      if round.CrashRound.Settled r then (AlreadySettled, store)
      else if elapsedStep now (round.CrashRound.StartedAt r) <? claimedStep
      then (FutureStep, store)
      else
        let stake := round.CrashRound.Amount r in
        if round.CrashRound.CrashStep r <=? claimedStep
        then (Lost 0 (- stake)%float, round.Settle store roundID w)
        else
          let payout := (stake * multiplier claimedStep)%float in
          (Won payout (payout - stake)%float, round.Settle store roundID w)
  end.

(** The reference definition as amended: a claimed step below 0 counts
    as step 0, and a win is settled only when the wallet accepts the
    payout. *)
Definition cashoutAmended (store : round.CrashStore) (roundID : string)
    (claimedStep now : Z) (walletAccepts : bool) (w : fs.WriteResult)
  : CashoutResult * round.CrashStore :=
  match round.Get store roundID with
  | None => (RoundNotFound, store)
  | Some r =>
      if round.CrashRound.Settled r then (AlreadySettled, store)
      else if elapsedStep now (round.CrashRound.StartedAt r) <? claimedStep
      then (FutureStep, store)
      else
        let stake := round.CrashRound.Amount r in
        let step := Z.max 0 claimedStep in
        if round.CrashRound.CrashStep r <=? step
        then (Lost 0 (- stake)%float, round.Settle store roundID w)
        else if walletAccepts then
          let payout := (stake * multiplier step)%float in
          (Won payout (payout - stake)%float, round.Settle store roundID w)
        else (WalletFailed, store)
  end.

(** The result a response of [handleCrashCashout] stands for. *)
Definition classify (r : server.Response) : CashoutResult :=
  match r with
  | server.APIError _ _ code =>
      if String.eqb code "ROUND_NOT_FOUND" then RoundNotFound
      else if String.eqb code "ROUND_SETTLED" then AlreadySettled
      else if String.eqb code "INVALID_STEP" then FutureStep
      else if String.eqb code "WIN_FAILED" then WalletFailed
      else Unspecified
  | server.CrashCashout c =>
      if server.CrashCashoutResponse.Crashed c
      then Lost (server.CrashCashoutResponse.WinAmount c)
                (server.CrashCashoutResponse.BalanceDelta c)
      else Won (server.CrashCashoutResponse.WinAmount c)
               (server.CrashCashoutResponse.BalanceDelta c)
  | _ => Unspecified
  end.

Definition accepts (a : server.WinAnswer) : bool :=
  match a with server.WinOk => true | server.WinErr _ _ => false end.

End spec.

(* ===================================================================== *)
(** ** Settlement attempts running side by side *)

Module goroutines.

Import server.

(** What a goroutine serves: a cashout or a status query. *)
Inductive Job : Type :=
| CashoutJob (req : CrashCashoutRequest.t)
| StatusJob (roundID token : string).

(** Where a goroutine stands in its handler.  The store takes its mutex
    for [Get] and for [Settle] only, so another goroutine can run between
    any two of these points.  Only cashouts and status queries run here: no
    round is created or deleted, and the object behind the pointer [cr]
    stays the one the map holds under the round id. *)
Inductive Point : Type :=
| Arrived
| Fetched (cr : round.CrashRound.t)
| Crediting (payout : Call) (onSuccess : Response)
| Closing (answer : Response)
| Answered (answer : Response).

Record Goroutine : Type := {
  job : Job;
  world : World;
  point : Point
}.

Definition moveTo (g : Goroutine) (p : Point) : Goroutine :=
  {| job := job g; world := world g; point := p |}.

(** One move of a goroutine in [handleCrashCashout]: up to the next
    point, on the server as the others left it. *)
Definition stepCashout (s : Server) (g : Goroutine) (req : CrashCashoutRequest.t)
  : Server * Goroutine * list Call :=
  let w := world g in
  let token := CrashCashoutRequest.Token req in
  let roundID := CrashCashoutRequest.RoundID req in
  match point g with
  | Arrived =>
      if String.eqb token "" then
        (s, moveTo g (Answered (APIError StatusUnauthorized "token required"
                                  "TOKEN_REQUIRED")), [])
      else if String.eqb roundID "" then
        (s, moveTo g (Answered (APIError StatusBadRequest "roundId required"
                                  "INVALID_ROUND")), [])
      else
        match round.Get (crashStore s) roundID with
        | None =>
            (s, moveTo g (Answered (APIError StatusNotFound "round not found"
                                      "ROUND_NOT_FOUND")), [])
        | Some cr => (s, moveTo g (Fetched cr), [])
        end
  | Fetched cr =>
      (* [cr.Settled] is read now, through the pointer *)
      let settledNow :=
        match round.Get (crashStore s) roundID with
        | Some current => round.CrashRound.Settled current
        | None => round.CrashRound.Settled cr
        end in
      if settledNow then (s, moveTo g (Answered alreadySettled), [])
      else
      let currentStep := currentStep (now w) (round.CrashRound.StartedAt cr) in
      if currentStep <? CrashCashoutRequest.Step req then
        (s, moveTo g (Answered (APIError StatusBadRequest
                                  "cannot cash out in the future" "INVALID_STEP")), [])
      else
      let step :=
        if CrashCashoutRequest.Step req <? 0 then 0 else CrashCashoutRequest.Step req in
      if round.CrashRound.CrashStep cr <=? step then
        (s, moveTo g (Closing (CrashCashout
           {| CrashCashoutResponse.RoundID := roundID;
              CrashCashoutResponse.CashedOut := false;
              CrashCashoutResponse.WinAmount := 0%float;
              CrashCashoutResponse.BalanceDelta := (- round.CrashRound.Amount cr)%float;
              CrashCashoutResponse.Crashed := true;
              CrashCashoutResponse.CrashStep := round.CrashRound.CrashStep cr |})), [])
      else
      let mult := crash.Multiplier step in
      let winAmount := (round.CrashRound.Amount cr * mult)%float in
      (s, moveTo g (Crediting
         (Win token (round.CrashRound.Currency cr) winAmount "Crash")
         (CrashCashout
           {| CrashCashoutResponse.RoundID := roundID;
              CrashCashoutResponse.CashedOut := true;
              CrashCashoutResponse.WinAmount := winAmount;
              CrashCashoutResponse.BalanceDelta :=
                (winAmount - round.CrashRound.Amount cr)%float;
              CrashCashoutResponse.Crashed := false;
              CrashCashoutResponse.CrashStep := 0 |})), [])
  | Crediting payout onSuccess =>
      match win w with
      | WinErr _ msg =>
          (s, moveTo g (Answered (APIError StatusBadGateway msg "WIN_FAILED")), [payout])
      | WinOk => (s, moveTo g (Closing onSuccess), [payout])
      end
  | Closing answer =>
      (withCrashStore s (round.Settle (crashStore s) roundID (disk w)),
       moveTo g (Answered answer), [])
  | Answered _ => (s, g, [])
  end.

(** One move of a goroutine in [handleCrashStatus]. *)
Definition stepStatus (s : Server) (g : Goroutine) (roundID token : string)
  : Server * Goroutine * list Call :=
  let w := world g in
  match point g with
  | Arrived =>
      if String.eqb roundID "" || String.eqb token "" then
        (s, moveTo g (Answered (APIError StatusBadRequest "roundId and token required"
                                  "INVALID_REQUEST")), [])
      else
        match round.Get (crashStore s) roundID with
        | None =>
            (s, moveTo g (Answered (CrashStatus
               {| CrashStatusResponse.roundId := roundID;
                  CrashStatusResponse.currentStep := 0;
                  CrashStatusResponse.multiplier := None;
                  CrashStatusResponse.crashed := false;
                  CrashStatusResponse.crashStep := None;
                  CrashStatusResponse.crashMultiplier := None |})), [])
        | Some cr => (s, moveTo g (Fetched cr), [])
        end
  | Fetched cr =>
      let currentStep := currentStep (now w) (round.CrashRound.StartedAt cr) in
      let crashed := round.CrashRound.CrashStep cr <=? currentStep in
      let answer :=
        CrashStatus
          {| CrashStatusResponse.roundId := roundID;
             CrashStatusResponse.currentStep := currentStep;
             CrashStatusResponse.multiplier := Some (crash.Multiplier currentStep);
             CrashStatusResponse.crashed := crashed;
             CrashStatusResponse.crashStep :=
               if crashed then Some (round.CrashRound.CrashStep cr) else None;
             CrashStatusResponse.crashMultiplier :=
               if crashed
               then Some (crash.Multiplier (round.CrashRound.CrashStep cr))
               else None |} in
      if crashed then (s, moveTo g (Closing answer), [])
      else (s, moveTo g (Answered answer), [])
  | Crediting _ onSuccess => (s, moveTo g (Closing onSuccess), [])
  | Closing answer =>
      (withCrashStore s (round.Settle (crashStore s) roundID (disk w)),
       moveTo g (Answered answer), [])
  | Answered _ => (s, g, [])
  end.

Definition step (s : Server) (g : Goroutine) : Server * Goroutine * list Call :=
  match job g with
  | CashoutJob req => stepCashout s g req
  | StatusJob roundID token => stepStatus s g roundID token
  end.

(** The goroutines moved in the order of the schedule, which names them
    by position. *)
Fixpoint run (s : Server) (gs : list Goroutine) (schedule : list nat)
  : Server * list Goroutine * list Call :=
  match schedule with
  | [] => (s, gs, [])
  | i :: schedule' =>
      match gs !! i with
      | None => run s gs schedule'
      | Some g =>
          let '(s', g', cs) := step s g in
          let '(s'', gs', cs') := run s' (<[i := g']> gs) schedule' in
          (s'', gs', cs ++ cs')
      end
  end.

Definition answers (gs : list Goroutine) : list (option Response) :=
  (fun g => match point g with Answered r => Some r | _ => None end) <$> gs.

Definition arrive (j : Job) (w : World) : Goroutine :=
  {| job := j; world := w; point := Arrived |}.

End goroutines.

(* ===================================================================== *)
(** ** package strings, on byte strings *)

Module strings.

(** [s[n:]] and [s[:n]] *)
Fixpoint from (n : nat) (s : string) : string :=
  match n, s with
  | O, _ => s
  | S n', String _ s' => from n' s'
  | S _, EmptyString => EmptyString
  end.

Fixpoint upto (n : nat) (s : string) : string :=
  match n, s with
  | O, _ => EmptyString
  | S n', String c s' => String c (upto n' s')
  | S _, EmptyString => EmptyString
  end.

(** [len(s) >= len(prefix) && s[:len(prefix)] == prefix] *)
Definition HasPrefix (s prefix : string) : bool :=
  (String.length prefix <=? String.length s)%nat
  && String.eqb (upto (String.length prefix) s) prefix.

(** [len(s) >= len(suffix) && s[len(s)-len(suffix):] == suffix] *)
Definition HasSuffix (s suffix : string) : bool :=
  (String.length suffix <=? String.length s)%nat
  && String.eqb (from (String.length s - String.length suffix) s) suffix.

Definition TrimPrefix (s prefix : string) : string :=
  if HasPrefix s prefix then from (String.length prefix) s else s.

Definition TrimSuffix (s suffix : string) : string :=
  if HasSuffix s suffix then upto (String.length s - String.length suffix) s else s.

(** The byte [c] is one of [cutset], a set of ASCII characters. *)
Fixpoint inCutset (c : ascii) (cutset : string) : bool :=
  match cutset with
  | EmptyString => false
  | String d cutset' => Ascii.eqb c d || inCutset c cutset'
  end.

Fixpoint TrimLeft (s cutset : string) : string :=
  match s with
  | EmptyString => EmptyString
  | String c s' => if inCutset c cutset then TrimLeft s' cutset else s
  end.

Fixpoint TrimRight (s cutset : string) : string :=
  match s with
  | EmptyString => EmptyString
  | String c s' =>
      match TrimRight s' cutset with
      | EmptyString => if inCutset c cutset then EmptyString else String c EmptyString
      | t => String c t
      end
  end.

Definition Trim (s cutset : string) : string :=
  TrimRight (TrimLeft s cutset) cutset.

(** [strings.Split(s, sep)] for a separator [sep] of one byte. *)
Fixpoint Split (s : string) (sep : ascii) : list string :=
  match s with
  | EmptyString => [EmptyString]
  | String c s' =>
      if Ascii.eqb c sep then EmptyString :: Split s' sep
      else
        match Split s' sep with
        | [] => [String c EmptyString]
        | x :: xs => String c x :: xs
        end
  end.

Fixpoint Contains (s substr : string) : bool :=
  HasPrefix s substr
  || match s with
     | EmptyString => false
     | String _ s' => Contains s' substr
     end.

End strings.

(* ===================================================================== *)
(** ** package net/url *)

Module url.

Definition between (lo hi c : ascii) : bool := Ascii.leb lo c && Ascii.leb c hi.

(** The bytes [shouldEscape] leaves alone in a query component: letters,
    digits and the marks [-], [_], [.], [~]. *)
Definition unreserved (c : ascii) : bool :=
  between "a" "z" c || between "A" "Z" c || between "0" "9" c
  || Ascii.eqb c "-" || Ascii.eqb c "_" || Ascii.eqb c "." || Ascii.eqb c "~".

(** ["0123456789ABCDEF"[n]] *)
Definition upperhex (n : N) : ascii :=
  if (n <? 10)%N then ascii_of_N (48 + n) else ascii_of_N (55 + n).

(** [url.QueryEscape] *)
Fixpoint QueryEscape (s : string) : string :=
  match s with
  | EmptyString => EmptyString
  | String c s' =>
      if unreserved c then String c (QueryEscape s')
      else if Ascii.eqb c " " then String "+" (QueryEscape s')
      else
        let n := N_of_ascii c in
        String "%" (String (upperhex (n / 16)) (String (upperhex (n mod 16))
          (QueryEscape s')))
  end.

End url.

(* ===================================================================== *)
(** ** package strconv *)

Module strconv.

Definition digit (c : ascii) : option Z :=
  if url.between "0" "9" c then Some (Z.of_N (N_of_ascii c) - 48) else None.

Fixpoint digits (acc : Z) (s : string) : option Z :=
  match s with
  | EmptyString => Some acc
  | String c s' =>
      match digit c with
      | Some d => digits (10 * acc + d) s'
      | None => None
      end
  end.

(** [strconv.Atoi]: an optional sign and decimal digits, at least one;
    [None] is a syntax or range error. *)
Definition Atoi (s : string) : option Z :=
  let '(neg, body) :=
    match s with
    | String "-" s' => (true, s')
    | String "+" s' => (false, s')
    | _ => (false, s)
    end in
  match body with
  | EmptyString => None
  | _ =>
      match digits 0 body with
      | Some n =>
          let v := if neg then - n else n in
          if (- 2 ^ 63 <=? v) && (v <? 2 ^ 63) then Some v else None
      | None => None
      end
  end.

End strconv.

(* ===================================================================== *)
(** ** package config *)

Module config.

Record Config : Type := {
  PlatformURL : string;
  RGSBaseURL : string;
  RGSPort : Z;
  GameName : string;
  GameProvider : string;
  DataDir : string;
  GamesDir : string;
  OperatorEndpoint : string;
  OperatorSecret : string
}.

(** The port of [Load]: [PORT] first, then [RGS_PORT]. *)
Definition port (Getenv : string -> string) : Z :=
  let port := 8081 in
  let p := Getenv "PORT" in
  if negb (String.eqb p "") then
    match strconv.Atoi p with
    | Some v => if 0 <? v then v else port
    | None => port
    end
  else
    let p := Getenv "RGS_PORT" in
    if negb (String.eqb p "") then
      match strconv.Atoi p with
      | Some v => if 0 <? v then v else port
      | None => port
      end
    else port.

(** [Load], reading the environment through [os.Getenv], which gives the
    empty string for a variable that is not set. *)
Definition Load (Getenv : string -> string) : Config :=
  {| PlatformURL := server.orDefault (Getenv "PLATFORM_URL") "http://localhost:3000";
     RGSBaseURL := server.orDefault (Getenv "RGS_BASE_URL") "http://localhost:8081";
     RGSPort := port Getenv;
     GameName := server.orDefault (Getenv "GAME_NAME") "Hi/Lo";
     GameProvider := server.orDefault (Getenv "GAME_PROVIDER") "Crypto LATAM";
     DataDir := server.orDefault (Getenv "RGS_DATA_DIR") "data";
     GamesDir := server.orDefault (Getenv "RGS_GAMES_DIR") "games";
     OperatorEndpoint := Getenv "OPERATOR_ENDPOINT";
     OperatorSecret := Getenv "OPERATOR_SECRET" |}.

End config.

(* ===================================================================== *)
(** ** package games: the registry *)

Module games.

Record Provider : Type := {
  ID : string;
  Games : list string
}.

(** [Registry]: the providers by id. *)
Definition Registry : Type := gmap string Provider.

(** [Registry.Register] *)
Definition Register (r : gmap string Provider) (providerID : string)
    (gameIDs : list string) : gmap string Provider :=
  <[providerID := {| ID := providerID; Games := gameIDs |}]> r.

(** [Registry.HasGame] *)
Definition HasGame (r : gmap string Provider) (providerID gameID : string) : bool :=
  match r !! providerID with
  | None => false
  | Some p => existsb (fun g => String.eqb g gameID) (Games p)
  end.

(** [Registry.ListProviders], in the order of the map. *)
Definition ListProviders (r : gmap string Provider) : list string :=
  (map_to_list r).*1.

(** [Registry.ListGames]; [None] is [(nil, false)]. *)
Definition ListGames (r : gmap string Provider) (providerID : string)
  : option (list string) :=
  Games <$> r !! providerID.

(** One query parameter of [GetLaunchURL]:
    [if v != "" { u += sep + key + url.QueryEscape(v); sep = "&" }] *)
Definition addParam (key v : string) (acc : string * string) : string * string :=
  let '(u, sep) := acc in
  if String.eqb v "" then (u, sep)
  else (u +:+ sep +:+ key +:+ url.QueryEscape v, "&").

(** [Registry.GetLaunchURL]; [inr] is the error. *)
Definition GetLaunchURL (r : gmap string Provider)
    (baseURL providerID gameID token lang currency : string) : string + string :=
  if negb (HasGame r providerID gameID) then
    inr ("unknown game " +:+ gameID +:+ " for provider " +:+ providerID)
  else
    let path := "/rgs/game/" +:+ gameID in
    let u := baseURL +:+ path in
    let acc := (u, "?") in
    let acc := addParam "token=" token acc in
    let acc := addParam "lang=" lang acc in
    let acc := addParam "currency=" currency acc in
    inl acc.1.

End games.

(* ===================================================================== *)
(** ** package round: the rounds of Hi/Lo *)

Module hilo.

Definition minNum : Z := 1.
Definition maxNum : Z := 10.

(** [secureIntn] of [round/store.go]: 0 for [n <= 0] and when the reader
    fails. *)
Definition secureIntn (n : Z) (tape : csprng.Tape) : Z * csprng.Tape :=
  if n <=? 0 then (0, tape)
  else
    match csprng.Int n tape with
    | (None, tape') => (0, tape')
    | (Some v, tape') => (v, tape')
    end.

(** [NextNumber] *)
Definition NextNumber (tape : csprng.Tape) : Z * csprng.Tape :=
  let size := maxNum - minNum + 1 in
  let '(v, tape) := secureIntn size tape in
  (minNum + v, tape).

(** [Round] *)
Record Round : Type := {
  RoundID : string;
  BetID : string;
  Currency : string;
  Amount : float;
  CurrentNumber : Z;
  CreatedAt : Z
}.

(** [Store]: the rounds in memory and [rounds.json]. *)
Record Store : Type := {
  rounds : gmap string Round;
  file : option (list Round)
}.

(** [Store.save]; every caller drops the error.  [json.MarshalIndent]
    refuses an amount that is NaN or infinite, and nothing is written
    then. *)
Definition save (s : Store) (w : fs.WriteResult) : Store :=
  let list := (map_to_list (rounds s)).*2 in
  if forallb (fun r => round.finite (Amount r)) list
  then {| rounds := rounds s; file := fs.write (file s) list w |}
  else s.

(** [Store.load]: the loop over the decoded list,
    [if r != nil && r.RoundID != ""]. *)
Definition load (list : list Round) : gmap string Round :=
  foldl (fun m r => if String.eqb (RoundID r) "" then m else <[RoundID r := r]> m)
        ∅ list.

(** [NewStore] *)
Definition NewStore (file : option (list Round)) : Store :=
  {| rounds := match file with Some l => load l | None => ∅ end;
     file := file |}.

(** [Store.Create] at the instant [now]: the number is drawn first. *)
Definition Create (s : Store) (roundID betID currency : string) (amount : float)
    (now : Z) (tape : csprng.Tape) (w : fs.WriteResult)
  : Round * Store * csprng.Tape :=
  let '(num, tape) := NextNumber tape in
  let r := {| RoundID := roundID; BetID := betID; Currency := currency;
              Amount := amount; CurrentNumber := num; CreatedAt := now |} in
  (r, save {| rounds := <[roundID := r]> (rounds s); file := file s |} w, tape).

(** [Store.Get] *)
Definition Get (s : Store) (roundID : string) : option Round :=
  rounds s !! roundID.

(** [Store.Delete] *)
Definition Delete (s : Store) (roundID : string) (w : fs.WriteResult) : Store :=
  save {| rounds := delete roundID (rounds s); file := file s |} w.

(** Every round sits under its own id, which is not empty, and its
    amount is a number: what [Create] makes of the requests that
    [roundStart] lets through, and what [load] reads back. *)
Definition sound (s : Store) : Prop :=
  forall k r, rounds s !! k = Some r ->
    RoundID r = k /\ k <> "" /\ round.finite (Amount r) = true.

(** The store of the next process. *)
Definition restart (s : Store) : Store := NewStore (file s).

End hilo.

(* ===================================================================== *)
(** ** package gamemath: the file of the registry *)

Module gamemathStore.

Import gamemath.

(** [Store.load]: the loop over the decoded entries,
    [if e.ModelID != "" && e.Math != nil]. *)
Definition load (list : list (string * option GameMath)) : gmap string GameMath :=
  foldl (fun m e =>
           match e with
           | (id, Some math) => if String.eqb id "" then m else <[id := math]> m
           | (_, None) => m
           end) ∅ list.

(** [NewStore] on a file as [saveLocked] writes it, every entry with its
    model. *)
Definition NewStore (file : option (list (string * GameMath))) : Store :=
  {| math := match file with
             | Some l => load (prod_map id Some <$> l)
             | None => ∅
             end;
     file := file |}.

(** The store of the next process. *)
Definition restart (s : Store) : Store := NewStore (gamemath.file s).

End gamemathStore.

(* ===================================================================== *)
(** ** Conversion of floating point numbers to integers *)

(** [int64(x)]: the fraction is discarded.  The language leaves the result
    open when [int64] cannot hold the value; [indefinite] is what the
    platform gives then. *)
Definition int64_of_float (indefinite : float -> Z) (x : float) : Z :=
  match Prim2SF x with
  | S754_zero _ => 0
  | S754_finite sign m e =>
      let magnitude := if 0 <=? e then Z.pos m * 2 ^ e else Z.pos m / 2 ^ (- e) in
      let v := if sign then - magnitude else magnitude in
      if (- 2 ^ 63 <=? v) && (v <? 2 ^ 63) then v else indefinite x
  | _ => indefinite x
  end.

(** [a * b] on [int64]. *)
Definition mul64 (a b : Z) : Z := wrap64 (a * b).

(* ===================================================================== *)
(** ** package server: the server as a whole *)

Module httpserver.

Import server.

(** [Server], with the fields that the provider handlers do not use
    beside those they use. *)
Record Server : Type := {
  core : server.Server;  (* [operator], [results], [crashStore], [gameMath] *)
  cfg : config.Config;
  store : hilo.Store;
  registry : games.Registry
}.

Definition withCore (s : Server) (c : server.Server) : Server :=
  {| core := c; cfg := cfg s; store := store s; registry := registry s |}.

Definition withStore (s : Server) (st : hilo.Store) : Server :=
  {| core := core s; cfg := cfg s; store := st; registry := registry s |}.

(** [platform.Client.GetBalance]: [(balances, status, err)] *)
Inductive BalanceAnswer : Type :=
| BalanceOk
| BalanceErr (status : Z) (msg : string).

(** What the world answers during one request, beside [server.World]:
    the wallet on [Rollback] and on [GetBalance], the outcome of a second
    write to the data directory, and the text of the error of a write that
    failed. *)
Record World : Type := {
  base : server.World;
  rollback : WinAnswer;
  balance : BalanceAnswer;
  cleanup : fs.WriteResult;
  diskError : string
}.

Inductive Call : Type :=
| Wallet (c : server.Call)
| GetBalance (token : string).

(** *** Requests and responses.  [Token], [Lang] and [Currency] of a
    launch, and [Token] of a round, hold the value after
    [strings.TrimSpace]; [Choice] holds the value after
    [strings.ToLower(strings.TrimSpace(...))]. *)

Module roundStartRequest.
Record t : Type := {
  Token : string;
  Currency : string;
  Amount : float;
  RoundID : string
}.
End roundStartRequest.

Module roundStartResponse.
Record t : Type := {
  RoundID : string;
  CurrentNumber : Z;
  BetID : string;
  Error : string
}.
End roundStartResponse.

Module roundEndRequest.
Record t : Type := {
  Token : string;
  RoundID : string;
  Choice : string
}.
End roundEndRequest.

Module roundEndResponse.
Record t : Type := {
  Outcome : string;
  NextNumber : Z;
  BalanceDelta : float;
  Error : string
}.
End roundEndResponse.

Module LaunchRequest.
Record t : Type := {
  Token : string;
  Lang : string;
  Currency : string
}.
End LaunchRequest.

(** [LaunchResponse]; [Config] has the keys [lang] and [currency]. *)
Module LaunchResponse.
Record t : Type := {
  IframeURL : string;
  Config_lang : string;
  Config_currency : string
}.
End LaunchResponse.

(** What a handler writes: a response of the provider handlers, the
    plain text of [http.Error], or [writeJSON] with its status. *)
Inductive Response : Type :=
| Provider (r : server.Response)
| HTTPError (status : Z) (msg : string)
| RoundStart (status : Z) (r : roundStartResponse.t)
| RoundEnd (status : Z) (r : roundEndResponse.t)
| Launch (r : LaunchResponse.t)
| MathRegistered (model_id : string).

Record Reply : Type := {
  response : Response;
  server : Server;
  calls : list Call;
  rest : csprng.Tape
}.

Definition StatusMethodNotAllowed : Z := 405.
Definition StatusInternalServerError : Z := 500.

Definition MethodGet : string := "GET".
Definition MethodPost : string := "POST".

(** *** Hi/Lo *)

Definition roundStartError (msg : string) : roundStartResponse.t :=
  {| roundStartResponse.RoundID := ""; roundStartResponse.CurrentNumber := 0;
     roundStartResponse.BetID := ""; roundStartResponse.Error := msg |}.

(** [roundStart]; [body] is [None] when the body does not decode. *)
Definition roundStart (s : Server) (method : string)
    (body : option roundStartRequest.t) (w : World) : Reply :=
  let answer r cs :=
    {| response := r; server := s; calls := cs; rest := tape (base w) |} in
  if negb (String.eqb method MethodPost) then
    answer (HTTPError StatusMethodNotAllowed "method not allowed") []
  else
  match body with
  | None => answer (RoundStart StatusBadRequest (roundStartError "invalid body")) []
  | Some req =>
      let token := roundStartRequest.Token req in
      if String.eqb token "" then
        answer (RoundStart StatusUnauthorized (roundStartError "token required")) []
      else
      let currency := orDefault (roundStartRequest.Currency req) "USD" in
      let amount := roundStartRequest.Amount req in
      if (amount <=? 0)%float then
        answer (RoundStart StatusBadRequest (roundStartError "amount must be positive")) []
      else
      let roundID := orDefault (roundStartRequest.RoundID req) (uuid (base w)) in
      let cBet := Wallet (Bet token currency amount "") in
      match bet (base w) with
      | BetErr status msg =>
          let code := if status =? 0 then StatusBadGateway else status in
          answer (RoundStart code (roundStartError msg)) [cBet]
      | BetOk betID =>
          let '(round, store, tape') :=
            hilo.Create (store s) roundID betID currency amount (now (base w))
              (tape (base w)) (disk (base w)) in
          {| response :=
               RoundStart StatusOK
                 {| roundStartResponse.RoundID := hilo.RoundID round;
                    roundStartResponse.CurrentNumber := hilo.CurrentNumber round;
                    roundStartResponse.BetID := hilo.BetID round;
                    roundStartResponse.Error := "" |};
             server := withStore s store;
             calls := [cBet];
             rest := tape' |}
      end
  end.

Definition roundEndError (msg : string) : roundEndResponse.t :=
  {| roundEndResponse.Outcome := ""; roundEndResponse.NextNumber := 0;
     roundEndResponse.BalanceDelta := 0%float; roundEndResponse.Error := msg |}.

(** The entry of the ledger for a settled round of Hi/Lo. *)
Definition hiloResult (roundID betID outcome : string) (nextNum : Z)
    (delta : float) (now : Z) : round.Result.t :=
  {| round.Result.RoundID := roundID;
     round.Result.BetID := betID;
     round.Result.Outcome := outcome;
     round.Result.NextNumber := nextNum;
     round.Result.BalanceDelta := delta;
     round.Result.SettledAt := now;
     round.Result.Symbols := [];
     round.Result.WinAmount := 0%float |}.

(** [roundEnd].  Once the round is found, [defer s.store.Delete] runs on
    every way out; the write of the ledger is [disk], the write of
    [rounds.json] by the deferred [Delete] is [cleanup]. *)
Definition roundEnd (s : Server) (method : string)
    (body : option roundEndRequest.t) (w : World) : Reply :=
  let answer r :=
    {| response := r; server := s; calls := []; rest := tape (base w) |} in
  if negb (String.eqb method MethodPost) then
    answer (HTTPError StatusMethodNotAllowed "method not allowed")
  else
  match body with
  | None => answer (RoundEnd StatusBadRequest (roundEndError "invalid body"))
  | Some req =>
      let token := roundEndRequest.Token req in
      let roundID := roundEndRequest.RoundID req in
      let choice := roundEndRequest.Choice req in
      if String.eqb token "" then
        answer (RoundEnd StatusUnauthorized (roundEndError "token required"))
      else if String.eqb roundID "" then
        answer (RoundEnd StatusBadRequest (roundEndError "roundId required"))
      else if negb (String.eqb choice "higher") && negb (String.eqb choice "lower") then
        answer (RoundEnd StatusBadRequest
                  (roundEndError "choice must be higher or lower"))
      else
      match hilo.Get (store s) roundID with
      | None =>
          answer (RoundEnd StatusNotFound
                    (roundEndError "round not found or already settled"))
      | Some rnd =>
          let deleted := hilo.Delete (store s) roundID (cleanup w) in
          let '(nextNum, tape') := hilo.NextNumber (tape (base w)) in
          let current := hilo.CurrentNumber rnd in
          let win :=
            (String.eqb choice "higher" && (current <? nextNum))
            || (String.eqb choice "lower" && (nextNum <? current)) in
          let push := nextNum =? current in
          let failed code msg cs :=
            {| response := RoundEnd code (roundEndError msg);
               server := withStore s deleted; calls := cs; rest := tape' |} in
          let settled outcome delta cs :=
            let appended :=
              round.Append (results (core s))
                (hiloResult roundID (hilo.BetID rnd) outcome nextNum delta
                   (now (base w)))
                (disk (base w)) in
            {| response :=
                 RoundEnd StatusOK
                   {| roundEndResponse.Outcome := outcome;
                      roundEndResponse.NextNumber := nextNum;
                      roundEndResponse.BalanceDelta := delta;
                      roundEndResponse.Error := "" |};
               server := withStore (withCore s (withResults (core s) appended.1)) deleted;
               calls := cs;
               rest := tape' |} in
          if push then
            let cRollback := Wallet (Rollback token (hilo.BetID rnd)) in
            match rollback w with
            | WinErr status msg =>
                failed (if status =? 0 then StatusBadGateway else status) msg [cRollback]
            | WinOk => settled "push" 0%float [cRollback]
            end
          else if win then
            let cWin := Wallet (Win token (hilo.Currency rnd) (hilo.Amount rnd) "") in
            match server.win (base w) with
            | WinErr _ msg => failed StatusBadGateway msg [cWin]
            | WinOk => settled "win" (hilo.Amount rnd) [cWin]
            end
          else settled "lose" (- hilo.Amount rnd)%float []
      end
  end.

(** *** Launch *)

(** [handleLaunch] *)
Definition handleLaunch (s : Server) (body : option LaunchRequest.t)
    (providerID gameID : string) (w : World) : Reply :=
  let answer r cs :=
    {| response := r; server := s; calls := cs; rest := tape (base w) |} in
  match body with
  | None => answer (Provider (APIError StatusBadRequest "invalid body" "INVALID_BODY")) []
  | Some req =>
      let token := LaunchRequest.Token req in
      if String.eqb token "" then
        answer (Provider (APIError StatusUnauthorized "token required" "TOKEN_REQUIRED")) []
      else
      match balance w with
      | BalanceErr status msg =>
          let code := if status =? 0 then StatusBadGateway else status in
          answer (Provider (APIError code msg "TOKEN_INVALID")) [GetBalance token]
      | BalanceOk =>
          let lang := orDefault (LaunchRequest.Lang req) "es" in
          let currency := orDefault (LaunchRequest.Currency req) "USD" in
          let baseURL := strings.TrimSuffix (config.RGSBaseURL (cfg s)) "/" in
          match games.GetLaunchURL (registry s) baseURL providerID gameID
                  token lang currency with
          | inr err =>
              answer (Provider (APIError StatusBadRequest err "LAUNCH_ERROR"))
                [GetBalance token]
          | inl iframeURL =>
              answer (Launch {| LaunchResponse.IframeURL := iframeURL;
                                LaunchResponse.Config_lang := lang;
                                LaunchResponse.Config_currency := currency |})
                [GetBalance token]
          end
      end
  end.

(** *** Registration of a model *)

(** [handleRegisterGameMath]; the write is [disk]. *)
Definition handleRegisterGameMath (s : Server) (body : option gamemath.GameMath)
    (gameID : string) (w : World) : Reply :=
  let answer r :=
    {| response := r; server := s; calls := []; rest := tape (base w) |} in
  match body with
  | None => answer (Provider (APIError StatusBadRequest "invalid body" "INVALID_BODY"))
  | Some math =>
      if String.eqb (gamemath.ModelID math) "" then
        answer (Provider (APIError StatusBadRequest "model_id required" "INVALID_BODY"))
      else
      match gamemath.PrizeTable math with
      | [] =>
          answer (Provider (APIError StatusBadRequest "prize_table required" "INVALID_BODY"))
      | _ :: _ =>
          let '(registered, ok) :=
            gamemath.Register (gameMath (core s)) (Some math) (disk (base w)) in
          let s' :=
            withCore s {| operator := operator (core s);
                          results := results (core s);
                          crashStore := crashStore (core s);
                          gameMath := registered |} in
          {| response :=
               if ok then MathRegistered (gamemath.ModelID math)
               else Provider (APIError StatusInternalServerError (diskError w)
                                "REGISTER_FAILED");
             server := s'; calls := []; rest := tape (base w) |}
      end
  end.

(** *** The provider routes *)

(** A request to [/rgs/providers/...]: the method, the path, the body as
    each handler decodes it ([None]: it does not decode), and the query
    parameters [roundId] and [token] after [strings.TrimSpace]. *)
Record Request : Type := {
  Method : string;
  Path : string;
  asLaunchRequest : option LaunchRequest.t;
  asGameMath : option gamemath.GameMath;
  asScratchRoundStartRequest : option ScratchRoundStartRequest.t;
  asCrashRoundStartRequest : option CrashRoundStartRequest.t;
  asCrashCashoutRequest : option CrashCashoutRequest.t;
  query_roundId : string;
  query_token : string
}.

(** The reply of a provider handler, which works on the [core]. *)
Definition lift (s : Server) (r : server.Reply) : Reply :=
  {| response := Provider (server.response r);
     server := withCore s (server.server r);
     calls := Wallet <$> server.calls r;
     rest := server.rest r |}.

(** The first step of every handler with a body:
    [if err := json.NewDecoder(r.Body).Decode(&req); err != nil]. *)
Definition decoded {A : Type} (s : Server) (w : World) (body : option A)
    (handler : A -> option server.Reply) : option Reply :=
  match body with
  | None =>
      Some {| response := Provider (APIError StatusBadRequest "invalid body" "INVALID_BODY");
              server := s; calls := []; rest := tape (base w) |}
  | Some req => lift s <$> handler req
  end.

(** [handleProviderRoute]; [None] when the handler never answers. *)
Definition handleProviderRoute (s : Server) (r : Request) (w : World) : option Reply :=
  let answer status msg code :=
    Some {| response := Provider (APIError status msg code);
            server := s; calls := []; rest := tape (base w) |} in
  let invalidPath := answer StatusNotFound "invalid path" "INVALID_PATH" in
  let notAllowed :=
    answer StatusMethodNotAllowed "method not allowed" "METHOD_NOT_ALLOWED" in
  let trimmed := strings.TrimPrefix (Path r) "/rgs/providers/" in
  let parts := strings.Split (strings.Trim trimmed "/") "/" in
  match parts with
  | providerID :: parts1 :: gameID :: parts3 :: more =>
      if negb (String.eqb parts1 "games") then invalidPath
      else if negb (games.HasGame (registry s) providerID gameID) then
        answer StatusNotFound "game not found" "GAME_NOT_FOUND"
      else
      match more with
      | [] =>
          if String.eqb parts3 "launch" then
            if negb (String.eqb (Method r) MethodPost) then notAllowed
            else Some (handleLaunch s (asLaunchRequest r) providerID gameID w)
          else if String.eqb parts3 "math" then
            if negb (String.eqb (Method r) MethodPost) then notAllowed
            else Some (handleRegisterGameMath s (asGameMath r) gameID w)
          else invalidPath
      | [parts4] =>
          if String.eqb parts3 "round" then
            if String.eqb parts4 "start" then
              if negb (String.eqb (Method r) MethodPost) then notAllowed
              else if String.eqb gameID "crash" then
                decoded s w (asCrashRoundStartRequest r)
                  (fun req => Some (handleCrashRoundStart (core s) req providerID (base w)))
              else
                decoded s w (asScratchRoundStartRequest r)
                  (fun req => handleScratchRoundStart (core s) req providerID gameID (base w))
            else if String.eqb parts4 "cashout" then
              if negb (String.eqb (Method r) MethodPost) then notAllowed
              else if String.eqb gameID "crash" then
                decoded s w (asCrashCashoutRequest r)
                  (fun req => Some (handleCrashCashout (core s) req providerID (base w)))
              else invalidPath
            else if String.eqb parts4 "status" then
              if negb (String.eqb (Method r) MethodGet) then notAllowed
              else if String.eqb gameID "crash" then
                Some (lift s (handleCrashStatus (core s) (query_roundId r) (query_token r)
                                (base w)))
              else invalidPath
            else invalidPath
          else invalidPath
      | _ => invalidPath
      end
  | _ => invalidPath
  end.

(** *** Models from game bundles *)

(** One entry of [prizeTable] in the [math.json] of the lucky_star
    bundle. *)
Module bundlePrize.
Record t : Type := {
  ID : string;
  Value : float;
  Probability : float;
  IsWin : bool
}.
End bundlePrize.

Definition luckyStarModelID : string := "lucky_star".

(** The first loop of [loadLuckyStarMath]: the winning entries of
    positive probability, with [weight := int64(p.Probability * 1e9)],
    at least 1. *)
Definition winTiers (indefinite : float -> Z) (table : list bundlePrize.t)
  : list gamemath.PrizeTier :=
  omap (fun p =>
          if (bundlePrize.Probability p <=? 0)%float || negb (bundlePrize.IsWin p)
          then None
          else
            let weight :=
              int64_of_float indefinite (bundlePrize.Probability p * 1e9)%float in
            let weight := if weight <? 1 then 1 else weight in
            Some {| gamemath.Tier := bundlePrize.ID p;
                    gamemath.Multiplier := bundlePrize.Value p;
                    gamemath.Weight := weight |})
       table.

(** [totalWinWeight += t.Weight] *)
Definition totalWinWeight (tiers : list gamemath.PrizeTier) : Z :=
  foldl (fun total t => add64 total (gamemath.Weight t)) 0 tiers.

(** The tiers with the injected LOSE tier:
    [loseWeight := totalWinWeight * 70 / 30]. *)
Definition withLoseTier (tiers : list gamemath.PrizeTier) : list gamemath.PrizeTier :=
  let total := totalWinWeight tiers in
  if 0 <? total then
    let loseWeight := Z.quot (mul64 total 70) 30 in
    tiers ++ [{| gamemath.Tier := "LOSE"; gamemath.Multiplier := 0%float;
                 gamemath.Weight := loseWeight |}]
  else tiers.

(** The model that [loadLuckyStarMath] registers; [None] when it
    registers nothing.  [bundle] is the decoded [math.json], [None] when
    the file is missing or does not parse. *)
Definition luckyStarMath (indefinite : float -> Z) (bundle : option (list bundlePrize.t))
  : option gamemath.GameMath :=
  match bundle with
  | None | Some [] => None
  | Some table =>
      match winTiers indefinite table with
      | [] => None
      | tiers =>
          Some {| gamemath.SchemaVersion := 1;
                  gamemath.ModelID := luckyStarModelID;
                  gamemath.ModelVersion := "1.0";
                  gamemath.Mechanic_ :=
                    {| gamemath.Type_ := "match_3"; gamemath.MatchCount := 3 |};
                  gamemath.MathMode := "UNLIMITED";
                  gamemath.WinLogic := "SINGLE_WIN";
                  gamemath.PrizeTable := withLoseTier tiers;
                  gamemath.Stats := None;
                  gamemath.Integrity_ := None |}
      end
  end.

(** [loadLuckyStarMath] on the registry of models. *)
Definition loadLuckyStarMath (indefinite : float -> Z) (store : gamemath.Store)
    (bundle : option (list bundlePrize.t)) (w : fs.WriteResult) : gamemath.Store :=
  match luckyStarMath indefinite bundle with
  | None => store
  | Some math => (gamemath.Register store (Some math) w).1
  end.

(** [rgsBundlePrizeTier] *)
Module rgsBundlePrizeTier.
Record t : Type := {
  Tier : string;
  Multiplier : float;
  Weight : float;
  Probability : float
}.
End rgsBundlePrizeTier.

(** [rgsMathFile], with the fields that [registerBundleMath] reads. *)
Module rgsMathFile.
Record t : Type := {
  SchemaVersion : Z;
  ModelID : string;
  ModelVersion : string;
  Mechanic_Type : string;
  Mechanic_MatchCount : Z;
  MathMode : string;
  WinLogic : string;
  PrizeTable : list rgsBundlePrizeTier.t;
  Stats : option gamemath.GameStats;
  Integrity : option gamemath.Integrity
}.
End rgsMathFile.

(** The weight given to a tier of the bundle:
    [w := int64(p.Weight)], then the probability scaled by 1e9 when the
    weight is not positive, then 1. *)
Definition tierWeight (indefinite : float -> Z) (p : rgsBundlePrizeTier.t) : Z :=
  let w := int64_of_float indefinite (rgsBundlePrizeTier.Weight p) in
  let w :=
    if (w <=? 0) && (0 <? rgsBundlePrizeTier.Probability p)%float
    then int64_of_float indefinite (rgsBundlePrizeTier.Probability p * 1e9)%float
    else w in
  if w <=? 0 then 1 else w.

Definition bundleTier (indefinite : float -> Z) (p : rgsBundlePrizeTier.t)
  : gamemath.PrizeTier :=
  {| gamemath.Tier := rgsBundlePrizeTier.Tier p;
     gamemath.Multiplier := rgsBundlePrizeTier.Multiplier p;
     gamemath.Weight := tierWeight indefinite p |}.

(** The model that [registerBundleMath] builds for [gameID]. *)
Definition bundleMath (indefinite : float -> Z) (gameID : string) (raw : rgsMathFile.t)
  : gamemath.GameMath :=
  {| gamemath.SchemaVersion := rgsMathFile.SchemaVersion raw;
     gamemath.ModelID := gameID;
     gamemath.ModelVersion := rgsMathFile.ModelVersion raw;
     gamemath.Mechanic_ :=
       {| gamemath.Type_ := rgsMathFile.Mechanic_Type raw;
          gamemath.MatchCount := rgsMathFile.Mechanic_MatchCount raw |};
     gamemath.MathMode := rgsMathFile.MathMode raw;
     gamemath.WinLogic := rgsMathFile.WinLogic raw;
     gamemath.PrizeTable := bundleTier indefinite <$> rgsMathFile.PrizeTable raw;
     gamemath.Stats := rgsMathFile.Stats raw;
     gamemath.Integrity_ := rgsMathFile.Integrity raw |}.

(** [registerBundleMath] on the registry of models; [raw] is the decoded
    [math.json] of the bundle, [None] when the file is missing or does not
    parse.  The boolean is [err == nil]. *)
Definition registerBundleMath (indefinite : float -> Z) (store : gamemath.Store)
    (gameID : string) (raw : option rgsMathFile.t) (w : fs.WriteResult)
  : gamemath.Store * bool :=
  match raw with
  | None => (store, false)
  | Some raw =>
      match rgsMathFile.PrizeTable raw with
      | [] => (store, false)
      | _ :: _ => gamemath.Register store (Some (bundleMath indefinite gameID raw)) w
      end
  end.

End httpserver.

(* ===================================================================== *)
(** ** package server: requests in sequence *)

Module mux.

Import server httpserver.

(** A request to one of the routes whose handlers write the ledger of
    results or a store of rounds: the provider routes
    ([/rgs/providers/...]) and the two routes of Hi/Lo
    ([/rgs/round/start], [/rgs/round/end]), with the method and the body as
    decoded. *)
Inductive Incoming : Type :=
| ToProvider (r : Request)
| ToRoundStart (method : string) (body : option roundStartRequest.t)
| ToRoundEnd (method : string) (body : option roundEndRequest.t).

Definition handle (s : Server) (q : Incoming) (w : World) : option Reply :=
  match q with
  | ToProvider r => handleProviderRoute s r w
  | ToRoundStart method body => Some (roundStart s method body w)
  | ToRoundEnd method body => Some (roundEnd s method body w)
  end.

(** Requests handled one after the other, each in its own world; [None]
    when one of them is never answered. *)
Fixpoint handleAll (s : Server) (qs : list (Incoming * World)) : option Server :=
  match qs with
  | [] => Some s
  | (q, w) :: qs' =>
      match handle s q w with
      | Some reply => handleAll (httpserver.server reply) qs'
      | None => None
      end
  end.

(** The request is handled in a world where the write of the ledger does
    not tear the file. *)
Definition tearsNothing (qw : Incoming * World) : Prop :=
  disk (base qw.2) <> fs.WriteTorn.

(** The request does not end a round of Hi/Lo under [roundID]. *)
Definition sparesRound (roundID : string) (qw : Incoming * World) : Prop :=
  match qw.1 with
  | ToRoundEnd _ (Some req) => roundEndRequest.RoundID req <> roundID
  | _ => True
  end.

End mux.

(** ** Notions used by the statements on Hi/Lo *)

Module hilorules.

Import server httpserver.

(** A request that passes the checks of [roundEnd]. *)
Definition wellFormed (req : roundEndRequest.t) : Prop :=
  roundEndRequest.Token req <> "" /\ roundEndRequest.RoundID req <> ""
  /\ (roundEndRequest.Choice req = "higher" \/ roundEndRequest.Choice req = "lower").

(** The rule of the game: the next number against the current one. *)
Definition outcome (choice : string) (current next : Z) : string :=
  if next =? current then "push"
  else if String.eqb choice "higher" then (if current <? next then "win" else "lose")
  else if String.eqb choice "lower" then (if next <? current then "win" else "lose")
  else "lose".

(** What the player gets back beside the stake that the bet took. *)
Definition delta (outcome : string) (amount : float) : float :=
  if String.eqb outcome "push" then 0%float
  else if String.eqb outcome "win" then amount
  else (- amount)%float.

(** The wallet call that goes with an outcome. *)
Definition walletCalls (outcome token : string) (rnd : hilo.Round) : list Call :=
  if String.eqb outcome "push" then [Wallet (Rollback token (hilo.BetID rnd))]
  else if String.eqb outcome "win"
  then [Wallet (Win token (hilo.Currency rnd) (hilo.Amount rnd) "")]
  else [].

End hilorules.

(** ** Notions used by the statements on the provider routes *)

Module routes.

Import server httpserver.

(** The byte [c] occurs in [s]. *)
Fixpoint hasByte (c : ascii) (s : string) : bool :=
  match s with
  | EmptyString => false
  | String d s' => Ascii.eqb d c || hasByte c s'
  end.

(** A path segment: not empty, without a slash. *)
Definition segment (s : string) : Prop :=
  s <> "" /\ hasByte "/" s = false.

(** The path of an action of a game of a provider. *)
Definition providerPath (providerID gameID action : string) : string :=
  "/rgs/providers/" +:+ providerID +:+ "/games/" +:+ gameID +:+ "/" +:+ action.

(** The provider and the game that a path names. *)
Definition target (path : string) : option (string * string) :=
  match strings.Split (strings.Trim (strings.TrimPrefix path "/rgs/providers/") "/") "/" with
  | providerID :: _ :: gameID :: _ :: _ => Some (providerID, gameID)
  | _ => None
  end.

(** A reply that is an error of the router or of a check, after which
    nothing has happened. *)
Definition refused (s : Server) (w : World) (reply : Reply) : Prop :=
  server reply = s /\ calls reply = [] /\ rest reply = tape (base w)
  /\ exists status msg code, response reply = Provider (APIError status msg code).

(** The loop of [handleImportZip] over the providers of the registry:
    [if !found { s.registry.Register(providerID, append(games, gameID)) }]. *)
Definition registerImported (r : gmap string games.Provider) (gameID : string)
  : gmap string games.Provider :=
  foldl (fun r providerID =>
           match games.ListGames r providerID with
           | Some games =>
               if existsb (fun g => String.eqb g gameID) games then r
               else games.Register r providerID (games ++ [gameID])
           | None =>
               games.Register r providerID [gameID]
           end)
        r (games.ListProviders r).

(** What the step of that loop makes of the entry of a provider. *)
Definition imported (gameID providerID : string) (o : option games.Provider)
  : option games.Provider :=
  match o with
  | Some prov =>
      if existsb (fun g => String.eqb g gameID) (games.Games prov) then Some prov
      else Some {| games.ID := providerID;
                   games.Games := games.Games prov ++ [gameID] |}
  | None => Some {| games.ID := providerID; games.Games := [gameID] |}
  end.

End routes.

(** ** Notions used by the statements on the stores *)

Module stores.

(** No model of the registry sits under the empty id, as [Register] and
    [load] see to. *)
Definition named (s : gamemath.Store) : Prop :=
  forall k m, gamemath.math s !! k = Some m -> k <> "".

(** The multiplier grows from every step below [last] to the next one. *)
Definition increasing (last : nat) : bool :=
  forallb (fun i =>
             (crash.Multiplier (Z.of_nat i) <? crash.Multiplier (Z.of_nat (S i)))%float)
          (seq 0 last).

End stores.

(* ===================================================================== *)
(** ** package operator: the signed query *)

Module operator.

Section Client.

(** [hex.EncodeToString] of the HMAC-SHA256 of a message under a key, and
    [strconv.FormatFloat(v, 'f', -1, 64)]. *)
Variable hmacSHA256 : string -> string -> string.
Variable FormatFloat : float -> string.

(** [url.Values] is a [gmap string string] here: one value for each key,
    as [Set] leaves them. *)

(** [v.Get(k)] *)
Definition Get (v : gmap string string) (k : string) : string := default "" (v !! k).

(** [sort.Strings] *)
Definition sortStrings (keys : list string) : list string :=
  merge_sort String.le keys.

Fixpoint concat (l : list string) : string :=
  match l with
  | [] => ""
  | x :: l' => x +:+ concat l'
  end.

(** [Client.sign]: the values of all keys but [action], in the order of
    the keys, one after the other. *)
Definition sign (secret : string) (v : gmap string string) : string :=
  let keys := filter (fun k => k <> "action") (map_to_list v).*1 in
  let keys := sortStrings keys in
  let buf := concat (Get v <$> keys) in
  hmacSHA256 secret buf.

(** [Client.call], up to the query that it sends:
    the parameters that are not empty, and the signature when the client
    has a secret. *)
Definition query (secret : string) (params : gmap string string)
  : gmap string string :=
  let values := filter (fun kv => kv.2 <> "") params in
  if String.eqb secret "" then values
  else <["signature" := sign secret values]> values.

Definition formatAmount (v : float) : string := FormatFloat v.

(** The query of [Client.Refund]. *)
Definition Refund (secret playerID sessionID roundID txID gameCode deviceType
    apiVersion : string) (refundAmount : float) : gmap string string :=
  query secret
    (list_to_map
       [("action", "refund"); ("player_id", playerID); ("session_id", sessionID);
        ("round_id", roundID); ("tx_id", txID);
        ("refund_amount", formatAmount refundAmount); ("game_code", gameCode);
        ("device_type", deviceType); ("api_version", apiVersion)]).

(** The query of [Client.ReverseRefund]. *)
Definition ReverseRefund (secret playerID sessionID roundID txID gameCode deviceType
    apiVersion : string) (refundAmount : float) : gmap string string :=
  query secret
    (list_to_map
       [("action", "reverse_refund"); ("player_id", playerID);
        ("session_id", sessionID); ("round_id", roundID); ("tx_id", txID);
        ("refund_amount", formatAmount refundAmount); ("game_code", gameCode);
        ("device_type", deviceType); ("api_version", apiVersion)]).

End Client.

End operator.

(* ===================================================================== *)
(** ** package path/filepath, with the slash as separator *)

Module filepath.

(** One element of the path against the elements kept so far, the last
    one first: an empty element and [.] are dropped; [..] removes the
    element before it, stays when there is none to remove in a path that
    is not rooted, and is dropped at the root. *)
Definition step (rooted : bool) (kept : list string) (elem : string) : list string :=
  if String.eqb elem "" || String.eqb elem "." then kept
  else if String.eqb elem ".." then
    match kept with
    | last :: before => if String.eqb last ".." then elem :: kept else before
    | [] => if rooted then [] else [elem]
    end
  else elem :: kept.

(** The elements with a slash between them. *)
Fixpoint join (elems : list string) : string :=
  match elems with
  | [] => ""
  | [x] => x
  | x :: rest => x +:+ String "/" (join rest)
  end.

(** [filepath.Clean]: the shortest path that names the same file by
    lexical processing alone. *)
Definition Clean (path : string) : string :=
  match path with
  | EmptyString => "."
  | String c _ =>
      let rooted := Ascii.eqb c "/" in
      let out := join (rev (foldl (step rooted) [] (strings.Split path "/"))) in
      if rooted then String "/" out
      else if String.eqb out "" then "." else out
  end.

(** [filepath.Join] of two elements that are not empty. *)
Definition Join (dir name : string) : string := Clean (dir +:+ String "/" name).

End filepath.

(* ===================================================================== *)
(** ** package server: the paths of an imported bundle *)

Module bundlepath.

(** [sanitizeBundlePath] of [handlers_import.go]. *)
Definition sanitizeBundlePath (name : string) : string :=
  let clean := filepath.Clean (strings.TrimLeft name "./\") in
  if String.eqb clean "" || String.eqb clean "." then ""
  else if strings.HasPrefix clean ".." || strings.Contains clean "../"
          || strings.Contains clean "..\"
  then ""
  else clean.

(** [sanitizeZipPath] of the importer command. *)
Definition sanitizeZipPath (name : string) : string :=
  let clean := filepath.Clean (strings.TrimLeft name "./\") in
  if strings.HasPrefix clean ".." then "" else clean.

(** A path element that names a file or a directory below the current
    one. *)
Definition plain (elem : string) : Prop :=
  elem <> "" /\ elem <> "." /\ elem <> ".." /\ routes.hasByte "/" elem = false.

(** Kept elements of a path that is not rooted: plain elements on top
    of leading [..] elements. *)
Definition climbing (kept : list string) : Prop :=
  exists plains dotdots,
    kept = plains ++ dotdots /\ Forall plain plains /\ Forall (fun e => e = "..") dotdots.

End bundlepath.

(* ===================================================================== *)
(** ** Notions used by the statements *)

(** The three symbols are all equal. *)
Definition fullMatch (s : scratch.Symbols3) : Prop := s.1.1 = s.1.2 /\ s.1.2 = s.2.

(** The recorded result that a scratch response shows. *)
Definition shows (resp : server.ScratchRoundStartResponse.t) (rec : round.Result.t) : Prop :=
  server.ScratchRoundStartResponse.RoundID resp = round.Result.RoundID rec
  /\ server.ScratchRoundStartResponse.Symbols resp = server.firstThree (round.Result.Symbols rec)
  /\ server.ScratchRoundStartResponse.WinAmount resp = round.Result.WinAmount rec
  /\ server.ScratchRoundStartResponse.BalanceDelta resp = round.Result.BalanceDelta rec.


(* ===================================================================== *)
(** ** Fixtures of the examples *)

Module fixtures.

Import gamemath.

(** A model for the examples: the table of [TestPickTier_Distribution]. *)
Definition model (tbl : list PrizeTier) : GameMath :=
  {| SchemaVersion := 1; ModelID := "scratch_match3"; ModelVersion := "1.0.0";
     Mechanic_ := {| Type_ := "match_3"; MatchCount := 3 |};
     MathMode := "UNLIMITED"; WinLogic := "SINGLE_WIN";
     PrizeTable := tbl; Stats := None; Integrity_ := None |}.

Definition tier (name : string) (m : float) (w : Z) : PrizeTier :=
  {| Tier := name; Multiplier := m; Weight := w |}.

Definition distribution : GameMath :=
  model [tier "LOSE" 0 70; tier "T1" 2 20; tier "T2" 5 10].

(** A losing draw: tier LOSE of the 70/20/10 table, then three cherries
    and one re-draw. *)
Definition losingTape : csprng.Tape :=
  [csprng.RandOk 69; csprng.RandOk 0; csprng.RandOk 0; csprng.RandOk 0;
   csprng.RandOk 1].

Definition winningTape : csprng.Tape := [csprng.RandOk 70; csprng.RandOk 3].


Definition threeStars : csprng.Tape :=
  [csprng.RandOk 2; csprng.RandOk 2; csprng.RandOk 2].

Definition threeDifferent : csprng.Tape :=
  [csprng.RandOk 0; csprng.RandOk 1; csprng.RandOk 2].

Definition emptyServer : server.Server :=
  {| server.operator := false;
     server.results := None;
     server.crashStore := {| round.rounds := ∅; round.file := None |};
     server.gameMath := {| gamemath.math := ∅; gamemath.file := None |} |}.

(** The server after [Register] of a model. *)
Definition withModel (s : server.Server) (m : GameMath) : server.Server :=
  {| server.operator := server.operator s;
     server.results := server.results s;
     server.crashStore := server.crashStore s;
     server.gameMath := (Register (server.gameMath s) (Some m) fs.WriteOk).1 |}.

Definition scratchRequest (sessionID : string) (bet : float) (roundID : string)
  : server.ScratchRoundStartRequest.t :=
  {| server.ScratchRoundStartRequest.SessionID := sessionID;
     server.ScratchRoundStartRequest.BetAmount := bet;
     server.ScratchRoundStartRequest.RoundID := roundID;
     server.ScratchRoundStartRequest.GameCode := "";
     server.ScratchRoundStartRequest.DeviceType := "";
     server.ScratchRoundStartRequest.Currency := "";
     server.ScratchRoundStartRequest.Token := "";
     server.ScratchRoundStartRequest.Amount := 0;
     server.ScratchRoundStartRequest.RoundId := "";
     server.ScratchRoundStartRequest.query_session_id := "" |}.

(** A world whose wallet accepts every call. *)
Definition world (t : csprng.Tape) (at_ : Z) (d : fs.WriteResult) : server.World :=
  {| server.tape := t; server.uuid := "6f1c2d3e"; server.now := at_;
     server.disk := d;
     server.session := server.SessionNotFound;
     server.debit := server.OperatorErr "";
     server.credit := server.OperatorErr "";
     server.bet := server.BetOk "bet-1";
     server.win := server.WinOk |}.

Definition scratchAnswer (roundID : string) (s : scratch.Symbols3)
    (winAmount balanceDelta : float) (tier : string) : server.Response :=
  server.ScratchRoundStart
    {| server.ScratchRoundStartResponse.RoundID := roundID;
       server.ScratchRoundStartResponse.Symbols := s;
       server.ScratchRoundStartResponse.WinAmount := winAmount;
       server.ScratchRoundStartResponse.BalanceDelta := balanceDelta;
       server.ScratchRoundStartResponse.Tier := tier;
       server.ScratchRoundStartResponse.Error := "" |}.

(** The first settlement of round r-1, at stake 10 on the 70/20/10
    table, and the server it leaves. *)
Definition recordedLoss : round.Result.t :=
  {| round.Result.RoundID := "r-1";
     round.Result.BetID := "";
     round.Result.Outcome := "lose";
     round.Result.NextNumber := 0;
     round.Result.BalanceDelta := (-10)%float;
     round.Result.SettledAt := 1700000000000000000;
     round.Result.Symbols := ["cherry"; "cherry"; "lemon"];
     round.Result.WinAmount := 0%float |}.

Definition settledServer : server.Server :=
  server.withResults (withModel emptyServer distribution) (Some [recordedLoss]).

(** Requests that follow the settlement of r-1: round r-2 is settled, a
    crash round is started, its file write refused, and queried. *)
Definition inBetween : list (server.Request * server.World) :=
  [(server.ScratchStart (scratchRequest "tok" 10 "r-2") "provider" "scratch_match3",
    world winningTape 1700000001000000000 fs.WriteOk);
   (server.CrashStart
      {| server.CrashRoundStartRequest.Token := "tok";
         server.CrashRoundStartRequest.Currency := "";
         server.CrashRoundStartRequest.Amount := 10;
         server.CrashRoundStartRequest.RoundID := "c-1" |} "provider",
    world [csprng.RandOk 40] 1700000002000000000 fs.WriteRefused);
   (server.Status "c-1" "tok", world [] 1700000003000000000 fs.WriteOk)].

Definition laterServer : server.Server :=
  default settledServer (server.serveAll settledServer inBetween).

(** An open crash round: stake 10, crash step 50, started at instant 0. *)
Definition openRound : round.CrashRound.t :=
  {| round.CrashRound.RoundID := "c-1";
     round.CrashRound.BetID := "bet-1";
     round.CrashRound.Currency := "USD";
     round.CrashRound.Amount := 10%float;
     round.CrashRound.CrashStep := 50;
     round.CrashRound.StartedAt := 0;
     round.CrashRound.Settled := false |}.

Definition crashServer (r : round.CrashRound.t) : server.Server :=
  server.withCrashStore emptyServer
    {| round.rounds := {[ round.CrashRound.RoundID r := r ]};
       round.file := Some [r] |}.

Definition cashoutRequest (token roundID : string) (step : Z)
  : server.CrashCashoutRequest.t :=
  {| server.CrashCashoutRequest.Token := token;
     server.CrashCashoutRequest.RoundID := roundID;
     server.CrashCashoutRequest.Step := step |}.

Definition startRequest (token roundID : string) (amount : float)
  : server.CrashRoundStartRequest.t :=
  {| server.CrashRoundStartRequest.Token := token;
     server.CrashRoundStartRequest.Currency := "";
     server.CrashRoundStartRequest.Amount := amount;
     server.CrashRoundStartRequest.RoundID := roundID |}.

(** A world whose wallet refuses the payout. *)
Definition refusingWorld (at_ : Z) : server.World :=
  {| server.tape := []; server.uuid := "6f1c2d3e"; server.now := at_;
     server.disk := fs.WriteOk;
     server.session := server.SessionNotFound;
     server.debit := server.OperatorErr "";
     server.credit := server.OperatorErr "";
     server.bet := server.BetOk "bet-1";
     server.win := server.WinErr 500 "platform: down" |}.

(** 3 seconds, 4.9 seconds and 5.5 seconds, in nanoseconds. *)
Definition atStep30 : Z := 3000000000.
Definition atStep49 : Z := 4900000000.
Definition atStep55 : Z := 5500000000.

Definition cashoutAnswer (roundID : string) (cashedOut : bool)
    (winAmount balanceDelta : float) (crashed : bool) (crashStep : Z)
  : server.Response :=
  server.CrashCashout
    {| server.CrashCashoutResponse.RoundID := roundID;
       server.CrashCashoutResponse.CashedOut := cashedOut;
       server.CrashCashoutResponse.WinAmount := winAmount;
       server.CrashCashoutResponse.BalanceDelta := balanceDelta;
       server.CrashCashoutResponse.Crashed := crashed;
       server.CrashCashoutResponse.CrashStep := crashStep |}.

End fixtures.

(* ===================================================================== *)
(** ** Fixtures of the examples on the whole server *)

Module site.

Import httpserver.

(** A round of Hi/Lo: stake 10 on the number 5. *)
Definition openRound : hilo.Round :=
  {| hilo.RoundID := "h-1"; hilo.BetID := "bet-1"; hilo.Currency := "USD";
     hilo.Amount := 10%float; hilo.CurrentNumber := 5; hilo.CreatedAt := 0 |}.

Definition rounds : hilo.Store :=
  {| hilo.rounds := {[ "h-1" := openRound ]}; hilo.file := Some [openRound] |}.

(** The provider acme with a scratch game and the crash game. *)
Definition catalogue : games.Registry :=
  games.Register ∅ "acme" ["scratch_match3"; "crash"].

(** A server with that round and that provider, configured from an empty
    environment. *)
Definition server : Server :=
  {| core := fixtures.crashServer fixtures.openRound;
     cfg := config.Load (fun _ => "");
     store := rounds;
     registry := catalogue |}.

(** A world whose wallet accepts every call and whose writes go through. *)
Definition world (t : csprng.Tape) (at_ : Z) : World :=
  {| base := fixtures.world t at_ fs.WriteOk;
     rollback := server.WinOk;
     balance := BalanceOk;
     cleanup := fs.WriteOk;
     diskError := "" |}.

Definition endRequest (choice : string) : roundEndRequest.t :=
  {| roundEndRequest.Token := "tok"; roundEndRequest.RoundID := "h-1";
     roundEndRequest.Choice := choice |}.

(** A request with no body that decodes. *)
Definition request (method path : string) : Request :=
  {| Method := method; Path := path;
     asLaunchRequest := None; asGameMath := None;
     asScratchRoundStartRequest := None; asCrashRoundStartRequest := None;
     asCrashCashoutRequest := None;
     query_roundId := "c-1"; query_token := "tok" |}.

(** The [math.json] of a bundle: a weight, a probability, and neither. *)
Definition bundle : rgsMathFile.t :=
  {| rgsMathFile.SchemaVersion := 1; rgsMathFile.ModelID := "from_the_file";
     rgsMathFile.ModelVersion := "1.0";
     rgsMathFile.Mechanic_Type := "match_3"; rgsMathFile.Mechanic_MatchCount := 3;
     rgsMathFile.MathMode := "UNLIMITED"; rgsMathFile.WinLogic := "SINGLE_WIN";
     rgsMathFile.PrizeTable :=
       [{| rgsBundlePrizeTier.Tier := "LOSE"; rgsBundlePrizeTier.Multiplier := 0%float;
           rgsBundlePrizeTier.Weight := 70.5%float;
           rgsBundlePrizeTier.Probability := 0%float |};
        {| rgsBundlePrizeTier.Tier := "T1"; rgsBundlePrizeTier.Multiplier := 2%float;
           rgsBundlePrizeTier.Weight := 0%float;
           rgsBundlePrizeTier.Probability := 0.25%float |};
        {| rgsBundlePrizeTier.Tier := "T2"; rgsBundlePrizeTier.Multiplier := 5%float;
           rgsBundlePrizeTier.Weight := (-3)%float;
           rgsBundlePrizeTier.Probability := 0%float |}];
     rgsMathFile.Stats := None; rgsMathFile.Integrity := None |}.

(** The prize table of a lucky_star bundle: two prizes and a blank. *)
Definition luckyStar : list bundlePrize.t :=
  [{| bundlePrize.ID := "prize_a"; bundlePrize.Value := 2%float;
      bundlePrize.Probability := 0.2%float; bundlePrize.IsWin := true |};
   {| bundlePrize.ID := "blank"; bundlePrize.Value := 0%float;
      bundlePrize.Probability := 0.7%float; bundlePrize.IsWin := false |};
   {| bundlePrize.ID := "prize_b"; bundlePrize.Value := 10%float;
      bundlePrize.Probability := 0.1%float; bundlePrize.IsWin := true |}].

(** A platform on which [int64] of a number out of range is the least
    integer. *)
Definition indefinite (x : float) : Z := - 2 ^ 63.

(** A stand-in for the keyed hash, and for the decimal form of an
    amount. *)
Definition keyed (secret message : string) : string := secret +:+ ":" +:+ message.
Definition decimal (v : float) : string := "10".

End site.

(* ===================================================================== *)
(** ** Fixtures of the examples on requests in sequence *)

Module sequel.

Import httpserver.

(** The whole server after the first settlement of the scratch round
    r-1, with no round of Hi/Lo. *)
Definition settled : Server :=
  {| core := fixtures.settledServer;
     cfg := config.Load (fun _ => "");
     store := {| hilo.rounds := ∅; hilo.file := None |};
     registry := site.catalogue |}.

Definition hiloStart (roundID : string) : mux.Incoming :=
  mux.ToRoundStart MethodPost
    (Some {| roundStartRequest.Token := "tok"; roundStartRequest.Currency := "";
             roundStartRequest.Amount := 5%float;
             roundStartRequest.RoundID := roundID |}).

Definition hiloEnd (roundID : string) : mux.Incoming :=
  mux.ToRoundEnd MethodPost
    (Some {| roundEndRequest.Token := "tok"; roundEndRequest.RoundID := roundID;
             roundEndRequest.Choice := "higher" |}).

(** A scratch round asked of the provider acme. *)
Definition scratchStart (roundID : string) : mux.Incoming :=
  mux.ToProvider
    {| Method := MethodPost;
       Path := routes.providerPath "acme" "scratch_match3" "round/start";
       asLaunchRequest := None; asGameMath := None;
       asScratchRoundStartRequest := Some (fixtures.scratchRequest "tok" 10 roundID);
       asCrashRoundStartRequest := None; asCrashCashoutRequest := None;
       query_roundId := ""; query_token := "" |}.

(** A round of Hi/Lo under [roundID], started on the number 4 and ended
    with the number 8, and a scratch round r-3 after it. *)
Definition requests (roundID : string) : list (mux.Incoming * World) :=
  [(hiloStart roundID, site.world [csprng.RandOk 3] 1700000001000000000);
   (hiloEnd roundID, site.world [csprng.RandOk 7] 1700000002000000000);
   (scratchStart "r-3", site.world fixtures.losingTape 1700000003000000000)].

(** The server after a round of Hi/Lo under another id, and after a
    round of Hi/Lo under the id of the scratch round. *)
Definition apart : Server := default settled (mux.handleAll settled (requests "r-2")).
Definition shared : Server := default settled (mux.handleAll settled (requests "r-1")).

(** A scratch round r-3 whose write of the ledger tears the file, and the
    server after it. *)
Definition tearing : list (mux.Incoming * World) :=
  [(scratchStart "r-3",
    {| base := fixtures.world fixtures.losingTape 1700000003000000000 fs.WriteTorn;
       rollback := server.WinOk; balance := BalanceOk;
       cleanup := fs.WriteOk; diskError := "" |})].

Definition torn : Server := default settled (mux.handleAll settled tearing).

End sequel.

(* ===================================================================== *)
(** * Properties *)

(** ** Machine integers *)

Lemma wrap64_id z : int64_range z -> wrap64 z = z.
Proof.
  unfold int64_range, wrap64. intros H.
  rewrite Z.mod_small; lia.
Qed.

Lemma wrap64_range z : int64_range (wrap64 z).
Proof.
  unfold int64_range, wrap64.
  pose proof (Z.mod_pos_bound (z + 2 ^ 63) (2 ^ 64)). lia.
Qed.

(** ** The random reader *)

Lemma csprng_Int_None max tape :
  (csprng.Int max tape).1 = None <-> max <> 1 /\ csprng.fails tape = true.
Proof.
  unfold csprng.Int. destruct (Z.eqb_spec max 1) as [->|Hne].
  - simpl. split; [discriminate | intros [H _]; now contradict H].
  - destruct tape as [|[v|] tape]; simpl; split; try tauto; try congruence;
      intros [_ H]; discriminate H.
Qed.

Lemma csprng_Int_Some max tape idx tape' :
  0 < max -> csprng.Int max tape = (Some idx, tape') ->
  0 <= idx < max
  /\ (max = 1 /\ tape' = tape
      \/ max <> 1 /\ csprng.fails tape = false /\ exists d, tape = d :: tape').
Proof.
  intros Hmax H. unfold csprng.Int in H. destruct (Z.eqb_spec max 1) as [->|Hne].
  - inversion H; subst. split; [lia | now left].
  - destruct tape as [|[v|] tape]; simpl in H; try discriminate.
    inversion H; subst. split; [apply Z.mod_pos_bound; lia|]. right. eauto.
Qed.

(** On a tape whose next read succeeds, [rand.Int] succeeds. *)
Lemma csprng_Int_works max tape :
  csprng.fails tape = false -> exists idx tape', csprng.Int max tape = (Some idx, tape').
Proof.
  intros H. unfold csprng.Int. destruct (max =? 1); [eauto|].
  destruct tape as [|[v|] tape]; try discriminate; simpl; eauto.
Qed.

(** ** gamemath: the weighted draw *)

Section PickTier.

Import gamemath fixtures.

(** The walk stops at a tier of positive weight whenever the drawn index
    lies between the weight accumulated so far and the final total. *)
Lemma walk_finds idx tbl : forall cum,
  cum <= idx -> idx < sumWeights cum tbl ->
  exists t, walk idx cum tbl = Some t /\ In t tbl /\ 0 < Weight t.
Proof.
  induction tbl as [|t tbl IH]; simpl; intros cum Hlo Hhi; [lia|].
  destruct (Weight t <=? 0) eqn:Hw.
  - destruct (IH cum Hlo Hhi) as (t' & ? & ? & ?). eauto.
  - apply Z.leb_gt in Hw.
    destruct (idx <? add64 cum (Weight t)) eqn:Hlt.
    + eauto.
    + apply Z.ltb_ge in Hlt.
      destruct (IH _ Hlt Hhi) as (t' & ? & ? & ?). eauto.
Qed.

Lemma walk_Some idx tbl : forall cum t,
  walk idx cum tbl = Some t -> In t tbl /\ 0 < Weight t.
Proof.
  induction tbl as [|t0 tbl IH]; simpl; intros cum t H; [discriminate|].
  destruct (Weight t0 <=? 0) eqn:Hw.
  - apply IH in H. tauto.
  - apply Z.leb_gt in Hw.
    destruct (idx <? add64 cum (Weight t0)).
    + inversion H; subst. auto.
    + apply IH in H. tauto.
Qed.

(** Without overflow the running total is the sum of the positive
    weights. *)
Lemma sumWeights_exact tbl : forall total,
  0 <= total -> total + exactWeight tbl < 2 ^ 63 ->
  sumWeights total tbl = total + exactWeight tbl.
Proof.
  induction tbl as [|t tbl IH]; simpl; intros total H0 Hb; [lia|].
  destruct (Weight t <=? 0) eqn:Hw.
  - apply IH; lia.
  - apply Z.leb_gt in Hw.
    assert (Hpos : 0 <= exactWeight tbl).
    { clear. induction tbl as [|t' tbl IH']; simpl; [lia|].
      destruct (Weight t' <=? 0) eqn:E; [lia|]. apply Z.leb_gt in E. lia. }
    unfold add64. rewrite wrap64_id by (unfold int64_range; lia).
    rewrite IH; lia.
Qed.

(** On a failing reader the draw is refused for a model that is neither
    nil nor empty and has total weight 100: [ok = false] does not single
    out the three cases of C8 as stated. *)
Lemma PickTier_refuses_on_reader_error :
  (PickTier (Some distribution) [csprng.RandErr]).1.2 = false
  /\ Some distribution <> None
  /\ PrizeTable distribution <> []
  /\ ~ totalWeight (Some distribution) <= 0
  /\ exactWeight (PrizeTable distribution) = 100.
Proof.
  split; [reflexivity|]. split; [discriminate|]. split; [discriminate|].
  split; [|reflexivity].
  change (totalWeight (Some distribution)) with 100. lia.
Qed.

(** C8, amended by the failure of the random reader.  [PickTier] returns
    [ok = false] exactly when the model is nil, its prize table is empty,
    the total of its positive weights (as accumulated on int64) is at most
    0, or that total is not 1 and the read of the random source fails (for
    a total of 1, [rand.Int] returns 0 without reading); and whenever
    [ok = true] the returned tier is an entry of the prize table whose
    weight is positive. *)
Theorem PickTier_ok (g : option GameMath) (tape : csprng.Tape) :
  let r := PickTier g tape in
  (r.1.2 = false <->
     g = None \/ table g = [] \/ totalWeight g <= 0
     \/ (totalWeight g <> 1 /\ csprng.fails tape = true))
  /\ (r.1.2 = true -> In r.1.1 (table g) /\ 0 < Weight r.1.1).
Proof.
  destruct g as [m|]; simpl.
  2:{ split; [tauto | discriminate]. }
  unfold PickTier, totalWeight; simpl.
  destruct (PrizeTable m) as [|t0 tbl] eqn:Htbl.
  { simpl. split; [tauto | discriminate]. }
  set (total := sumWeights 0 (t0 :: tbl)).
  destruct (total <=? 0) eqn:Htot.
  { apply Z.leb_le in Htot. simpl. split; [tauto | discriminate]. }
  apply Z.leb_gt in Htot.
  destruct (csprng.Int total tape) as [[idx|] tape'] eqn:Hint.
  - destruct (csprng_Int_Some _ _ _ _ Htot Hint) as (Hidx & Hread).
    destruct (walk_finds idx (t0 :: tbl) 0) as (t & Hw & Hin & Hpos);
      [lia | fold total; lia |].
    rewrite Hw. simpl. split; [|auto].
    split; [discriminate|].
    intros [H|[H|[H|[H1 H2]]]]; try discriminate; try lia.
    destruct Hread as [[H _]|(_ & H & _)]; congruence.
  - simpl. split; [|discriminate].
    split; [|reflexivity]. intros _. do 3 right.
    apply (csprng_Int_None total). now rewrite Hint.
Qed.

(** Below 2^63 the total of [PickTier] is the plain sum of the positive
    weights, so the model is refused for its weights only when no tier
    has a positive one. *)
Lemma totalWeight_exact (m : GameMath) :
  exactWeight (PrizeTable m) < 2 ^ 63 ->
  totalWeight (Some m) = exactWeight (PrizeTable m).
Proof.
  intros H. unfold totalWeight. simpl. rewrite sumWeights_exact; lia.
Qed.

Example PickTier_distribution_draws :
  (PickTier (Some distribution) [csprng.RandOk 69]).1.1 = tier "LOSE" 0 70
  /\ (PickTier (Some distribution) [csprng.RandOk 70]).1.1 = tier "T1" 2 20
  /\ (PickTier (Some distribution) [csprng.RandOk 99]).1.1 = tier "T2" 5 10
  /\ (PickTier (Some (model [tier "A" 1 0; tier "B" 2 100])) [csprng.RandOk 0]).1.1
     = tier "B" 2 100
  /\ (PickTier (Some (model [tier "LOSE" 0 0])) [csprng.RandOk 0]).1.2 = false.
Proof. repeat split. Qed.

End PickTier.

(** ** Floating point facts *)

Lemma float_pos_nonzero (x : float) :
  (0 <? x)%float = true -> (x =? 0)%float = false.
Proof.
  rewrite ltb_spec, eqb_spec.
  destruct (Prim2SF x) as [sg|sg| |sg m e]; try destruct sg; vm_compute; congruence.
Qed.

(** ** scratch: rendering of the drawn tier *)

Section Rendering.

Import scratch fixtures.

Lemma allSame_fullMatch s : allSame s = true <-> fullMatch s.
Proof.
  destruct s as [[s0 s1] s2]. unfold allSame, fullMatch. simpl.
  rewrite andb_true_iff, !String.eqb_eq. tauto.
Qed.

Lemma allSame_not_fullMatch s : allSame s = false <-> ~ fullMatch s.
Proof.
  rewrite <- allSame_fullMatch. destruct (allSame s); split; congruence.
Qed.

Lemma redraw_nil s :
  redraw s [] =
  if allSame s then
    let s' := (s.1.1, s.1.2, symbolAt (secureIntn nsymbols []).1) in
    if allSame s' then None else Some (s', [])
  else Some (s, []).
Proof. reflexivity. Qed.

Lemma redraw_cons s d tape :
  redraw s (d :: tape) =
  if allSame s then
    redraw (s.1.1, s.1.2, symbolAt (secureIntn nsymbols (d :: tape)).1) tape
  else Some (s, d :: tape).
Proof. reflexivity. Qed.

(** The re-draw loop only leaves with three symbols that are not all the
    same. *)
Lemma redraw_leaves_unmatched tape : forall s s' tape',
  redraw s tape = Some (s', tape') -> allSame s' = false.
Proof.
  induction tape as [|d tape IH]; intros s s' tape' H.
  - rewrite redraw_nil in H. destruct (allSame s) eqn:Hs.
    + cbv zeta in H.
      destruct (allSame (s.1.1, s.1.2, _)) eqn:Hs' in H; [discriminate|].
      inversion H; subst. exact Hs'.
    + inversion H; subst. exact Hs.
  - rewrite redraw_cons in H. destruct (allSame s) eqn:Hs.
    + eapply IH, H.
    + inversion H; subst. exact Hs.
Qed.

Lemma secureIntn_head n d tape :
  (secureIntn n (d :: tape)).1 = (secureIntn n [d]).1.
Proof.
  unfold secureIntn, csprng.Int. destruct (n <=? 0); [reflexivity|].
  destruct (n =? 1); [reflexivity|].
  simpl. destruct (csprng.value n d); reflexivity.
Qed.

(** The loop does leave once the tape holds a draw whose symbol differs
    from the first one. *)
Lemma redraw_returns tape : forall s,
  (exists d, In d tape /\ symbolAt (secureIntn nsymbols [d]).1 <> s.1.1) ->
  is_Some (redraw s tape).
Proof.
  induction tape as [|d tape IH]; intros s (d' & Hin & Hne).
  - destruct Hin.
  - rewrite redraw_cons. destruct (allSame s) eqn:Hs; [|eauto].
    apply allSame_fullMatch in Hs. destruct Hs as [Hs _].
    destruct Hin as [->|Hin].
    + rewrite secureIntn_head.
      set (s' := (s.1.1, s.1.2, symbolAt (secureIntn nsymbols [d']).1)).
      assert (Hs' : allSame s' = false).
      { apply allSame_not_fullMatch. intros [_ E]. subst s'. simpl in E. congruence. }
      destruct tape as [|d2 tape].
      * rewrite redraw_nil, Hs'. eauto.
      * rewrite redraw_cons, Hs'. eauto.
    + apply IH. exists d'. split; [exact Hin|exact Hne].
Qed.

(** C9.  For every outcome that [GenerateWithMath] returns with
    [ok = true], [t] being the tier [PickTier] drew: the outcome carries
    the label of [t]; if [t] is a winning tier (positive multiplier, label
    other than LOSE) the three symbols are all equal; if [t] is the LOSE
    bucket or has multiplier 0 the three symbols are not all equal. *)
Theorem GenerateWithMath_rendering (betAmount : float)
    (math : option gamemath.GameMath) (tape : csprng.Tape)
    (o : Outcome) (tape' : csprng.Tape) :
  GenerateWithMath betAmount math tape = Some (o, true, tape') ->
  let t := (gamemath.PickTier math tape).1.1 in
  (gamemath.PickTier math tape).1.2 = true
  /\ Tier o = gamemath.Tier t
  /\ ((0 <? gamemath.Multiplier t)%float = true /\ gamemath.Tier t <> "LOSE" ->
      fullMatch (Symbols o))
  /\ (gamemath.Tier t = "LOSE" \/ (gamemath.Multiplier t =? 0)%float = true ->
      ~ fullMatch (Symbols o)).
Proof.
  unfold GenerateWithMath. destruct math as [m|]; [|discriminate].
  destruct (gamemath.PickTier (Some m) tape) as [[t ok] tape1] eqn:Hpick.
  destruct ok; simpl; [|discriminate].
  destruct (String.eqb (gamemath.Tier t) "LOSE" || (gamemath.Multiplier t =? 0)%float)
    eqn:Hlose.
  - destruct (draw3 tape1) as [s tape2].
    destruct (redraw s tape2) as [[s' tape3]|] eqn:Hre; [|discriminate].
    intros H. inversion H; subst; clear H. simpl.
    apply redraw_leaves_unmatched in Hre.
    split; [reflexivity|]. split; [reflexivity|]. split.
    + intros [Hpos Hne].
      apply orb_true_iff in Hlose as [Hl|Hz].
      * apply String.eqb_eq in Hl. contradiction.
      * rewrite (float_pos_nonzero _ Hpos) in Hz. discriminate.
    + intros _. now apply allSame_not_fullMatch.
  - destruct (secureIntn nsymbols tape1) as [i tape2].
    intros H. inversion H; subst; clear H. simpl.
    apply orb_false_iff in Hlose as [Hl Hz].
    split; [reflexivity|]. split; [reflexivity|]. split.
    + intros _. split; reflexivity.
    + intros [Hl'|Hz']; [|congruence].
      rewrite Hl' in Hl. discriminate.
Qed.

(** A winning tier is always rendered; a losing tier is rendered as soon
    as some later draw shows a symbol other than the first. *)
Lemma GenerateWithMath_returns_on_win betAmount m tape t tape1 :
  gamemath.PickTier (Some m) tape = (t, true, tape1) ->
  String.eqb (gamemath.Tier t) "LOSE" || (gamemath.Multiplier t =? 0)%float = false ->
  is_Some (GenerateWithMath betAmount (Some m) tape).
Proof.
  intros Hpick Hwin. unfold GenerateWithMath. rewrite Hpick. simpl.
  rewrite Hwin. destruct (secureIntn nsymbols tape1). eauto.
Qed.

Lemma GenerateWithMath_rendering_witness :
  (GenerateWithMath 10 (Some distribution) losingTape
   = Some ({| Symbols := ("cherry", "cherry", "lemon"); WinAmount := 0;
              Match := false; Tier := "LOSE" |}, true, [])
   /\ ~ fullMatch ("cherry", "cherry", "lemon"))
  /\ (GenerateWithMath 10 (Some distribution) winningTape
      = Some ({| Symbols := ("seven", "seven", "seven"); WinAmount := 20;
                 Match := true; Tier := "T1" |}, true, [])
      /\ fullMatch ("seven", "seven", "seven")).
Proof.
  split.
  - split; [reflexivity|].
    refine (proj2 (proj2 (proj2
      (GenerateWithMath_rendering 10 (Some distribution) losingTape _ [] eq_refl))) _).
    left. reflexivity.
  - split; [reflexivity|].
    refine (proj1 (proj2 (proj2
      (GenerateWithMath_rendering 10 (Some distribution) winningTape _ [] eq_refl))) _).
    split; [reflexivity|discriminate].
Defined.

End Rendering.

(** ** round: the ledger of settled results *)

Section Ledger.

Lemma lastWith_snoc roundID l r :
  round.lastWith roundID (l ++ [r]) =
  if String.eqb (round.Result.RoundID r) roundID then Some r
  else round.lastWith roundID l.
Proof.
  unfold round.lastWith. rewrite rev_app_distr. reflexivity.
Qed.

Lemma lastWith_RoundID roundID l rec :
  round.lastWith roundID l = Some rec -> round.Result.RoundID rec = roundID.
Proof.
  unfold round.lastWith. intros H. apply find_some in H as [_ H].
  now apply String.eqb_eq.
Qed.

Lemma GetByRoundID_RoundID file roundID rec ok :
  round.GetByRoundID file roundID = (Some rec, ok) ->
  round.Result.RoundID rec = roundID.
Proof.
  destruct file as [l|]; simpl; [|discriminate].
  intros H. inversion H. eapply lastWith_RoundID; eauto.
Qed.

(** What the ledger holds for a round after [Append]: the appended entry
    when it is the round's and the write went through, the earlier entry
    when the entry is another round's or nothing was written, nothing
    readable after a torn write. *)
Lemma GetByRoundID_Append file r w roundID :
  round.GetByRoundID (round.Append file r w).1 roundID =
  if round.marshals r then
    match w with
    | fs.WriteOk =>
        if String.eqb (round.Result.RoundID r) roundID then (Some r, true)
        else match file with
             | Some l => (round.lastWith roundID l, true)
             | None => (None, true)
             end
    | fs.WriteRefused => round.GetByRoundID file roundID
    | fs.WriteTorn => (None, false)
    end
  else round.GetByRoundID file roundID.
Proof.
  unfold round.Append. destruct (round.marshals r); [|reflexivity].
  destruct w; simpl; try reflexivity.
  rewrite lastWith_snoc.
  destruct (String.eqb _ _); [reflexivity|]. destruct file; reflexivity.
Qed.

End Ledger.

(** ** server: scratch rounds *)

Section ScratchRounds.

Import server fixtures.

Lemma orDefault_nonempty s d : s <> "" -> orDefault s d = s.
Proof.
  unfold orDefault. intros H. destruct (String.eqb_spec s ""); congruence.
Qed.

(** A request that fails the checks is answered with an error before
    anything else happens. *)
Lemma handleScratchRoundStart_rejected s req p g :
  accepted req = false ->
  exists status msg code, forall w,
    handleScratchRoundStart s req p g w =
    Some {| response := APIError status msg code; server := s; calls := [];
            rest := tape w |}.
Proof.
  unfold accepted, handleScratchRoundStart. intros H.
  destruct (String.eqb (requestSessionID req) ""); [eauto|].
  destruct (512 <? _); [eauto|].
  destruct (requestBetAmount req <=? 0)%float; [eauto|].
  destruct (maxBet <? requestBetAmount req)%float; [eauto|].
  discriminate.
Qed.

(** An accepted request is replayed from the ledger or settled anew. *)
Lemma handleScratchRoundStart_accepted s req p g w :
  accepted req = true ->
  handleScratchRoundStart s req p g w =
  let roundID := orDefault (requestRoundID req) (uuid w) in
  match round.GetByRoundID (results s) roundID with
  | (Some existing, true) =>
      Some {| response := replayResponse existing; server := s; calls := [];
              rest := tape w |}
  | _ =>
      match drawOutcome s g (requestBetAmount req) (tape w) with
      | None => None
      | Some (outcome, tape') =>
          Some (settleOutcome s w (requestSessionID req)
                  (orDefault (ScratchRoundStartRequest.Currency req) "USD")
                  roundID (requestDeviceType req)
                  (orDefault (ScratchRoundStartRequest.GameCode req) g)
                  (requestBetAmount req) outcome tape')
      end
  end.
Proof.
  unfold accepted, handleScratchRoundStart. intros H.
  destruct (String.eqb (requestSessionID req) ""); [discriminate|].
  destruct (512 <? _); [discriminate|].
  destruct (requestBetAmount req <=? 0)%float; [discriminate|].
  destruct (maxBet <? requestBetAmount req)%float; [discriminate|].
  reflexivity.
Qed.

(** The server after [settleOutcome]: untouched by an early response,
    else only the ledger changed, by [Append]. *)
Lemma settleOutcome_cases s w sid cur rid dev gc bet o tape' :
  let reply := settleOutcome s w sid cur rid dev gc bet o tape' in
  server reply = s
  \/ exists delta,
       response reply = scratchResponse rid o (scratch.WinAmount o) delta ""
       /\ server reply =
          withResults s (round.Append (results s) (scratchResult rid o delta (now w))
                           (disk w)).1.
Proof.
  unfold settleOutcome.
  destruct (if operator s then _ else _) as [[early|delta] cs]; simpl; eauto.
Qed.

(** A scratch response of a call after which the ledger holds a result
    for the round of the request shows that result. *)
Lemma handleScratchRoundStart_shows_record r s req p g w reply resp rec :
  requestRoundID req = r -> r <> "" ->
  handleScratchRoundStart s req p g w = Some reply ->
  response reply = ScratchRoundStart resp ->
  round.GetByRoundID (results (server reply)) r = (Some rec, true) ->
  shows resp rec.
Proof.
  intros Hr Hne Hcall Hresp Hrec.
  destruct (accepted req) eqn:Hacc.
  2:{ destruct (handleScratchRoundStart_rejected s req p g Hacc)
        as (st & msg & code & E).
      rewrite E in Hcall. inversion Hcall; subst. discriminate. }
  rewrite handleScratchRoundStart_accepted in Hcall by exact Hacc.
  cbv zeta in Hcall. rewrite Hr, (orDefault_nonempty r _ Hne) in Hcall.
  destruct (round.GetByRoundID (results s) r) as [[existing|] [|]] eqn:Hget.
  { inversion Hcall; subst; clear Hcall. simpl in *.
    rewrite Hget in Hrec. inversion Hrec; subst.
    inversion Hresp; subst. repeat split. }
  all: destruct (drawOutcome s g (requestBetAmount req) (tape w))
         as [[o tape']|]; [|discriminate];
       inversion Hcall as [Hreply]; clear Hcall;
       match type of Hreply with
       | settleOutcome ?s ?w ?sid ?cur ?rid ?dev ?gc ?bet ?o ?t = _ =>
           destruct (settleOutcome_cases s w sid cur rid dev gc bet o t)
             as [Hs|(delta & Hr' & Hs)]
       end;
       rewrite Hreply in *.
  all: try (rewrite Hs, Hget in Hrec; discriminate).
  all: rewrite Hs in Hrec; simpl in Hrec;
       rewrite GetByRoundID_Append, Hget in Hrec;
       destruct (round.marshals _); [|discriminate];
       destruct (disk w); try discriminate;
       assert (Hid : round.Result.RoundID (scratchResult r o delta (now w)) = r)
         by (unfold scratchResult; destruct (scratch.Symbols o) as [[? ?] ?]; reflexivity);
       rewrite Hid, String.eqb_refl in Hrec;
       inversion Hrec; subst rec;
       rewrite Hresp in Hr'; inversion Hr'; subst resp;
       unfold shows, scratchResult;
       destruct (scratch.Symbols o) as [[s0 s1] s2]; repeat split.
Qed.


(** *** Games without a usable model *)

(** With no model under the game's id, or a model whose draw is refused,
    the outcome is that of the legacy generator, on the tape as the
    refused draw left it. *)
Lemma drawOutcome_legacy s g bet tape :
  let pick := gamemath.PickTier (gamemath.Get (gameMath s) g) tape in
  pick.1.2 = false ->
  drawOutcome s g bet tape = Some (scratch.Generate bet pick.2).
Proof.
  unfold drawOutcome. cbv zeta.
  destruct (gamemath.Get (gameMath s) g) as [m|].
  - unfold scratch.GenerateWithMath.
    destruct (gamemath.PickTier (Some m) tape) as [[t ok] tape1].
    cbn [fst snd]. intros ->. reflexivity.
  - reflexivity.
Qed.

(** C3, amended.  For every accepted request with no recorded result
    whose game has no registered model, or a model whose draw is refused,
    the handler settles the outcome of the legacy generator [Generate],
    by the same wallet calls, ledger entry and response as for any drawn
    outcome; no configuration error is answered. *)
Theorem settleInstantRound_legacy_fallback s req p g w :
  accepted req = true ->
  (forall existing,
     round.GetByRoundID (results s) (orDefault (requestRoundID req) (uuid w))
     <> (Some existing, true)) ->
  (gamemath.PickTier (gamemath.Get (gameMath s) g) (tape w)).1.2 = false ->
  let tape1 := (gamemath.PickTier (gamemath.Get (gameMath s) g) (tape w)).2 in
  let legacy := scratch.Generate (requestBetAmount req) tape1 in
  handleScratchRoundStart s req p g w =
  Some (settleOutcome s w (requestSessionID req)
          (orDefault (ScratchRoundStartRequest.Currency req) "USD")
          (orDefault (requestRoundID req) (uuid w)) (requestDeviceType req)
          (orDefault (ScratchRoundStartRequest.GameCode req) g)
          (requestBetAmount req) legacy.1 legacy.2).
Proof.
  intros Hacc Hnew Hpick. cbv zeta.
  rewrite handleScratchRoundStart_accepted by exact Hacc. cbv zeta.
  rewrite (drawOutcome_legacy s g _ _ Hpick).
  destruct (scratch.Generate _ _) as [o tape'].
  destruct (round.GetByRoundID _ _) as [[existing|] [|]] eqn:Hget; try reflexivity.
  exfalso. eapply Hnew. reflexivity.
Qed.

(** *** The dropped error of [Append] *)

Lemma settleOutcome_withDisk s w d sid cur rid dev gc bet o tape' :
  let r1 := settleOutcome s (withDisk w d) sid cur rid dev gc bet o tape' in
  let r2 := settleOutcome s w sid cur rid dev gc bet o tape' in
  response r1 = response r2 /\ calls r1 = calls r2 /\ rest r1 = rest r2
  /\ (d <> fs.WriteOk -> results (server r1) = results s \/ results (server r1) = None).
Proof.
  unfold settleOutcome.
  change (settleWithOperator (withDisk w d)) with (settleWithOperator w).
  change (settleWithPlatform (withDisk w d)) with (settleWithPlatform w).
  destruct (if operator s then _ else _) as [[early|delta] cs]; simpl.
  - auto.
  - repeat split. intros Hd. unfold round.Append.
    destruct (round.marshals _); simpl; [|auto].
    destruct d; simpl; auto. congruence.
Qed.

(** C4, amended.  Whatever becomes of the write of the result, the
    handler gives the same response, makes the same wallet calls and
    consumes the same draws as when the write succeeds: a failure of
    [Append] is not reported.  After a failed write the ledger is as it
    was, or unreadable. *)
Theorem settleInstantRound_drops_persistence_error s req p g w d :
  let observe (r : Reply) := (response r, calls r, rest r) in
  observe <$> handleScratchRoundStart s req p g (withDisk w d)
  = observe <$> handleScratchRoundStart s req p g w
  /\ (d <> fs.WriteOk ->
      forall reply,
        handleScratchRoundStart s req p g (withDisk w d) = Some reply ->
        results (server reply) = results s \/ results (server reply) = None).
Proof.
  cbv zeta. destruct (accepted req) eqn:Hacc.
  2:{ destruct (handleScratchRoundStart_rejected s req p g Hacc)
        as (st & msg & code & E).
      rewrite !E. split; [reflexivity|].
      intros _ reply H. inversion H; subst. simpl. auto. }
  rewrite !handleScratchRoundStart_accepted by exact Hacc. cbv zeta.
  change (uuid (withDisk w d)) with (uuid w).
  change (tape (withDisk w d)) with (tape w).
  destruct (round.GetByRoundID _ _) as [[existing|] [|]].
  1:{ split; [reflexivity|]. intros _ reply H. inversion H; subst. simpl. auto. }
  all: destruct (drawOutcome _ _ _ _) as [[o tape']|];
       [|split; [reflexivity|discriminate]];
       match goal with
       | |- context [settleOutcome ?s (withDisk ?w ?d) ?sid ?cur ?rid ?dev ?gc ?bet ?o ?t] =>
           destruct (settleOutcome_withDisk s w d sid cur rid dev gc bet o t)
             as (E1 & E2 & E3 & E4)
       end;
       (split; [simpl; now rewrite E1, E2, E3|]);
       intros Hd reply H; inversion H; subst; auto.
Qed.

(** *** Runs of the handler *)

(** C3 as stated fails: a game with no registered model, and a game
    whose model has no positive weight, are both answered with an
    ordinary outcome of the legacy generator; the first one even pays
    twice the stake. *)
Lemma settleInstantRound_no_configuration_error :
  (gamemath.Get (gameMath emptyServer) "lucky" = None
   /\ response <$> handleScratchRoundStart emptyServer (scratchRequest "tok" 10 "r-1")
                     "provider" "lucky" (world threeStars 0 fs.WriteOk)
      = Some (scratchAnswer "r-1" ("star", "star", "star") 20 10 ""))
  /\ (let s := withModel emptyServer (model [tier "LOSE" 0 0]) in
      (gamemath.PickTier (gamemath.Get (gameMath s) "scratch_match3") threeDifferent).1.2
      = false
      /\ response <$> handleScratchRoundStart s (scratchRequest "tok" 10 "r-1")
                        "provider" "scratch_match3" (world threeDifferent 0 fs.WriteOk)
         = Some (scratchAnswer "r-1" ("cherry", "lemon", "star") 0 (-10) "")).
Proof. vm_compute. repeat split. Qed.

Lemma settleInstantRound_legacy_fallback_witness :
  handleScratchRoundStart emptyServer (scratchRequest "tok" 10 "r-1")
    "provider" "lucky" (world threeStars 0 fs.WriteOk)
  = Some (settleOutcome emptyServer (world threeStars 0 fs.WriteOk)
            "tok" "USD" "r-1" "desktop" "lucky" 10
            (scratch.Generate 10 threeStars).1 (scratch.Generate 10 threeStars).2).
Proof.
  apply (settleInstantRound_legacy_fallback emptyServer
           (scratchRequest "tok" 10 "r-1") "provider" "lucky"
           (world threeStars 0 fs.WriteOk)).
  - reflexivity.
  - intros existing. vm_compute. discriminate.
  - reflexivity.
Defined.

(** C4 as stated fails: the write of the result is refused, and the
    round is answered as settled all the same, after the stake was taken;
    the ledger holds no result, so the same round id then settles once
    more, with a second draw and a second bet. *)
Lemma settleInstantRound_reports_unpersisted_round :
  let s := withModel emptyServer distribution in
  let first := handleScratchRoundStart s (scratchRequest "tok" 10 "r-1")
                 "provider" "scratch_match3" (world losingTape 0 fs.WriteRefused) in
  let second :=
    first ≫= fun r =>
      handleScratchRoundStart (server r) (scratchRequest "tok" 10 "r-1")
        "provider" "scratch_match3" (world winningTape 1 fs.WriteOk) in
  (fun r => (response r, calls r, results (server r))) <$> first
  = Some (scratchAnswer "r-1" ("cherry", "cherry", "lemon") 0 (-10) "LOSE",
          [Bet "tok" "USD" 10 "Scratch"], None)
  /\ (fun r => (response r, calls r)) <$> second
     = Some (scratchAnswer "r-1" ("seven", "seven", "seven") 20 10 "T1",
             [Bet "tok" "USD" 10 "Scratch"; Win "tok" "USD" 20 "Scratch"]).
Proof. vm_compute. repeat split. Qed.

End ScratchRounds.

(** ** round: the store of crash rounds *)

Section CrashStore.

Implicit Types (s : round.CrashStore) (r : round.CrashRound.t).

Lemma settle_Settled r : round.CrashRound.Settled (round.settle r) = true.
Proof. reflexivity. Qed.

Lemma settle_settled r : round.CrashRound.Settled r = true -> round.settle r = r.
Proof. destruct r; simpl; intros ->; reflexivity. Qed.

Lemma Get_save s w roundID : round.Get (round.save s w) roundID = round.Get s roundID.
Proof. reflexivity. Qed.

Lemma Get_Settle s roundID w roundID' :
  round.Get (round.Settle s roundID w) roundID' =
  if decide (roundID = roundID') then round.settle <$> round.Get s roundID
  else round.Get s roundID'.
Proof.
  unfold round.Settle, round.Get.
  destruct (round.rounds s !! roundID) as [r|] eqn:Hr; simpl.
  - rewrite lookup_insert. destruct (decide (roundID = roundID')); reflexivity.
  - destruct (decide (roundID = roundID')) as [<-|]; [now rewrite Hr|reflexivity].
Qed.

Lemma Get_Create s roundID betID currency amount crashStep now w roundID' :
  round.Get (round.Create s roundID betID currency amount crashStep now w).2 roundID' =
  if decide (roundID = roundID')
  then Some (round.Create s roundID betID currency amount crashStep now w).1
  else round.Get s roundID'.
Proof.
  unfold round.Create, round.Get. simpl. rewrite lookup_insert.
  destruct (decide (roundID = roundID')); reflexivity.
Qed.

(** A settled round stays settled through [Settle], of itself or of
    another round. *)
Lemma Get_Settle_settled s roundID w roundID' r :
  round.Get s roundID' = Some r -> round.CrashRound.Settled r = true ->
  round.Get (round.Settle s roundID w) roundID' = Some r.
Proof.
  intros Hget Hs. rewrite Get_Settle.
  destruct (decide (roundID = roundID')) as [->|]; [|exact Hget].
  rewrite Hget. simpl. now rewrite settle_settled.
Qed.

(** What [load] keeps: rounds of the list that are not settled, each
    under its own id. *)
Lemma load_lookup l : forall (m : gmap string round.CrashRound.t) k r,
  foldl (fun m r => if round.loadable r then <[round.CrashRound.RoundID r := r]> m else m)
        m l !! k = Some r ->
  m !! k = Some r
  \/ (r ∈ l /\ round.loadable r = true /\ round.CrashRound.RoundID r = k).
Proof.
  induction l as [|r0 l IH]; intros m k r H; simpl in H; [auto|].
  apply IH in H as [H|(Hin & Hl & Hk)].
  - destruct (round.loadable r0) eqn:Hl0; [|auto].
    rewrite lookup_insert in H. destruct (decide _) as [E|]; [|auto].
    inversion H; subst. right. repeat split; auto. left.
  - right. repeat split; auto. right. exact Hin.
Qed.

(** A settled round does not survive the restart of the process. *)
Lemma restart_drops_settled s roundID :
  round.keyed s ->
  (forall r, round.Get s roundID = Some r -> round.CrashRound.Settled r = true) ->
  round.Get (round.restart (round.save s fs.WriteOk)) roundID = None.
Proof.
  intros Hkeyed Hset. unfold round.restart, round.NewCrashStore, round.Get, round.load.
  simpl. destruct (foldl _ _ _ !! roundID) as [r|] eqn:H; [|reflexivity].
  apply load_lookup in H as [H|(Hin & Hl & Hk)]; [now rewrite lookup_empty in H|].
  apply list_elem_of_fmap in Hin as ([k r'] & -> & Hin). simpl in *.
  apply elem_of_map_to_list in Hin.
  pose proof (Hkeyed _ _ Hin) as Hk'. rewrite Hk in Hk'. subst k.
  apply Hset in Hin. unfold round.loadable in Hl. rewrite Hin in Hl.
  rewrite andb_false_r in Hl. discriminate.
Qed.

End CrashStore.

(** ** server: crash rounds *)

Section CrashRounds.

Import server fixtures.

Lemma eqb_empty_false (x : string) : x <> "" -> String.eqb x "" = false.
Proof. intros H. now apply String.eqb_neq. Qed.

(** A cashout of a settled round is refused with the conflict, and
    nothing happens. *)
Lemma handleCrashCashout_settled s req p w cr :
  CrashCashoutRequest.Token req <> "" ->
  CrashCashoutRequest.RoundID req <> "" ->
  round.Get (crashStore s) (CrashCashoutRequest.RoundID req) = Some cr ->
  round.CrashRound.Settled cr = true ->
  handleCrashCashout s req p w =
  {| response := alreadySettled; server := s; calls := []; rest := tape w |}.
Proof.
  intros Htok Hid Hget Hset. unfold handleCrashCashout.
  rewrite (eqb_empty_false _ Htok), (eqb_empty_false _ Hid), Hget, Hset.
  reflexivity.
Qed.

(** The crash store after a cashout: as before, or with the round of the
    request settled. *)
Lemma handleCrashCashout_store s req p w :
  let reply := handleCrashCashout s req p w in
  server reply = s
  \/ server reply =
     withCrashStore s
       (round.Settle (crashStore s) (CrashCashoutRequest.RoundID req) (disk w)).
Proof.
  unfold handleCrashCashout.
  repeat match goal with
         | |- context [if ?c then _ else _] => destruct c
         | |- context [match ?x with _ => _ end] => destruct x
         end; simpl; auto.
Qed.

Lemma handleCrashStatus_store s roundID token w :
  let reply := handleCrashStatus s roundID token w in
  server reply = s
  \/ server reply = withCrashStore s (round.Settle (crashStore s) roundID (disk w)).
Proof.
  unfold handleCrashStatus.
  destruct (_ || _); [auto|].
  destruct (round.Get _ _) as [cr|]; [|auto].
  destruct (round.CrashRound.CrashStep cr <=? _); simpl; [auto|].
  left. destruct s; reflexivity.
Qed.

Lemma handleScratchRoundStart_crashStore s req p g w reply :
  handleScratchRoundStart s req p g w = Some reply ->
  crashStore (server reply) = crashStore s.
Proof.
  intros H. destruct (accepted req) eqn:Hacc.
  2:{ destruct (handleScratchRoundStart_rejected s req p g Hacc) as (st & m & c & E).
      rewrite E in H. inversion H; reflexivity. }
  rewrite handleScratchRoundStart_accepted in H by exact Hacc. cbv zeta in H.
  destruct (round.GetByRoundID _ _) as [[existing|] [|]].
  1:{ inversion H; reflexivity. }
  all: destruct (drawOutcome _ _ _ _) as [[o tape']|]; [|discriminate];
       inversion H as [Hreply]; clear H;
       match type of Hreply with
       | settleOutcome ?s ?w ?sid ?cur ?rid ?dev ?gc ?bet ?o ?t = _ =>
           destruct (settleOutcome_cases s w sid cur rid dev gc bet o t)
             as [Hs|(delta & _ & Hs)]
       end; rewrite Hs; reflexivity.
Qed.

(** A settled round stays as it is through every request that does not
    create a round under its id. *)
Lemma serve_keeps_settled r cr s rq w reply :
  serve s rq w = Some reply ->
  ~ starts r (rq, w) ->
  round.Get (crashStore s) r = Some cr -> round.CrashRound.Settled cr = true ->
  round.Get (crashStore (server reply)) r = Some cr.
Proof.
  intros Hserve Hstart Hget Hset.
  destruct rq as [req p g|req p|req p|id token]; simpl in Hserve.
  - now rewrite (handleScratchRoundStart_crashStore _ _ _ _ _ _ Hserve).
  - inversion Hserve; subst reply; clear Hserve.
    unfold starts in Hstart. simpl in Hstart.
    unfold handleCrashRoundStart.
    destruct (String.eqb _ ""); [exact Hget|].
    destruct (_ <=? 0)%float; [exact Hget|].
    destruct (bet w) as [betID|status msg]; [|exact Hget].
    destruct (crash.GenerateCrashStep (tape w)) as [crashStep tape'].
    destruct (round.Create _ _ _ _ _ _ _ _) as [cr' store] eqn:Hc. simpl.
    change store with (cr', store).2. rewrite <- Hc, Get_Create.
    destruct (decide _) as [E|]; [contradiction|exact Hget].
  - inversion Hserve; subst reply; clear Hserve.
    destruct (handleCrashCashout_store s req p w) as [-> | ->]; [exact Hget|].
    simpl. now apply Get_Settle_settled.
  - inversion Hserve; subst reply; clear Hserve.
    destruct (handleCrashStatus_store s id token w) as [-> | ->]; [exact Hget|].
    simpl. now apply Get_Settle_settled.
Qed.

Lemma serveAll_keeps_settled r cr rs : forall s s',
  serveAll s rs = Some s' ->
  Forall (fun rw => ~ starts r rw) rs ->
  round.Get (crashStore s) r = Some cr -> round.CrashRound.Settled cr = true ->
  round.Get (crashStore s') r = Some cr.
Proof.
  induction rs as [|[rq w] rs IH]; intros s s' Hall Hno Hget Hset; simpl in Hall.
  - now inversion Hall; subst.
  - destruct (serve s rq w) as [reply|] eqn:Hserve; [|discriminate].
    inversion Hno; subst.
    eapply IH; eauto using serve_keeps_settled.
Qed.

(** *** The lazy loss of the status query *)

(** C7, amended.  For every open crash round whose elapsed step has
    reached its crash step, the status query reports [crashed = true] with
    the crash step and the crash multiplier, and itself closes the round,
    with no payout.  From then on, in the same run of the server and
    through whatever requests follow that do not start a round under the
    same id, every cashout of the round is refused with the already-settled
    conflict, makes no wallet call and changes nothing: once the status
    query has closed it, the round does not settle as a win. *)
Theorem crashRoundStatus_closes_crashed_round r token s w cr :
  r <> "" -> token <> "" ->
  round.Get (crashStore s) r = Some cr ->
  round.CrashRound.Settled cr = false ->
  round.CrashRound.CrashStep cr
    <= currentStep (now w) (round.CrashRound.StartedAt cr) ->
  let reply := handleCrashStatus s r token w in
  response reply =
    CrashStatus
      {| CrashStatusResponse.roundId := r;
         CrashStatusResponse.currentStep :=
           currentStep (now w) (round.CrashRound.StartedAt cr);
         CrashStatusResponse.multiplier :=
           Some (crash.Multiplier (currentStep (now w) (round.CrashRound.StartedAt cr)));
         CrashStatusResponse.crashed := true;
         CrashStatusResponse.crashStep := Some (round.CrashRound.CrashStep cr);
         CrashStatusResponse.crashMultiplier :=
           Some (crash.Multiplier (round.CrashRound.CrashStep cr)) |}
  /\ calls reply = []
  /\ round.Get (crashStore (server reply)) r = Some (round.settle cr)
  /\ forall rs s',
       serveAll (server reply) rs = Some s' ->
       Forall (fun rw => ~ starts r rw) rs ->
       forall req p w',
         CrashCashoutRequest.RoundID req = r ->
         CrashCashoutRequest.Token req <> "" ->
         handleCrashCashout s' req p w' =
         {| response := alreadySettled; server := s'; calls := []; rest := tape w' |}.
Proof.
  intros Hr Htok Hget Hopen Hcrash. cbv zeta.
  assert (Hafter : round.Get (crashStore (server (handleCrashStatus s r token w))) r
                   = Some (round.settle cr)).
  { unfold handleCrashStatus.
    rewrite (eqb_empty_false _ Hr), (eqb_empty_false _ Htok), Hget. simpl.
    rewrite (proj2 (Z.leb_le _ _) Hcrash).
    rewrite Get_Settle. rewrite decide_True by reflexivity. now rewrite Hget. }
  split; [|split; [|split; [exact Hafter|]]].
  - unfold handleCrashStatus.
    rewrite (eqb_empty_false _ Hr), (eqb_empty_false _ Htok), Hget. simpl.
    now rewrite (proj2 (Z.leb_le _ _) Hcrash).
  - unfold handleCrashStatus.
    destruct (_ || _); [reflexivity|]. now rewrite Hget.
  - intros rs s' Hall Hno req p w' Hid Htok'.
    eapply handleCrashCashout_settled; try eassumption.
    + now rewrite Hid.
    + rewrite Hid.
      eapply serveAll_keeps_settled; eauto using settle_Settled.
    + apply settle_Settled.
Qed.

(** *** Two settlement attempts, one after the other *)

(** A response that concludes the round comes with the round settled. *)
Lemma concluding_attempt_settles r s cr a w reply :
  r <> "" ->
  round.Get (crashStore s) r = Some cr ->
  attempts r a -> serve s a w = Some reply -> concludes (response reply) ->
  round.Get (crashStore (server reply)) r = Some (round.settle cr).
Proof.
  intros Hr Hget Hatt Hserve Hcon.
  destruct a as [? ? ?|? ?|req p|id token]; try destruct Hatt as [Hid Htok];
    try contradiction; simpl in Hserve; inversion Hserve; subst reply; clear Hserve.
  - subst r. revert Hcon. unfold handleCrashCashout.
    rewrite (eqb_empty_false _ Htok), (eqb_empty_false _ Hr), Hget.
    destruct (round.CrashRound.Settled cr); [intros []|].
    destruct (_ <? CrashCashoutRequest.Step req); [intros []|].
    destruct (_ <=? _).
    + intros _. simpl. rewrite Get_Settle, decide_True by reflexivity.
      now rewrite Hget.
    + destruct (win w); [|intros []].
      intros _. simpl. rewrite Get_Settle, decide_True by reflexivity.
      now rewrite Hget.
  - subst id. revert Hcon. unfold handleCrashStatus.
    rewrite (eqb_empty_false _ Hr), (eqb_empty_false _ Htok), Hget. simpl.
    destruct (_ <=? _); [|discriminate].
    intros _. rewrite Get_Settle, decide_True by reflexivity. now rewrite Hget.
Qed.

(** C2, amended to attempts that run one after the other.  When two
    settlement attempts on the same open round (each a cashout or a status
    query) are served in sequence and the first concludes the round, the
    first has performed the transition to settled, and the second
    performs none and pays nothing: it makes no wallet call and leaves the
    round as the first settled it; if it is a cashout it is refused with
    the already-settled conflict, and the server is unchanged. *)
Theorem settlement_attempts_in_sequence r s cr a1 w1 a2 w2 reply1 reply2 :
  r <> "" ->
  round.Get (crashStore s) r = Some cr ->
  round.CrashRound.Settled cr = false ->
  attempts r a1 -> attempts r a2 ->
  serve s a1 w1 = Some reply1 ->
  serve (server reply1) a2 w2 = Some reply2 ->
  concludes (response reply1) ->
  round.Get (crashStore (server reply1)) r = Some (round.settle cr)
  /\ calls reply2 = []
  /\ round.Get (crashStore (server reply2)) r = Some (round.settle cr)
  /\ (forall req p, a2 = Cashout req p ->
        response reply2 = alreadySettled /\ server reply2 = server reply1).
Proof.
  intros Hr Hget Hopen Ha1 Ha2 H1 H2 Hcon.
  pose proof (concluding_attempt_settles _ _ _ _ _ _ Hr Hget Ha1 H1 Hcon) as Hset.
  split; [exact Hset|].
  destruct a2 as [? ? ?|? ?|req p|id token]; try destruct Ha2 as [Hid Htok];
    try contradiction; simpl in H2; inversion H2; subst reply2; clear H2.
  - subst r.
    rewrite (handleCrashCashout_settled _ req p w2 _ Htok Hr Hset (settle_Settled cr)).
    simpl. repeat split; auto.
  - subst id. split; [|split].
    + unfold handleCrashStatus. destruct (_ || _); [reflexivity|].
      now rewrite Hset.
    + destruct (handleCrashStatus_store (server reply1) r token w2) as [-> | ->];
        [exact Hset|].
      simpl. apply Get_Settle_settled; [exact Hset|apply settle_Settled].
    + intros req p E. discriminate.
Qed.

(** *** Rounds the store does not know *)

Lemma handleCrashStatus_unknown s roundID token w :
  roundID <> "" -> token <> "" ->
  round.Get (crashStore s) roundID = None ->
  handleCrashStatus s roundID token w =
  {| response :=
       CrashStatus
         {| CrashStatusResponse.roundId := roundID;
            CrashStatusResponse.currentStep := 0;
            CrashStatusResponse.multiplier := None;
            CrashStatusResponse.crashed := false;
            CrashStatusResponse.crashStep := None;
            CrashStatusResponse.crashMultiplier := None |};
     server := s; calls := []; rest := tape w |}.
Proof.
  intros Hid Htok Hget. unfold handleCrashStatus.
  now rewrite (eqb_empty_false _ Hid), (eqb_empty_false _ Htok), Hget.
Qed.

(** C10.  For every round identifier unknown to the store of crash
    rounds, the status query answers with status 200, [currentStep = 0]
    and [crashed = false], and not with a round-not-found error; it
    changes nothing. *)
Theorem crashRoundStatus_unknown_round s roundID token w :
  roundID <> "" -> token <> "" ->
  round.Get (crashStore s) roundID = None ->
  handleCrashStatus s roundID token w =
  {| response :=
       CrashStatus
         {| CrashStatusResponse.roundId := roundID;
            CrashStatusResponse.currentStep := 0;
            CrashStatusResponse.multiplier := None;
            CrashStatusResponse.crashed := false;
            CrashStatusResponse.crashStep := None;
            CrashStatusResponse.crashMultiplier := None |};
     server := s; calls := []; rest := tape w |}.
Proof.
  intros Hid Htok Hget. unfold handleCrashStatus.
  rewrite (eqb_empty_false _ Hid), (eqb_empty_false _ Htok).
  unfold orb. now rewrite Hget.
Qed.

Lemma crashRoundStatus_unknown_round_witness :
  response (handleCrashStatus (crashServer openRound) "c-404" "tok"
              (world [] atStep30 fs.WriteOk))
  = CrashStatus
      {| CrashStatusResponse.roundId := "c-404";
         CrashStatusResponse.currentStep := 0;
         CrashStatusResponse.multiplier := None;
         CrashStatusResponse.crashed := false;
         CrashStatusResponse.crashStep := None;
         CrashStatusResponse.crashMultiplier := None |}.
Proof.
  exact (f_equal response
    (crashRoundStatus_unknown_round (crashServer openRound) "c-404" "tok"
       (world [] atStep30 fs.WriteOk)
       ltac:(discriminate) ltac:(discriminate) eq_refl)).
Defined.

(** The same answer is given for a round that was settled and then lost
    from the working set by a restart of the process. *)
Lemma crashRoundStatus_after_restart s roundID token w :
  roundID <> "" -> token <> "" ->
  round.keyed (crashStore s) ->
  (forall r, round.Get (crashStore s) roundID = Some r ->
             round.CrashRound.Settled r = true) ->
  let s' := withCrashStore s (round.restart (round.save (crashStore s) fs.WriteOk)) in
  response (handleCrashStatus s' roundID token w)
  = CrashStatus
      {| CrashStatusResponse.roundId := roundID;
         CrashStatusResponse.currentStep := 0;
         CrashStatusResponse.multiplier := None;
         CrashStatusResponse.crashed := false;
         CrashStatusResponse.crashStep := None;
         CrashStatusResponse.crashMultiplier := None |}.
Proof.
  intros Hid Htok Hkeyed Hset. cbv zeta.
  rewrite handleCrashStatus_unknown; auto.
  simpl. now apply restart_drops_settled.
Qed.

(** *** Starting a round *)

Lemma GenerateCrashStep_range tape :
  crash.CrashStepMin <= (crash.GenerateCrashStep tape).1 <= crash.CrashStepMax.
Proof.
  unfold crash.GenerateCrashStep, crash.CrashStepMin, crash.CrashStepMax.
  destruct (csprng.Int _ tape) as [[v|] tape'] eqn:H; simpl; [|lia].
  apply csprng_Int_Some in H; lia.
Qed.

(** C6 as stated fails: a start under the id of an existing round is
    answered with status 200, and the store then holds another round
    under that id, with the new stake, a new crash step and the new start
    time. *)
Lemma startCrashRound_overwrites_existing_round :
  let s := crashServer openRound in
  let reply := handleCrashRoundStart s (startRequest "tok" "c-1" 5) "provider"
                 (world [csprng.RandOk 7] atStep30 fs.WriteOk) in
  round.Get (crashStore s) "c-1" = Some openRound
  /\ response reply
     = CrashRoundStart {| CrashRoundStartResponse.RoundID := "c-1";
                          CrashRoundStartResponse.StartedAtMs := 3000 |}
  /\ round.Get (crashStore (server reply)) "c-1"
     = Some {| round.CrashRound.RoundID := "c-1";
               round.CrashRound.BetID := "bet-1";
               round.CrashRound.Currency := "USD";
               round.CrashRound.Amount := 5%float;
               round.CrashRound.CrashStep := 17;
               round.CrashRound.StartedAt := atStep30;
               round.CrashRound.Settled := false |}.
Proof. vm_compute. repeat split. Qed.

(** C6, amended.  For every round identifier, in the store or not, a
    start request with a token, a positive stake and an accepted bet
    succeeds: the response carries the id and the start time, and the
    store then holds under the id a fresh open round with the stake of the
    request, a crash step just drawn in [10, 400] and the present instant
    as start, in place of any round it held there.  The rounds under
    other ids are untouched. *)
Theorem startCrashRound_replaces_round s req p w betID :
  CrashRoundStartRequest.Token req <> "" ->
  (CrashRoundStartRequest.Amount req <=? 0)%float = false ->
  bet w = BetOk betID ->
  let roundID := orDefault (CrashRoundStartRequest.RoundID req) (uuid w) in
  let currency := orDefault (CrashRoundStartRequest.Currency req) "USD" in
  let fresh :=
    {| round.CrashRound.RoundID := roundID;
       round.CrashRound.BetID := betID;
       round.CrashRound.Currency := currency;
       round.CrashRound.Amount := CrashRoundStartRequest.Amount req;
       round.CrashRound.CrashStep := (crash.GenerateCrashStep (tape w)).1;
       round.CrashRound.StartedAt := now w;
       round.CrashRound.Settled := false |} in
  let reply := handleCrashRoundStart s req p w in
  response reply
    = CrashRoundStart {| CrashRoundStartResponse.RoundID := roundID;
                         CrashRoundStartResponse.StartedAtMs := time.UnixMilli (now w) |}
  /\ calls reply
     = [Bet (CrashRoundStartRequest.Token req) currency
          (CrashRoundStartRequest.Amount req) "Crash"]
  /\ round.Get (crashStore (server reply)) roundID = Some fresh
  /\ crash.CrashStepMin <= round.CrashRound.CrashStep fresh <= crash.CrashStepMax
  /\ forall other, other <> roundID ->
       round.Get (crashStore (server reply)) other = round.Get (crashStore s) other.
Proof.
  intros Htok Hpos Hbet. cbv zeta. unfold handleCrashRoundStart.
  rewrite (eqb_empty_false _ Htok), Hpos, Hbet.
  destruct (crash.GenerateCrashStep (tape w)) as [crashStep tape'] eqn:Hstep.
  simpl. unfold round.Get. simpl.
  split; [reflexivity|]. split; [reflexivity|].
  split; [apply lookup_insert_eq|].
  split.
  - pose proof (GenerateCrashStep_range (tape w)) as H. now rewrite Hstep in H.
  - intros other Hne. now apply lookup_insert_ne.
Qed.

Lemma startCrashRound_replaces_round_witness :
  let reply := handleCrashRoundStart (crashServer openRound)
                 (startRequest "tok" "c-1" 5) "provider"
                 (world [csprng.RandOk 7] atStep30 fs.WriteOk) in
  round.Get (crashStore (server reply)) "c-1"
  = Some {| round.CrashRound.RoundID := "c-1";
            round.CrashRound.BetID := "bet-1";
            round.CrashRound.Currency := "USD";
            round.CrashRound.Amount := 5%float;
            round.CrashRound.CrashStep := 17;
            round.CrashRound.StartedAt := atStep30;
            round.CrashRound.Settled := false |}.
Proof.
  exact (proj1 (proj2 (proj2
    (startCrashRound_replaces_round (crashServer openRound)
       (startRequest "tok" "c-1" 5) "provider"
       (world [csprng.RandOk 7] atStep30 fs.WriteOk) "bet-1"
       ltac:(discriminate) eq_refl eq_refl)))).
Defined.

(** *** The cashout against its reference definition *)

(** The step of the handler is the floor of the elapsed time over 100ms,
    floored at 0, as long as the elapsed time fits a [Duration]. *)
Lemma currentStep_elapsedStep now start :
  int64_range (now - start) ->
  currentStep now start = spec.elapsedStep now start.
Proof.
  unfold int64_range, currentStep, spec.elapsedStep, spec.stepDuration,
    time.Milliseconds, time.Since, time.minDuration, time.maxDuration.
  intros H. set (d := now - start) in *.
  replace (Z.max (- 2 ^ 63) (Z.min (2 ^ 63 - 1) d)) with d by lia.
  destruct (Z.neg_nonneg_cases d) as [Hneg|Hpos].
  - assert (Hq : Z.quot (Z.quot d 1000000) 100 <= 0).
    { replace d with (- (- d)) by lia.
      rewrite Z.quot_opp_l, Z.quot_opp_l by lia.
      pose proof (Z.quot_pos (Z.quot (- d) 1000000) 100).
      pose proof (Z.quot_pos (- d) 1000000). lia. }
    assert (Hd : d / 100000000 < 0) by (apply Z.div_lt_upper_bound; lia).
    destruct (_ <? 0) eqn:E; [lia|]. apply Z.ltb_ge in E. lia.
  - rewrite (Z.quot_div_nonneg d 1000000) by lia.
    rewrite Z.quot_div_nonneg by (try apply Z.div_pos; lia).
    rewrite Z.div_div by lia. change (1000000 * 100) with 100000000.
    pose proof (Z.div_pos d 100000000).
    destruct (_ <? 0) eqn:E; [apply Z.ltb_lt in E|]; lia.
Qed.

Lemma Multiplier_multiplier step :
  0 <= step -> crash.Multiplier step = spec.multiplier step.
Proof.
  intros H. unfold crash.Multiplier, spec.multiplier, crash.float64_of_int.
  now rewrite (proj2 (Z.ltb_ge step 0) H).
Qed.

(** C5, amended.  For every cashout request with a token and a round
    id, made while the elapsed time of the round fits a [Duration], the
    handler's result and the store it leaves are those of the reference
    definition in which a claimed step below 0 counts as step 0 and a win
    is settled only when the wallet accepts the payout; the handler draws
    nothing, changes nothing of the server but the crash store, and
    presents the result as follows.  Round-not-found for an unknown id:
    404, no wallet call.  Already-settled for a settled round: 409, no
    wallet call, store unchanged.  A validation error, the round left
    open, for a claimed step beyond the elapsed step: 400, no wallet call.
    A loss when the step, floored at 0, has reached the crash step: the
    response is not cashed out, crashed, with win amount 0, balance delta
    [- stake] and the crash step of the round; no wallet call.  Else, when
    the wallet accepts it, a win: one credit of the payout
    [stake * (1 + step * 0.01)], and a response cashed out, not crashed,
    with that payout and the balance delta [payout - stake].  Else a
    wallet error: 502 with the message of the wallet, after the one credit
    that was refused, the round left open. *)
Theorem cashoutCrashRound_refines_amended s req p w :
  CrashCashoutRequest.Token req <> "" ->
  CrashCashoutRequest.RoundID req <> "" ->
  (forall cr,
     round.Get (crashStore s) (CrashCashoutRequest.RoundID req) = Some cr ->
     int64_range (now w - round.CrashRound.StartedAt cr)) ->
  let reply := handleCrashCashout s req p w in
  let token := CrashCashoutRequest.Token req in
  let roundID := CrashCashoutRequest.RoundID req in
  let reference :=
    spec.cashoutAmended (crashStore s) roundID (CrashCashoutRequest.Step req) (now w)
      (spec.accepts (win w)) (disk w) in
  (spec.classify (response reply), crashStore (server reply)) = reference
  /\ server reply = withCrashStore s reference.2
  /\ rest reply = tape w
  /\ match reference.1 with
     | spec.RoundNotFound =>
         response reply = APIError StatusNotFound "round not found" "ROUND_NOT_FOUND"
         /\ calls reply = []
     | spec.AlreadySettled =>
         response reply
         = APIError StatusConflict "round already settled" "ROUND_SETTLED"
         /\ calls reply = []
     | spec.FutureStep =>
         response reply
         = APIError StatusBadRequest "cannot cash out in the future" "INVALID_STEP"
         /\ calls reply = []
     | spec.Lost winAmount balanceDelta =>
         calls reply = []
         /\ exists cr,
              round.Get (crashStore s) roundID = Some cr
              /\ response reply
                 = CrashCashout
                     {| CrashCashoutResponse.RoundID := roundID;
                        CrashCashoutResponse.CashedOut := false;
                        CrashCashoutResponse.WinAmount := winAmount;
                        CrashCashoutResponse.BalanceDelta := balanceDelta;
                        CrashCashoutResponse.Crashed := true;
                        CrashCashoutResponse.CrashStep := round.CrashRound.CrashStep cr |}
     | spec.Won payout balanceDelta =>
         exists cr,
           round.Get (crashStore s) roundID = Some cr
           /\ calls reply = [Win token (round.CrashRound.Currency cr) payout "Crash"]
           /\ response reply
              = CrashCashout
                  {| CrashCashoutResponse.RoundID := roundID;
                     CrashCashoutResponse.CashedOut := true;
                     CrashCashoutResponse.WinAmount := payout;
                     CrashCashoutResponse.BalanceDelta := balanceDelta;
                     CrashCashoutResponse.Crashed := false;
                     CrashCashoutResponse.CrashStep := 0 |}
     | spec.WalletFailed =>
         exists cr status msg,
           round.Get (crashStore s) roundID = Some cr
           /\ win w = WinErr status msg
           /\ calls reply
              = [Win token (round.CrashRound.Currency cr)
                   (round.CrashRound.Amount cr
                    * spec.multiplier (Z.max 0 (CrashCashoutRequest.Step req)))%float
                   "Crash"]
           /\ response reply = APIError StatusBadGateway msg "WIN_FAILED"
     | spec.Unspecified => False
     end.
Proof.
  intros Htok Hid Hrange. cbv zeta.
  unfold handleCrashCashout, spec.cashoutAmended.
  rewrite (eqb_empty_false _ Htok), (eqb_empty_false _ Hid).
  destruct (round.Get _ _) as [cr|] eqn:Hget;
    [|destruct s; repeat split; reflexivity].
  destruct (round.CrashRound.Settled cr);
    [destruct s; repeat split; reflexivity|].
  rewrite (currentStep_elapsedStep _ _ (Hrange _ eq_refl)).
  destruct (_ <? CrashCashoutRequest.Step req);
    [destruct s; repeat split; reflexivity|].
  replace (if CrashCashoutRequest.Step req <? 0 then 0 else CrashCashoutRequest.Step req)
    with (Z.max 0 (CrashCashoutRequest.Step req))
    by (destruct (_ <? 0) eqn:E; [apply Z.ltb_lt in E|apply Z.ltb_ge in E]; lia).
  destruct (_ <=? _).
  { repeat split. exists cr. split; reflexivity. }
  rewrite Multiplier_multiplier by lia.
  destruct (win w) as [|status msg] eqn:Hwin; simpl.
  - repeat split. exists cr. repeat split.
  - destruct s; repeat split. exists cr, status, msg. repeat split.
Qed.

(** C5 as stated fails, in three places.  A claimed step of -5 on a
    round of stake 10 is paid 10 by the handler and 9.5 by the reference
    definition.  When the wallet refuses the payout the handler answers
    with an error and leaves the round open, where the reference
    definition settles a win.  And past the range of a [Duration] the
    handler refuses as being in the future a step that the reference
    definition takes for a loss. *)
Lemma cashoutCrashRound_departs_from_reference :
  let s := crashServer openRound in
  let outcome step w := spec.classify (response
    (handleCrashCashout s (cashoutRequest "tok" "c-1" step) "provider" w)) in
  let reference step at_ := (spec.cashout (crashStore s) "c-1" step at_ fs.WriteOk).1 in
  (outcome (-5) (world [] atStep30 fs.WriteOk) = spec.Won 10 0
   /\ reference (-5) atStep30 = spec.Won 9.5 (-0.5)
   /\ outcome (-5) (world [] atStep30 fs.WriteOk) <> reference (-5) atStep30)
  /\ (outcome 30 (refusingWorld atStep30) = spec.WalletFailed
      /\ round.Get (crashStore (server
            (handleCrashCashout s (cashoutRequest "tok" "c-1" 30) "provider"
               (refusingWorld atStep30)))) "c-1" = Some openRound
      /\ reference 30 atStep30 = spec.Won 13 3)
  /\ (outcome 92233720370 (world [] (2 ^ 63 + 200000000) fs.WriteOk) = spec.FutureStep
      /\ reference 92233720370 (2 ^ 63 + 200000000) = spec.Lost 0 (-10)).
Proof.
  cbv zeta. split; [split; [|split]|split; [split; [|split]|split]];
    try (vm_compute; reflexivity).
  intros H. vm_compute in H. inversion H.
Qed.

Lemma cashoutCrashRound_refines_amended_witness :
  let w := world [] atStep30 fs.WriteOk in
  let reply := handleCrashCashout (crashServer openRound)
                 (cashoutRequest "tok" "c-1" 30) "provider" w in
  (spec.classify (response reply), crashStore (server reply))
  = spec.cashoutAmended (crashStore (crashServer openRound)) "c-1" 30 atStep30 true
      fs.WriteOk
  /\ spec.classify (response reply) = spec.Won 13 3
  /\ calls reply = [Win "tok" "USD" 13 "Crash"]
  /\ rest reply = [].
Proof.
  assert (Hrange : forall cr,
    round.Get (crashStore (crashServer openRound)) "c-1" = Some cr ->
    int64_range (now (world [] atStep30 fs.WriteOk) - round.CrashRound.StartedAt cr)).
  { intros cr H. vm_compute in H. inversion H; subst cr.
    unfold int64_range. simpl. unfold atStep30. lia. }
  destruct (cashoutCrashRound_refines_amended (crashServer openRound)
              (cashoutRequest "tok" "c-1" 30) "provider" (world [] atStep30 fs.WriteOk)
              ltac:(discriminate) ltac:(discriminate) Hrange)
    as (Href & _ & Hrest & Hwon).
  split; [exact Href|]. split; [reflexivity|]. split; [|exact Hrest].
  reflexivity.
Defined.

(** C7 as stated fails, in three ways.  After the status query closed
    the round, a start request under the same id puts a new open round
    there, and a later cashout on the id is paid.  After a restart the
    closed round is gone from the working set, and a later cashout is
    answered with round-not-found instead of the conflict.  And reaching
    the crash point does not by itself bar a win: as long as no status
    query has closed the round, a cashout that claims an earlier step is
    paid, here step 49 of a round that crashed at step 50, claimed at
    step 65. *)
Lemma cashout_after_crash_point_can_pay :
  let closed := server (handleCrashStatus (crashServer openRound) "c-1" "tok"
                          (world [] atStep55 fs.WriteOk)) in
  let later := world [] (atStep55 + 1000000000) fs.WriteOk in
  let reused := server (handleCrashRoundStart closed (startRequest "tok" "c-1" 5)
                          "provider" (world [csprng.RandOk 7] atStep55 fs.WriteOk)) in
  let restarted := withCrashStore closed (round.restart (crashStore closed)) in
  (round.Get (crashStore closed) "c-1" = Some (round.settle openRound)
   /\ response (handleCrashCashout reused (cashoutRequest "tok" "c-1" 10) "provider" later)
      = cashoutAnswer "c-1" true 5.5 0.5 false 0)
  /\ response (handleCrashCashout restarted (cashoutRequest "tok" "c-1" 10) "provider" later)
     = APIError StatusNotFound "round not found" "ROUND_NOT_FOUND"
  /\ (currentStep (now later) (round.CrashRound.StartedAt openRound) = 65
      /\ round.CrashRound.CrashStep openRound = 50
      /\ response (handleCrashCashout (crashServer openRound)
                     (cashoutRequest "tok" "c-1" 49) "provider" later)
         = cashoutAnswer "c-1" true 14.9 4.9000000000000004 false 0).
Proof. vm_compute. repeat split. Qed.

Lemma crashRoundStatus_closes_crashed_round_witness :
  let reply := handleCrashStatus (crashServer openRound) "c-1" "tok"
                 (world [] atStep55 fs.WriteOk) in
  round.Get (crashStore (server reply)) "c-1" = Some (round.settle openRound)
  /\ handleCrashCashout (server reply) (cashoutRequest "tok" "c-1" 30) "provider"
       (world [] atStep55 fs.WriteOk)
     = {| response := alreadySettled; server := server reply; calls := []; rest := [] |}.
Proof.
  destruct (crashRoundStatus_closes_crashed_round "c-1" "tok" (crashServer openRound)
              (world [] atStep55 fs.WriteOk) openRound
              ltac:(discriminate) ltac:(discriminate) eq_refl eq_refl
              ltac:(apply Z.leb_le; reflexivity))
    as (_ & _ & Hclosed & Hlater).
  split; [exact Hclosed|].
  exact (Hlater [] _ eq_refl ltac:(constructor) (cashoutRequest "tok" "c-1" 30) "provider"
           (world [] atStep55 fs.WriteOk) eq_refl ltac:(discriminate)).
Defined.

(** *** Concurrent cashouts *)

Ltac move_goroutine :=
  cbv beta iota zeta delta
    [goroutines.run goroutines.step goroutines.stepCashout goroutines.stepStatus
     goroutines.arrive goroutines.moveTo
     goroutines.point goroutines.job goroutines.world
     lookup list_lookup insert list_insert app].

(** A goroutine that runs alone does what the handler does. *)
Lemma cashout_goroutine_alone s req p w :
  let reply := handleCrashCashout s req p w in
  let g := goroutines.arrive (goroutines.CashoutJob req) w in
  goroutines.run s [g] [0; 0; 0; 0]%nat
  = (server reply, [goroutines.moveTo g (goroutines.Answered (response reply))],
     calls reply).
Proof.
  cbv zeta. unfold handleCrashCashout. move_goroutine.
  destruct (String.eqb (CrashCashoutRequest.Token req) ""); [reflexivity|].
  destruct (String.eqb (CrashCashoutRequest.RoundID req) ""); [reflexivity|].
  destruct (round.Get (crashStore s) (CrashCashoutRequest.RoundID req)) as [cr|] eqn:Hget;
    [|reflexivity].
  move_goroutine. rewrite Hget.
  destruct (round.CrashRound.Settled cr); [reflexivity|].
  destruct (_ <? CrashCashoutRequest.Step req); [reflexivity|].
  destruct (_ <=? _); [reflexivity|].
  move_goroutine. destruct (win w); reflexivity.
Qed.

Lemma status_goroutine_alone s roundID token w :
  let reply := handleCrashStatus s roundID token w in
  let g := goroutines.arrive (goroutines.StatusJob roundID token) w in
  goroutines.run s [g] [0; 0; 0]%nat
  = (server reply, [goroutines.moveTo g (goroutines.Answered (response reply))],
     calls reply).
Proof.
  cbv zeta. unfold handleCrashStatus. move_goroutine.
  destruct (String.eqb roundID "" || String.eqb token ""); [reflexivity|].
  destruct (round.Get (crashStore s) roundID) as [cr|] eqn:Hget; [|reflexivity].
  move_goroutine.
  destruct (_ <=? _); [reflexivity | destruct s; reflexivity].
Qed.

(** C2 as stated fails.  Two cashouts of the same open round that both
    fetch the round before either settles it are both paid: two wallet
    credits of 13 for one stake of 10.  A cashout that has fetched the
    round at step 49 is paid 14.9 after a status query, at step 55, has
    reported the crash and closed the round.  And when two cashouts run one
    after the other, the second is refused with the conflict; it is not
    answered with the recorded outcome. *)
Lemma concurrent_cashouts_both_pay :
  let cashout step at_ :=
    goroutines.arrive (goroutines.CashoutJob (cashoutRequest "tok" "c-1" step))
      (world [] at_ fs.WriteOk) in
  let status at_ :=
    goroutines.arrive (goroutines.StatusJob "c-1" "tok") (world [] at_ fs.WriteOk) in
  let paid := cashoutAnswer "c-1" true 13 3 false 0 in
  let side_by_side :=
    goroutines.run (crashServer openRound) [cashout 30 atStep30; cashout 30 atStep30]
      [0; 1; 0; 1; 0; 1; 0; 1]%nat in
  let overtaken :=
    goroutines.run (crashServer openRound) [cashout 49 atStep49; status atStep55]
      [0; 0; 1; 1; 1; 0; 0]%nat in
  let in_sequence :=
    goroutines.run (crashServer openRound) [cashout 30 atStep30; cashout 30 atStep30]
      [0; 0; 0; 0; 1; 1; 1; 1]%nat in
  (goroutines.answers side_by_side.1.2 = [Some paid; Some paid]
   /\ side_by_side.2 = [Win "tok" "USD" 13 "Crash"; Win "tok" "USD" 13 "Crash"])
  /\ (goroutines.answers overtaken.1.2
      = [Some (cashoutAnswer "c-1" true 14.9 4.9000000000000004 false 0);
         Some (CrashStatus
                 {| CrashStatusResponse.roundId := "c-1";
                    CrashStatusResponse.currentStep := 55;
                    CrashStatusResponse.multiplier := Some 1.55%float;
                    CrashStatusResponse.crashed := true;
                    CrashStatusResponse.crashStep := Some 50;
                    CrashStatusResponse.crashMultiplier := Some 1.5%float |})]
      /\ overtaken.2 = [Win "tok" "USD" 14.9 "Crash"])
  /\ (goroutines.answers in_sequence.1.2 = [Some paid; Some alreadySettled]
      /\ in_sequence.2 = [Win "tok" "USD" 13 "Crash"]).
Proof. vm_compute. repeat split. Qed.

Lemma settlement_attempts_in_sequence_witness :
  let w := world [] atStep30 fs.WriteOk in
  let first := handleCrashCashout (crashServer openRound)
                 (cashoutRequest "tok" "c-1" 30) "provider" w in
  let second := handleCrashCashout (server first)
                  (cashoutRequest "tok" "c-1" 30) "provider" w in
  response first = cashoutAnswer "c-1" true 13 3 false 0
  /\ calls second = []
  /\ response second = alreadySettled.
Proof.
  split; [reflexivity|].
  destruct (settlement_attempts_in_sequence "c-1" (crashServer openRound) openRound
              (Cashout (cashoutRequest "tok" "c-1" 30) "provider")
              (world [] atStep30 fs.WriteOk)
              (Cashout (cashoutRequest "tok" "c-1" 30) "provider")
              (world [] atStep30 fs.WriteOk) _ _
              ltac:(discriminate) eq_refl eq_refl
              ltac:(split; [reflexivity|discriminate])
              ltac:(split; [reflexivity|discriminate])
              eq_refl eq_refl I)
    as (_ & Hcalls & _ & Hrefused).
  split; [exact Hcalls|].
  exact (proj1 (Hrefused _ _ eq_refl)).
Defined.

End CrashRounds.

(** ** Further properties of the packages *)

Section Registry.

Import gamemath fixtures.

(** [Register] under a non-empty id makes the model the one [Get] returns
    for that id, in place of any earlier one and whatever becomes of the
    write; the models under other ids are untouched; and after a
    successful write the file holds the whole registry. *)
Theorem Register_Get (s : Store) (m : GameMath) (w : fs.WriteResult) :
  ModelID m <> "" ->
  let s' := (Register s (Some m) w).1 in
  Get s' (ModelID m) = Some m
  /\ (forall other, other <> ModelID m -> Get s' other = Get s other)
  /\ (Register s (Some m) w).2 = fs.succeeded w
  /\ (w = fs.WriteOk -> file s' = Some (map_to_list (math s'))).
Proof.
  intros Hid. unfold Register. rewrite (proj2 (String.eqb_neq _ _) Hid).
  unfold saveLocked, Get. simpl. split; [apply lookup_insert_eq|].
  split; [intros other Hne; now apply lookup_insert_ne|].
  split; [reflexivity|]. intros ->. reflexivity.
Qed.

Lemma Register_Get_witness :
  Get (Register (Register {| math := ∅; file := None |}
                   (Some (model [tier "A" 0 1])) fs.WriteOk).1
         (Some (model [tier "B" 0 2])) fs.WriteRefused).1 "scratch_match3"
  = Some (model [tier "B" 0 2]).
Proof.
  exact (proj1 (Register_Get _ (model [tier "B" 0 2]) fs.WriteRefused
                  ltac:(discriminate))).
Defined.

(** One call of [Register] keeps every model under its own id, which is
    not empty. *)
Lemma Register_keyed (s : Store) (m : option GameMath) (w : fs.WriteResult) :
  (forall k g, Get s k = Some g -> ModelID g = k /\ k <> "") ->
  forall k g, Get (Register s m w).1 k = Some g -> ModelID g = k /\ k <> "".
Proof.
  intros Hs k g. unfold Register.
  destruct m as [m|]; [|apply Hs].
  destruct (String.eqb_spec (ModelID m) "") as [|Hid]; [apply Hs|].
  unfold saveLocked, Get. simpl.
  destruct (decide (ModelID m = k)) as [<-|Hne].
  - rewrite lookup_insert_eq. intros [= <-]. auto.
  - rewrite lookup_insert_ne by exact Hne. apply Hs.
Qed.

(** X3: the registry holds no model without an id.  A call of [Register]
    with a nil model, or with a model whose model id is empty, returns no
    error and leaves the registry and its file as they are, whatever the
    disk would have done.  So, starting from a registry in which every
    model sits under its own model id, which is not empty (the empty
    registry is one), after any calls of [Register] that is still so:
    [Get] returns for an id only a model of that id, and nil for the empty
    id. *)
Theorem Register_nil_or_unnamed (s : Store)
    (ms : list (option GameMath * fs.WriteResult)) :
  (forall k g, Get s k = Some g -> ModelID g = k /\ k <> "") ->
  (forall k g, Get (RegisterAll s ms) k = Some g -> ModelID g = k /\ k <> "")
  /\ Get (RegisterAll s ms) "" = None
  /\ (Forall (fun mw => forall g, mw.1 = Some g -> ModelID g = "") ms ->
      RegisterAll s ms = s
      /\ Forall (fun mw => forall s0, Register s0 mw.1 mw.2 = (s0, true)) ms).
Proof.
  intros Hs.
  assert (Hkeyed : forall k g,
            Get (RegisterAll s ms) k = Some g -> ModelID g = k /\ k <> "").
  { revert s Hs. unfold RegisterAll.
    induction ms as [|[m w] ms IH]; intros s Hs; [exact Hs|].
    simpl. apply IH. now apply Register_keyed. }
  split; [exact Hkeyed|]. split.
  - destruct (Get (RegisterAll s ms) "") as [g|] eqn:E; [|reflexivity].
    now destruct (Hkeyed _ _ E) as [_ H].
  - intros Hall. clear Hs Hkeyed. revert s. unfold RegisterAll.
    induction Hall as [|[m w] ms Hm Hall IH]; intros s; [split; [reflexivity|constructor]|].
    assert (Hnothing : forall s0, Register s0 m w = (s0, true)).
    { intros s0. unfold Register. destruct m as [g|]; [|reflexivity].
      simpl in Hm. now rewrite (Hm g eq_refl). }
    simpl. rewrite Hnothing. simpl. destruct (IH s) as [-> Hrest].
    split; [reflexivity|]. constructor; [exact Hnothing|exact Hrest].
Qed.

(** A nil model, a model without id on a failing disk and the model of
    the examples are registered in turn: the registry holds the last one
    under its id and nothing under the empty id. *)
Lemma Register_nil_or_unnamed_witness :
  let unnamed :=
    {| SchemaVersion := 1; ModelID := ""; ModelVersion := "1.0.0";
       Mechanic_ := {| Type_ := "match_3"; MatchCount := 3 |};
       MathMode := "UNLIMITED"; WinLogic := "SINGLE_WIN";
       PrizeTable := [tier "A" 2 1]; Stats := None; Integrity_ := None |} in
  let s :=
    RegisterAll {| math := ∅; file := None |}
      [(None, fs.WriteOk); (Some unnamed, fs.WriteRefused);
       (Some distribution, fs.WriteOk)] in
  Get s "" = None /\ Get s (ModelID distribution) = Some distribution.
Proof.
  cbv zeta. split; [|reflexivity].
  refine (proj1 (proj2 (Register_nil_or_unnamed {| math := ∅; file := None |} _ _))).
  intros k g H. discriminate H.
Defined.

End Registry.

Section Fairness.

Import gamemath fixtures.

Lemma exactWeight_nonneg tbl : 0 <= exactWeight tbl.
Proof.
  induction tbl as [|t tbl IH]; simpl; [lia|].
  destruct (Weight t <=? 0) eqn:E; [exact IH|]. apply Z.leb_gt in E. lia.
Qed.

Lemma walk_selects tbl : forall idx cum i t,
  0 <= cum -> cum + exactWeight tbl < 2 ^ 63 ->
  tbl !! i = Some t -> 0 < Weight t ->
  cum + exactWeight (take i tbl) <= idx < cum + exactWeight (take i tbl) + Weight t ->
  walk idx cum tbl = Some t.
Proof.
  induction tbl as [|t0 tbl IH]; intros idx cum i t Hcum Hb Hi Hw Hidx; [discriminate|].
  pose proof (exactWeight_nonneg tbl) as Hpos.
  destruct i as [|i]; simpl in Hi, Hidx |- *.
  - inversion Hi; subst t0.
    rewrite (proj2 (Z.leb_gt _ _) Hw).
    unfold add64. rewrite wrap64_id by (unfold int64_range; simpl in Hb;
      rewrite (proj2 (Z.leb_gt _ _) Hw) in Hb; lia).
    rewrite (proj2 (Z.ltb_lt _ _)) by lia. reflexivity.
  - simpl in Hb. pose proof (exactWeight_nonneg (take i tbl)) as Hpos'.
    destruct (Weight t0 <=? 0) eqn:E.
    + eapply IH; eauto.
    + apply Z.leb_gt in E.
      unfold add64. rewrite wrap64_id by (unfold int64_range; lia).
      rewrite (proj2 (Z.ltb_ge _ _)) by lia.
      eapply IH; eauto; lia.
Qed.

Lemma exactWeight_take_le tbl : forall i t,
  tbl !! i = Some t -> 0 < Weight t ->
  exactWeight (take i tbl) + Weight t <= exactWeight tbl.
Proof.
  induction tbl as [|a tbl IH]; intros i t Hi Hw; [discriminate|].
  destruct i as [|i]; simpl in *.
  - inversion Hi; subst a. rewrite (proj2 (Z.leb_gt _ _) Hw).
    pose proof (exactWeight_nonneg tbl). lia.
  - specialize (IH _ _ Hi Hw). destruct (Weight a <=? 0) eqn:E; [lia|].
    apply Z.leb_gt in E. lia.
Qed.

(** Every index below the total lies in the span of a tier of positive
    weight. *)
Lemma exactWeight_covers tbl : forall idx,
  0 <= idx < exactWeight tbl ->
  exists i t, tbl !! i = Some t /\ 0 < Weight t
    /\ exactWeight (take i tbl) <= idx < exactWeight (take i tbl) + Weight t.
Proof.
  induction tbl as [|a tbl IH]; intros idx Hidx; simpl in Hidx; [lia|].
  destruct (Weight a <=? 0) eqn:E.
  - destruct (IH idx Hidx) as (i & t & Hi & Hw & Hspan).
    exists (S i), t. simpl. rewrite E. auto.
  - apply Z.leb_gt in E. destruct (Z.lt_ge_cases idx (Weight a)) as [Hlt|Hge].
    + exists 0%nat, a. simpl. repeat split; auto; lia.
    + destruct (IH (idx - Weight a) ltac:(lia)) as (i & t & Hi & Hw & Hspan).
      exists (S i), t. simpl. rewrite (proj2 (Z.leb_gt _ _) E).
      repeat split; auto; lia.
Qed.

(** The spans of two tiers of positive weight do not meet. *)
Lemma exactWeight_spans_apart tbl (i j : nat) ti tj :
  (i < j)%nat -> tbl !! i = Some ti -> tbl !! j = Some tj -> 0 < Weight ti ->
  exactWeight (take i tbl) + Weight ti <= exactWeight (take j tbl).
Proof.
  intros Hij Hi Hj Hw.
  replace (take i tbl) with (take i (take j tbl))
    by (rewrite take_take; f_equal; lia).
  apply exactWeight_take_le; [|exact Hw].
  now rewrite lookup_take_lt.
Qed.

(** X1: the share of each tier.  In a table whose positive weights sum to
    a total between 1 and 2^63 - 1, when [rand.Int] returns the index
    [idx] for that total, [PickTier] returns the tier of the one position
    [i] whose span holds [idx], and leaves the tape as [rand.Int] left it
    (untouched for a total of 1).  The span of position [i] starts at the
    total of the positive weights before it and has the length of its
    weight, so the tier is drawn for exactly that many of the indices. *)
Theorem PickTier_selects (m : GameMath) (tape tape' : csprng.Tape) (idx : Z) :
  0 < exactWeight (PrizeTable m) < 2 ^ 63 ->
  csprng.Int (exactWeight (PrizeTable m)) tape = (Some idx, tape') ->
  exists i t,
    PrizeTable m !! i = Some t /\ 0 < Weight t
    /\ exactWeight (take i (PrizeTable m)) <= idx
       < exactWeight (take i (PrizeTable m)) + Weight t
    /\ PickTier (Some m) tape = (t, true, tape')
    /\ forall j t',
         PrizeTable m !! j = Some t' -> 0 < Weight t' ->
         exactWeight (take j (PrizeTable m)) <= idx
         < exactWeight (take j (PrizeTable m)) + Weight t' ->
         j = i.
Proof.
  intros Hb Hint.
  destruct (csprng_Int_Some _ _ _ _ (proj1 Hb) Hint) as (Hidx & _).
  destruct (exactWeight_covers _ _ Hidx) as (i & t & Hi & Hw & Hspan).
  exists i, t. repeat split; try assumption; try lia.
  - unfold PickTier.
    destruct (PrizeTable m) as [|t0 tbl] eqn:Htbl; [discriminate|].
    rewrite sumWeights_exact by lia. rewrite Z.add_0_l.
    rewrite (proj2 (Z.leb_gt _ _) (proj1 Hb)), Hint.
    rewrite (walk_selects (t0 :: tbl) idx 0 i t); try lia; auto.
  - intros j t' Hj Hw' Hspan'.
    destruct (Nat.lt_trichotomy i j) as [Hlt|[Heq|Hgt]]; [|now symmetry|].
    + pose proof (exactWeight_spans_apart _ _ _ _ _ Hlt Hi Hj Hw). lia.
    + pose proof (exactWeight_spans_apart _ _ _ _ _ Hgt Hj Hi Hw'). lia.
Qed.

(** With a total of 100, the index 89 is in the span of the second tier;
    with a total of 1, the only tier is returned though the reader has
    nothing to deliver. *)
Lemma PickTier_selects_witness :
  PickTier (Some distribution) [csprng.RandOk 89] = (tier "T1" 2 20, true, [])
  /\ PickTier (Some (model [tier "ONLY" 2 1])) [] = (tier "ONLY" 2 1, true, []).
Proof.
  split.
  - destruct (PickTier_selects distribution [csprng.RandOk 89] [] 89
                ltac:(vm_compute; split; reflexivity) eq_refl)
      as (i & t & Hi & _ & _ & -> & Hone).
    rewrite <- (Hone 1%nat (tier "T1" 2 20) eq_refl eq_refl
                  ltac:(vm_compute; split; [discriminate | reflexivity])) in Hi.
    injection Hi as <-. reflexivity.
  - destruct (PickTier_selects (model [tier "ONLY" 2 1]) [] [] 0
                ltac:(vm_compute; split; reflexivity) eq_refl)
      as (i & t & Hi & _ & _ & -> & Hone).
    rewrite <- (Hone 0%nat (tier "ONLY" 2 1) eq_refl eq_refl
                  ltac:(vm_compute; split; [discriminate | reflexivity])) in Hi.
    injection Hi as <-. reflexivity.
Defined.

End Fairness.

Section LegacyGenerator.

Import scratch fixtures.

Lemma secureIntn_range n tape : 0 < n -> 0 <= (secureIntn n tape).1 < n.
Proof.
  intros Hn. unfold secureIntn. rewrite (proj2 (Z.leb_gt _ _) Hn).
  destruct (csprng.Int n tape) as [[v|] tape'] eqn:H; simpl; [|lia].
  now apply csprng_Int_Some in H.
Qed.

Lemma symbolAt_symbol i : 0 <= i < nsymbols -> In (symbolAt i) symbols.
Proof.
  unfold nsymbols, symbolAt. simpl. intros H.
  assert (Hi : i = 0 \/ i = 1 \/ i = 2 \/ i = 3) by lia.
  destruct Hi as [Hi|[Hi|[Hi|Hi]]]; subst i; simpl; auto.
Qed.

(** The legacy generator, as [TestGenerate_Legacy] checks it: the three
    symbols are symbols of the card; [Match] tells whether they are all
    equal; a match pays the stake times [WinMultiplier], anything else
    pays 0. *)
Theorem Generate_legacy (betAmount : float) (tape : csprng.Tape) :
  let o := (Generate betAmount tape).1 in
  (In (Symbols o).1.1 symbols /\ In (Symbols o).1.2 symbols /\ In (Symbols o).2 symbols)
  /\ (Match o = true <-> fullMatch (Symbols o))
  /\ WinAmount o = (if Match o then betAmount * WinMultiplier else 0)%float
  /\ Tier o = "".
Proof.
  unfold Generate, draw3.
  pose proof (secureIntn_range nsymbols tape eq_refl) as H0.
  destruct (secureIntn nsymbols tape) as [i0 tape0].
  pose proof (secureIntn_range nsymbols tape0 eq_refl) as H1.
  destruct (secureIntn nsymbols tape0) as [i1 tape1].
  pose proof (secureIntn_range nsymbols tape1 eq_refl) as H2.
  destruct (secureIntn nsymbols tape1) as [i2 tape2].
  cbn [fst snd Symbols Match WinAmount Tier] in *.
  split; [repeat split; now apply symbolAt_symbol|].
  split; [apply allSame_fullMatch|]. split; reflexivity.
Qed.

(** A losing tier is rendered as soon as a draw after the first three
    shows a symbol other than the first. *)
Lemma GenerateWithMath_returns_on_loss betAmount m tape t tape1 :
  gamemath.PickTier (Some m) tape = (t, true, tape1) ->
  (exists d, In d (draw3 tape1).2
             /\ symbolAt (secureIntn nsymbols [d]).1 <> (draw3 tape1).1.1.1) ->
  is_Some (GenerateWithMath betAmount (Some m) tape).
Proof.
  intros Hpick Hd. unfold GenerateWithMath. rewrite Hpick. simpl.
  destruct (_ || _).
  - destruct (draw3 tape1) as [s tape2]. simpl in Hd.
    destruct (redraw_returns tape2 s Hd) as [[s' tape3] ->]. eauto.
  - destruct (secureIntn nsymbols tape1). eauto.
Qed.

End LegacyGenerator.

Section WorkingSet.

Import server fixtures.

(** The operations of the store keep every round under its own id. *)
Lemma keyed_load l : round.keyed (round.NewCrashStore (Some l)).
Proof.
  intros k r H. simpl in H. unfold round.load in H.
  apply load_lookup in H as [H|(_ & _ & H)]; [|exact H].
  now rewrite lookup_empty in H.
Qed.

Lemma keyed_Create s roundID betID currency amount crashStep now w :
  round.keyed s ->
  round.keyed (round.Create s roundID betID currency amount crashStep now w).2.
Proof.
  intros Hk k r. unfold round.Create. simpl. rewrite lookup_insert.
  destruct (decide (roundID = k)) as [<-|]; [|apply Hk].
  intros H. inversion H. reflexivity.
Qed.

Lemma keyed_Settle s roundID w : round.keyed s -> round.keyed (round.Settle s roundID w).
Proof.
  intros Hk k r. unfold round.Settle.
  destruct (round.rounds s !! roundID) as [r0|] eqn:H0; [|apply Hk].
  simpl. rewrite lookup_insert. destruct (decide (roundID = k)) as [<-|]; [|apply Hk].
  intros H. inversion H. simpl. now apply Hk.
Qed.

Lemma crashRoundStatus_after_restart_example :
  let closed := server (handleCrashStatus (crashServer openRound) "c-1" "tok"
                          (world [] atStep55 fs.WriteOk)) in
  round.Get (crashStore closed) "c-1" = Some (round.settle openRound)
  /\ response (handleCrashStatus
       (withCrashStore closed (round.restart (round.save (crashStore closed) fs.WriteOk)))
       "c-1" "tok" (world [] atStep55 fs.WriteOk))
     = CrashStatus
         {| CrashStatusResponse.roundId := "c-1";
            CrashStatusResponse.currentStep := 0;
            CrashStatusResponse.multiplier := None;
            CrashStatusResponse.crashed := false;
            CrashStatusResponse.crashStep := None;
            CrashStatusResponse.crashMultiplier := None |}.
Proof.
  split; [reflexivity|].
  apply (crashRoundStatus_after_restart
           (server (handleCrashStatus (crashServer openRound) "c-1" "tok"
                      (world [] atStep55 fs.WriteOk)))
           "c-1" "tok" (world [] atStep55 fs.WriteOk)).
  - discriminate.
  - discriminate.
  - apply keyed_Settle. intros k r H. simpl in H.
    apply lookup_singleton_Some in H as [<- <-]. reflexivity.
  - intros r H. vm_compute in H. inversion H. reflexivity.
Defined.

End WorkingSet.

Section Replay.

Import server fixtures.

(** A recorded result stays the one the ledger gives for its round
    through every scratch request whose write is not torn: a request for
    the same round is replayed and writes nothing, a request for another
    round appends after it. *)
Lemma handleScratchRoundStart_keeps_record r rec s req p g w reply :
  round.GetByRoundID (results s) r = (Some rec, true) ->
  disk w <> fs.WriteTorn ->
  handleScratchRoundStart s req p g w = Some reply ->
  round.GetByRoundID (results (server reply)) r = (Some rec, true).
Proof.
  intros Hrec Hdisk H. destruct (accepted req) eqn:Hacc.
  2:{ destruct (handleScratchRoundStart_rejected s req p g Hacc) as (st & m & c & E).
      rewrite E in H. inversion H; exact Hrec. }
  rewrite handleScratchRoundStart_accepted in H by exact Hacc. cbv zeta in H.
  destruct (round.GetByRoundID (results s) (orDefault (requestRoundID req) (uuid w)))
    as [[existing|] [|]] eqn:Hget.
  1:{ inversion H; exact Hrec. }
  all: destruct (drawOutcome _ _ _ _) as [[o tape']|]; [|discriminate];
       inversion H as [Hreply]; clear H;
       match type of Hreply with
       | settleOutcome ?s ?w ?sid ?cur ?rid ?dev ?gc ?bet ?o ?t = _ =>
           destruct (settleOutcome_cases s w sid cur rid dev gc bet o t)
             as [Hs|(delta & _ & Hs)]
       end; rewrite Hs; try exact Hrec; simpl;
       rewrite GetByRoundID_Append;
       (destruct (round.marshals _); [|exact Hrec]);
       (destruct (disk w); [|exact Hrec|congruence]);
       match goal with
       | |- context [round.Result.RoundID (scratchResult ?rid ?o ?d ?n)] =>
           assert (Hid : round.Result.RoundID (scratchResult rid o d n) = rid)
             by (unfold scratchResult; destruct (scratch.Symbols o) as [[? ?] ?];
                 reflexivity);
           rewrite Hid
       end;
       (destruct (String.eqb_spec (orDefault (requestRoundID req) (uuid w)) r) as [E|_];
        [rewrite E, Hrec in Hget; discriminate|]);
       destruct (results s) as [l|]; [|discriminate]; exact Hrec.
Qed.

Lemma handleCrashRoundStart_results s req p w :
  results (server (handleCrashRoundStart s req p w)) = results s.
Proof.
  unfold handleCrashRoundStart.
  destruct (String.eqb _ ""); [reflexivity|].
  destruct (_ <=? 0)%float; [reflexivity|].
  destruct (bet w); [|reflexivity].
  destruct (crash.GenerateCrashStep (tape w)) as [crashStep tape'].
  destruct (round.Create _ _ _ _ _ _ _ _) as [cr store]. reflexivity.
Qed.

Lemma serve_keeps_record r rec s rq w reply :
  serve s rq w = Some reply ->
  writesWhole (rq, w) ->
  round.GetByRoundID (results s) r = (Some rec, true) ->
  round.GetByRoundID (results (server reply)) r = (Some rec, true).
Proof.
  intros Hserve Hdisk Hrec.
  destruct rq as [req p g|req p|req p|id token]; simpl in Hserve.
  - eapply handleScratchRoundStart_keeps_record; eauto.
  - inversion Hserve; subst reply. now rewrite handleCrashRoundStart_results.
  - inversion Hserve; subst reply.
    destruct (handleCrashCashout_store s req p w) as [-> | ->]; exact Hrec.
  - inversion Hserve; subst reply.
    destruct (handleCrashStatus_store s id token w) as [-> | ->]; exact Hrec.
Qed.

Lemma serveAll_keeps_record r rec rs : forall s s',
  serveAll s rs = Some s' ->
  Forall writesWhole rs ->
  round.GetByRoundID (results s) r = (Some rec, true) ->
  round.GetByRoundID (results s') r = (Some rec, true).
Proof.
  induction rs as [|[rq w] rs IH]; intros s s' Hall Hno Hrec; simpl in Hall.
  - now inversion Hall; subst.
  - destruct (serve s rq w) as [reply|] eqn:Hserve; [|discriminate].
    inversion Hno; subst.
    eapply IH; eauto using serve_keeps_record.
Qed.

(** X7: the replay through the round requests of the providers.  Once a
    call for round [r] was answered with a scratch response and the
    ledger holds the result, the round is replayed after any scratch
    round starts, crash round starts, cashouts and status queries served
    in between whose writes are whole: an accepted call for [r] answers
    with the round id, symbols, win amount and balance delta of the first
    response, with no wallet call and no draw.  The requests in between
    are those four kinds only; a round of Hi/Lo, which writes the same
    ledger, is not among them. *)
Theorem replay_after_requests r s req p g w reply1 resp1 rec rs s2 req2 p2 g2 w2 :
  requestRoundID req = r -> r <> "" ->
  handleScratchRoundStart s req p g w = Some reply1 ->
  response reply1 = ScratchRoundStart resp1 ->
  round.GetByRoundID (results (server reply1)) r = (Some rec, true) ->
  serveAll (server reply1) rs = Some s2 ->
  Forall writesWhole rs ->
  requestRoundID req2 = r -> accepted req2 = true ->
  exists resp2,
    handleScratchRoundStart s2 req2 p2 g2 w2 =
      Some {| response := ScratchRoundStart resp2; server := s2; calls := [];
              rest := tape w2 |}
    /\ ScratchRoundStartResponse.RoundID resp2 = ScratchRoundStartResponse.RoundID resp1
    /\ ScratchRoundStartResponse.Symbols resp2 = ScratchRoundStartResponse.Symbols resp1
    /\ ScratchRoundStartResponse.WinAmount resp2
       = ScratchRoundStartResponse.WinAmount resp1
    /\ ScratchRoundStartResponse.BalanceDelta resp2
       = ScratchRoundStartResponse.BalanceDelta resp1.
Proof.
  intros Hr Hne Hcall Hresp Hrec Hall Hwhole Hr2 Hacc2.
  pose proof (handleScratchRoundStart_shows_record _ _ _ _ _ _ _ _ _
                Hr Hne Hcall Hresp Hrec) as (E1 & E2 & E3 & E4).
  pose proof (serveAll_keeps_record _ _ _ _ _ Hall Hwhole Hrec) as Hrec2.
  rewrite handleScratchRoundStart_accepted by exact Hacc2.
  cbv zeta. rewrite Hr2, (orDefault_nonempty r _ Hne), Hrec2.
  eexists. split; [reflexivity|]. simpl.
  repeat split; congruence.
Qed.

(** Round r-1 settled as a loss at stake 10; then other requests are
    served; then r-1 is asked for again at stake 25 and answered as it was
    settled the first time. *)
Lemma replay_after_requests_example :
  exists resp2,
    handleScratchRoundStart laterServer (scratchRequest "tok" 25 "r-1")
      "provider" "scratch_match3" (world winningTape 1700000005000000000 fs.WriteOk)
    = Some {| response := ScratchRoundStart resp2; server := laterServer;
              calls := []; rest := winningTape |}
    /\ ScratchRoundStartResponse.RoundID resp2 = "r-1"
    /\ ScratchRoundStartResponse.Symbols resp2 = ("cherry", "cherry", "lemon")
    /\ ScratchRoundStartResponse.WinAmount resp2 = 0%float
    /\ ScratchRoundStartResponse.BalanceDelta resp2 = (-10)%float.
Proof.
  refine (replay_after_requests "r-1"
            (withModel emptyServer distribution) (scratchRequest "tok" 10 "r-1")
            "provider" "scratch_match3"
            (world losingTape 1700000000000000000 fs.WriteOk)
            {| response :=
                 scratchAnswer "r-1" ("cherry", "cherry", "lemon") 0 (-10) "LOSE";
               server := settledServer;
               calls := [Bet "tok" "USD" 10 "Scratch"];
               rest := [] |}
            _ recordedLoss inBetween laterServer (scratchRequest "tok" 25 "r-1")
            "provider" "scratch_match3"
            (world winningTape 1700000005000000000 fs.WriteOk)
            eq_refl _ _ eq_refl _ _ _ eq_refl eq_refl).
  - discriminate.
  - vm_compute. reflexivity.
  - reflexivity.
  - vm_compute. reflexivity.
  - repeat constructor; discriminate.
Defined.

End Replay.

Section CrashStep.

(** The crash step of a new round lies in [CrashStepMin, CrashStepMax],
    whatever the random reader delivers, a failure included. *)
Theorem GenerateCrashStep_bounds (tape : csprng.Tape) :
  10 <= (crash.GenerateCrashStep tape).1 <= 400
  /\ (csprng.fails tape = true -> (crash.GenerateCrashStep tape).1 = crash.CrashStepMin).
Proof.
  split; [exact (GenerateCrashStep_range tape)|].
  intros H. unfold crash.GenerateCrashStep.
  destruct tape as [|[v|] tape]; try discriminate; reflexivity.
Qed.

End CrashStep.

(** ** round: the rounds of Hi/Lo *)

Section HiLoStore.

Implicit Types (s : hilo.Store) (r : hilo.Round).

Lemma hilo_secureIntn_range n tape : 0 < n -> 0 <= (hilo.secureIntn n tape).1 < n.
Proof.
  intros Hn. unfold hilo.secureIntn.
  destruct (n <=? 0) eqn:E; [lia|].
  destruct (csprng.Int n tape) as [[v|] tape'] eqn:H; simpl; [|lia].
  now apply csprng_Int_Some in H.
Qed.

Lemma NextNumber_range tape : 1 <= (hilo.NextNumber tape).1 <= 10.
Proof.
  unfold hilo.NextNumber.
  pose proof (hilo_secureIntn_range (hilo.maxNum - hilo.minNum + 1) tape) as H.
  destruct (hilo.secureIntn _ tape) as [v tape']. simpl in *.
  unfold hilo.minNum, hilo.maxNum in *. lia.
Qed.

(** What [load] makes of a list, starting from the map [m0]. *)
Lemma hilo_load_lookup l : forall (m0 : gmap string hilo.Round) k,
  NoDup (hilo.RoundID <$> l) ->
  Forall (fun r => hilo.RoundID r <> "") l ->
  foldl (fun m r => if String.eqb (hilo.RoundID r) "" then m
                    else <[hilo.RoundID r := r]> m) m0 l !! k
  = match List.find (fun r => String.eqb (hilo.RoundID r) k) l with
    | Some r => Some r
    | None => m0 !! k
    end.
Proof.
  induction l as [|r0 l IH]; intros m0 k Hnd Hne; [reflexivity|].
  rewrite fmap_cons in Hnd. apply NoDup_cons in Hnd as [Hnotin Hnd].
  apply Forall_cons in Hne as [Hr0 Hne].
  simpl. rewrite IH by assumption.
  destruct (String.eqb_spec (hilo.RoundID r0) "") as [|_]; [contradiction|].
  destruct (String.eqb_spec (hilo.RoundID r0) k) as [E|E].
  - destruct (List.find _ l) as [r|] eqn:Hf.
    + apply find_some in Hf as [Hin Hk]. apply String.eqb_eq in Hk.
      exfalso. apply Hnotin. rewrite E, <- Hk.
      apply list_elem_of_fmap. exists r. split; [reflexivity|].
      now apply list_elem_of_In.
    + subst k. now rewrite lookup_insert_eq.
  - destruct (List.find _ l); [reflexivity|]. now rewrite lookup_insert_ne.
Qed.

Lemma sound_values s :
  hilo.sound s ->
  (fun r => (hilo.RoundID r, r)) <$> (map_to_list (hilo.rounds s)).*2
  = map_to_list (hilo.rounds s).
Proof.
  intros Hs. rewrite <- list_fmap_compose.
  rewrite <- (list_fmap_id (map_to_list (hilo.rounds s))) at 2.
  apply Forall_fmap_ext_1, Forall_forall. intros [k r] Hin. simpl.
  apply elem_of_map_to_list in Hin.
  destruct (Hs _ _ Hin) as [-> _]. reflexivity.
Qed.

Lemma sound_marshals s :
  hilo.sound s ->
  forallb (fun r => round.finite (hilo.Amount r)) (map_to_list (hilo.rounds s)).*2 = true.
Proof.
  intros Hs. apply forallb_forall. intros r Hin.
  apply list_elem_of_In, list_elem_of_fmap in Hin as ([k r'] & -> & Hin).
  apply elem_of_map_to_list in Hin. now destruct (Hs _ _ Hin) as (_ & _ & ?).
Qed.

(** A sound store that was saved is read back as it was. *)
Lemma hilo_restart_save s :
  hilo.sound s ->
  hilo.rounds (hilo.restart (hilo.save s fs.WriteOk)) = hilo.rounds s.
Proof.
  intros Hs. unfold hilo.restart, hilo.save. rewrite (sound_marshals s Hs). simpl.
  apply map_eq. intros k. unfold hilo.load.
  pose proof (sound_values s Hs) as Hv.
  assert (Hkeys : hilo.RoundID <$> (map_to_list (hilo.rounds s)).*2
                  = (map_to_list (hilo.rounds s)).*1).
  { rewrite <- Hv at 2.
    rewrite <- (list_fmap_compose (fun r => (hilo.RoundID r, r)) fst). reflexivity. }
  rewrite hilo_load_lookup.
  - rewrite lookup_empty.
    destruct (List.find _ _) as [r|] eqn:Hf.
    + apply find_some in Hf as [Hin Hk]. apply String.eqb_eq in Hk.
      apply list_elem_of_In, list_elem_of_fmap in Hin as ([k' r'] & -> & Hin).
      apply elem_of_map_to_list in Hin. simpl in *.
      destruct (Hs _ _ Hin) as [E _]. rewrite E in Hk. subst k'. now rewrite Hin.
    + destruct (hilo.rounds s !! k) as [r|] eqn:Hk; [|reflexivity].
      exfalso. assert (Hin : In r (map_to_list (hilo.rounds s)).*2).
      { apply list_elem_of_In, list_elem_of_fmap. exists (k, r).
        split; [reflexivity|]. now apply elem_of_map_to_list. }
      apply (find_none _ _ Hf) in Hin.
      destruct (Hs _ _ Hk) as [E _]. rewrite E, String.eqb_refl in Hin.
      discriminate.
  - rewrite Hkeys. apply NoDup_fst_map_to_list.
  - apply Forall_forall. intros r Hin.
    apply list_elem_of_fmap in Hin as ([k' r'] & -> & Hin).
    apply elem_of_map_to_list in Hin. simpl.
    destruct (Hs _ _ Hin) as (-> & ? & _). assumption.
Qed.

Lemma hilo_rounds_save s w : hilo.rounds (hilo.save s w) = hilo.rounds s.
Proof. unfold hilo.save. destruct (forallb _ _); reflexivity. Qed.

Lemma sound_save s w : hilo.sound s -> hilo.sound (hilo.save s w).
Proof. unfold hilo.sound. now rewrite hilo_rounds_save. Qed.

Lemma sound_Create s roundID betID currency amount now tape w :
  hilo.sound s -> roundID <> "" -> round.finite amount = true ->
  hilo.sound (hilo.Create s roundID betID currency amount now tape w).1.2.
Proof.
  intros Hs Hne Hfin. unfold hilo.Create.
  destruct (hilo.NextNumber tape) as [num tape']. simpl.
  apply sound_save. intros k r. simpl. rewrite lookup_insert.
  destruct (decide (roundID = k)) as [<-|]; [|apply Hs].
  intros H. inversion H. auto.
Qed.

Lemma sound_Delete s roundID w : hilo.sound s -> hilo.sound (hilo.Delete s roundID w).
Proof.
  intros Hs. apply sound_save. intros k r. simpl. intros H.
  apply lookup_delete_Some in H as [_ H]. now apply Hs.
Qed.

Lemma Get_Delete s roundID w : hilo.Get (hilo.Delete s roundID w) roundID = None.
Proof.
  unfold hilo.Get, hilo.Delete. rewrite hilo_rounds_save. simpl.
  apply lookup_delete_eq.
Qed.

Lemma Get_Create_eq s roundID betID currency amount now tape w :
  let '(r, s', _) := hilo.Create s roundID betID currency amount now tape w in
  hilo.Get s' roundID = Some r.
Proof.
  unfold hilo.Create. destruct (hilo.NextNumber tape) as [num tape'].
  unfold hilo.Get. rewrite hilo_rounds_save. simpl. apply lookup_insert_eq.
Qed.

End HiLoStore.

Lemma site_request_wellFormed choice :
  choice = "higher" \/ choice = "lower" -> hilorules.wellFormed (site.endRequest choice).
Proof. intros H. repeat split; try discriminate. exact H. Qed.

Lemma site_rounds_sound : hilo.sound site.rounds.
Proof.
  intros k r H. unfold site.rounds in H. simpl in H.
  apply lookup_singleton_Some in H as [<- <-]. repeat split. discriminate.
Qed.

Section FloatFacts.

Lemma SFeqb_same f :
  SFeqb f f = match f with S754_nan => false | _ => true end.
Proof.
  destruct f as [s|s| |s m e]; try destruct s; try reflexivity;
    unfold SFeqb, SFcompare; rewrite Z.compare_refl, Pos.compare_cont_refl;
    reflexivity.
Qed.

(** The negation of a number is a number. *)
Lemma finite_opp (x : float) : round.finite (- x) = round.finite x.
Proof.
  unfold round.finite, is_nan, is_infinity.
  rewrite !FloatAxioms.eqb_spec, !abs_spec, !opp_spec, !SFeqb_same.
  destruct (Prim2SF x) as [s|s| |s m e]; reflexivity.
Qed.

End FloatFacts.

(** ** server: the rounds of Hi/Lo *)

Section HiLo.

Import server httpserver hilorules.

Lemma wellFormed_checks req :
  wellFormed req ->
  String.eqb (roundEndRequest.Token req) "" = false
  /\ String.eqb (roundEndRequest.RoundID req) "" = false
  /\ negb (String.eqb (roundEndRequest.Choice req) "higher")
     && negb (String.eqb (roundEndRequest.Choice req) "lower") = false.
Proof.
  intros (Ht & Hr & Hc). repeat split.
  - now apply String.eqb_neq.
  - now apply String.eqb_neq.
  - destruct Hc as [-> | ->]; reflexivity.
Qed.

(** [roundEnd] on a round that the store does not hold, and on a request
    that fails a check: an error, and nothing else happens. *)
Lemma roundEnd_unknown s method body w :
  (forall req, body = Some req -> hilo.Get (store s) (roundEndRequest.RoundID req) = None) ->
  let reply := roundEnd s method body w in
  server reply = s /\ calls reply = [] /\ rest reply = tape (base w)
  /\ ((exists msg, response reply = HTTPError StatusMethodNotAllowed msg)
      \/ exists status msg,
           response reply = RoundEnd status (roundEndError msg) /\ status <> StatusOK).
Proof.
  intros Hget. unfold roundEnd.
  destruct (negb _); [simpl; eauto 10|].
  destruct body as [req|]; [|simpl; repeat split; right; eexists _, _; split; [reflexivity|discriminate]].
  specialize (Hget req eq_refl).
  destruct (String.eqb (roundEndRequest.Token req) "");
    [simpl; repeat split; right; eexists _, _; split; [reflexivity|discriminate]|].
  destruct (String.eqb (roundEndRequest.RoundID req) "");
    [simpl; repeat split; right; eexists _, _; split; [reflexivity|discriminate]|].
  destruct (_ && _);
    [simpl; repeat split; right; eexists _, _; split; [reflexivity|discriminate]|].
  rewrite Hget. simpl; repeat split; right; eexists _, _; split; [reflexivity|discriminate].
Qed.

(** The store after [roundEnd]: untouched, or without the round of the
    request. *)
Lemma roundEnd_store s method body w :
  let reply := roundEnd s method body w in
  store (server reply) = store s
  \/ exists req, body = Some req
       /\ store (server reply)
          = hilo.Delete (store s) (roundEndRequest.RoundID req) (cleanup w).
Proof.
  unfold roundEnd.
  destruct (negb _); [auto|].
  destruct body as [req|]; [|auto].
  destruct (String.eqb (roundEndRequest.Token req) ""); [auto|].
  destruct (String.eqb (roundEndRequest.RoundID req) ""); [auto|].
  destruct (_ && _); [auto|].
  destruct (hilo.Get _ _) as [rnd|]; [|auto].
  right. exists req. split; [reflexivity|].
  destruct (hilo.NextNumber _) as [nextNum tape'].
  destruct (nextNum =? _).
  { destruct (rollback w); reflexivity. }
  destruct (_ || _); [|reflexivity].
  destruct (win (base w)); reflexivity.
Qed.

(** X8: a round of Hi/Lo is ended once.  After [roundEnd] on a well-formed
    request, whatever the wallet answered, the store no longer holds the
    round; a further [roundEnd] for the same round id is answered with an
    error, makes no wallet call, draws no number and changes nothing. *)
Theorem roundEnd_ends_once s req w :
  wellFormed req ->
  let reply := roundEnd s MethodPost (Some req) w in
  hilo.Get (store (server reply)) (roundEndRequest.RoundID req) = None
  /\ forall method req2 w2,
       roundEndRequest.RoundID req2 = roundEndRequest.RoundID req ->
       let reply2 := roundEnd (server reply) method (Some req2) w2 in
       server reply2 = server reply /\ calls reply2 = []
       /\ rest reply2 = tape (base w2)
       /\ ((exists msg, response reply2 = HTTPError StatusMethodNotAllowed msg)
           \/ exists status msg,
                response reply2 = RoundEnd status (roundEndError msg)
                /\ status <> StatusOK).
Proof.
  intros Hwf. cbv zeta.
  assert (Hgone : hilo.Get (store (server (roundEnd s MethodPost (Some req) w)))
                    (roundEndRequest.RoundID req) = None).
  { destruct (wellFormed_checks req Hwf) as (Ht & Hr & Hc).
    unfold roundEnd. simpl. rewrite Ht, Hr, Hc.
    destruct (hilo.Get (store s) (roundEndRequest.RoundID req)) as [rnd|] eqn:Hget;
      [|exact Hget].
    destruct (hilo.NextNumber _) as [nextNum tape'].
    destruct (nextNum =? _).
    { destruct (rollback w); simpl; apply Get_Delete. }
    destruct (_ || _); [|simpl; apply Get_Delete].
    destruct (win (base w)); simpl; apply Get_Delete. }
  split; [exact Hgone|].
  intros method req2 w2 Hid.
  apply roundEnd_unknown. intros req' Hb. inversion Hb; subst req'.
  now rewrite Hid.
Qed.

(** The round h-1 is ended with a win; it is gone from the store, and a
    second request for it changes nothing. *)
Lemma roundEnd_ends_once_example :
  let reply :=
    httpserver.roundEnd site.server httpserver.MethodPost (Some (site.endRequest "higher"))
      (site.world [csprng.RandOk 6] 100) in
  hilo.Get (httpserver.store (httpserver.server reply)) "h-1" = None
  /\ httpserver.server
       (httpserver.roundEnd (httpserver.server reply) httpserver.MethodPost
          (Some (site.endRequest "lower")) (site.world [csprng.RandOk 2] 200))
     = httpserver.server reply.
Proof.
  pose proof (roundEnd_ends_once site.server (site.endRequest "higher")
                (site.world [csprng.RandOk 6] 100)
                (site_request_wellFormed "higher" (or_introl eq_refl))) as [H1 H2].
  split; [exact H1|].
  exact (proj1 (H2 httpserver.MethodPost (site.endRequest "lower") (site.world [csprng.RandOk 2] 200)
                  eq_refl)).
Defined.

(** X9: how a round of Hi/Lo is settled.  The next number is between 1
    and 10 and decides the outcome by the rule of the game.  The wallet is
    called once for a push (the bet is rolled back) and once for a win (the
    stake is credited), and not at all for a loss.  When the wallet
    accepts, the response and the entry appended to the ledger carry the
    outcome, the number and the balance delta; when it refuses, the
    response is an error and nothing is appended. *)
Theorem roundEnd_settlement s req w rnd :
  wellFormed req ->
  hilo.Get (store s) (roundEndRequest.RoundID req) = Some rnd ->
  let reply := roundEnd s MethodPost (Some req) w in
  let next := (hilo.NextNumber (tape (base w))).1 in
  let outcome := outcome (roundEndRequest.Choice req) (hilo.CurrentNumber rnd) next in
  let delta := delta outcome (hilo.Amount rnd) in
  1 <= next <= 10
  /\ calls reply = walletCalls outcome (roundEndRequest.Token req) rnd
  /\ rest reply = (hilo.NextNumber (tape (base w))).2
  /\ ((response reply
       = RoundEnd StatusOK
           {| roundEndResponse.Outcome := outcome;
              roundEndResponse.NextNumber := next;
              roundEndResponse.BalanceDelta := delta;
              roundEndResponse.Error := "" |}
       /\ results (core (server reply))
          = (round.Append (results (core s))
               (hiloResult (roundEndRequest.RoundID req) (hilo.BetID rnd) outcome next
                  delta (now (base w)))
               (disk (base w))).1)
      \/ (results (core (server reply)) = results (core s)
          /\ exists status st msg,
               response reply = RoundEnd status (roundEndError msg)
               /\ (outcome = "push" /\ rollback w = WinErr st msg
                   \/ outcome = "win" /\ win (base w) = WinErr st msg))).
Proof.
  intros Hwf Hget. cbv zeta.
  destruct (wellFormed_checks req Hwf) as (Ht & Hr & Hc).
  split; [apply NextNumber_range|].
  unfold roundEnd. simpl. rewrite Ht, Hr, Hc, Hget.
  destruct (hilo.NextNumber (tape (base w))) as [next tape'] eqn:Hn. simpl.
  unfold outcome, walletCalls, delta.
  destruct (next =? hilo.CurrentNumber rnd) eqn:Hpush.
  { destruct (rollback w) as [|status msg] eqn:Hrb; simpl.
    - repeat split. left. split; reflexivity.
    - repeat split. right. split; [reflexivity|].
      eexists _, status, msg. split; [reflexivity|]. left. split; reflexivity. }
  destruct Hwf as (_ & _ & [Hch | Hch]); rewrite Hch; simpl.
  - destruct (hilo.CurrentNumber rnd <? next); simpl.
    + destruct (win (base w)) as [|st msg] eqn:Hw; simpl.
      * repeat split. left. split; reflexivity.
      * repeat split. right. split; [reflexivity|].
        eexists _, st, msg. split; [reflexivity|]. right. split; reflexivity.
    + repeat split. left. split; reflexivity.
  - destruct (next <? hilo.CurrentNumber rnd); simpl.
    + destruct (win (base w)) as [|st msg] eqn:Hw; simpl.
      * repeat split. left. split; reflexivity.
      * repeat split. right. split; [reflexivity|].
        eexists _, st, msg. split; [reflexivity|]. right. split; reflexivity.
    + repeat split. left. split; reflexivity.
Qed.

(** The round h-1 stands at 5 and the next number is 7: higher wins, and
    one call credits the stake of 10. *)
Lemma roundEnd_settlement_example :
  httpserver.calls
    (httpserver.roundEnd site.server httpserver.MethodPost (Some (site.endRequest "higher"))
       (site.world [csprng.RandOk 6] 100))
  = [httpserver.Wallet (server.Win "tok" "USD" 10 "")].
Proof.
  exact (proj1 (proj2 (roundEnd_settlement site.server (site.endRequest "higher")
                         (site.world [csprng.RandOk 6] 100) site.openRound
                         (site_request_wellFormed "higher" (or_introl eq_refl))
                         eq_refl))).
Defined.

End HiLo.

Section HiLoLedger.

Import server httpserver hilorules.

Lemma finite_delta o amount :
  round.finite amount = true -> round.finite (delta o amount) = true.
Proof.
  intros H. unfold delta.
  destruct (String.eqb o "push"); [reflexivity|].
  destruct (String.eqb o "win"); [exact H|].
  now rewrite finite_opp.
Qed.

(** The round that [roundEnd] settles when the wallet accepts. *)
Lemma roundEnd_accepted s req w rnd :
  wellFormed req ->
  hilo.Get (store s) (roundEndRequest.RoundID req) = Some rnd ->
  rollback w = WinOk -> win (base w) = WinOk ->
  let next := (hilo.NextNumber (tape (base w))).1 in
  let outcome := outcome (roundEndRequest.Choice req) (hilo.CurrentNumber rnd) next in
  let delta := delta outcome (hilo.Amount rnd) in
  let appended :=
    round.Append (results (core s))
      (hiloResult (roundEndRequest.RoundID req) (hilo.BetID rnd) outcome next
         delta (now (base w)))
      (disk (base w)) in
  roundEnd s MethodPost (Some req) w
  = {| response :=
         RoundEnd StatusOK
           {| roundEndResponse.Outcome := outcome;
              roundEndResponse.NextNumber := next;
              roundEndResponse.BalanceDelta := delta;
              roundEndResponse.Error := "" |};
       server :=
         withStore (withCore s (withResults (core s) appended.1))
           (hilo.Delete (store s) (roundEndRequest.RoundID req) (cleanup w));
       calls := walletCalls outcome (roundEndRequest.Token req) rnd;
       rest := (hilo.NextNumber (tape (base w))).2 |}.
Proof.
  intros Hwf Hget Hrb Hw. cbv zeta.
  destruct (wellFormed_checks req Hwf) as (Ht & Hr & Hc).
  unfold roundEnd. simpl. rewrite Ht, Hr, Hc, Hget, Hrb, Hw.
  destruct (hilo.NextNumber (tape (base w))) as [next tape'] eqn:Hn. simpl.
  unfold outcome, walletCalls, delta.
  destruct (next =? hilo.CurrentNumber rnd); [reflexivity|].
  destruct Hwf as (_ & _ & [Hch | Hch]); rewrite Hch; simpl.
  - destruct (hilo.CurrentNumber rnd <? next); reflexivity.
  - destruct (next <? hilo.CurrentNumber rnd); reflexivity.
Qed.

(** X10: the ledger is shared by the games.  Once a round of Hi/Lo is
    settled and its entry written, a scratch round asked for under the same
    round id is not played: the handler answers with the replay of the
    Hi/Lo entry, three empty symbols, no win and the balance delta of the
    Hi/Lo round, takes no bet and draws nothing. *)
Theorem scratch_replays_hilo_round s req w rnd :
  wellFormed req ->
  hilo.Get (store s) (roundEndRequest.RoundID req) = Some rnd ->
  round.finite (hilo.Amount rnd) = true ->
  disk (base w) = fs.WriteOk -> rollback w = WinOk -> win (base w) = WinOk ->
  let reply := roundEnd s MethodPost (Some req) w in
  exists r,
    response reply = RoundEnd StatusOK r
    /\ forall req2 p g w2,
         requestRoundID req2 = roundEndRequest.RoundID req -> accepted req2 = true ->
         handleScratchRoundStart (core (server reply)) req2 p g w2
         = Some {| server.response :=
                     ScratchRoundStart
                       {| ScratchRoundStartResponse.RoundID := roundEndRequest.RoundID req;
                          ScratchRoundStartResponse.Symbols := ("", "", "");
                          ScratchRoundStartResponse.WinAmount := 0%float;
                          ScratchRoundStartResponse.BalanceDelta :=
                            roundEndResponse.BalanceDelta r;
                          ScratchRoundStartResponse.Tier := "";
                          ScratchRoundStartResponse.Error := "" |};
                   server.server := core (server reply);
                   server.calls := [];
                   server.rest := tape w2 |}.
Proof.
  intros Hwf Hget Hfin Hdisk Hrb Hw. cbv zeta.
  rewrite (roundEnd_accepted s req w rnd Hwf Hget Hrb Hw). cbv zeta. simpl.
  eexists. split; [reflexivity|].
  intros req2 p g w2 Hid Hacc.
  rewrite handleScratchRoundStart_accepted by exact Hacc. cbv zeta.
  destruct Hwf as (_ & Hne & _).
  rewrite Hid, (orDefault_nonempty _ _ Hne). simpl.
  rewrite GetByRoundID_Append.
  unfold round.marshals at 1. simpl.
  rewrite (finite_delta _ _ Hfin), Hdisk. simpl.
  rewrite String.eqb_refl. reflexivity.
Qed.

(** After the win on h-1, a scratch start that names h-1 is answered with
    the delta of that round, three empty symbols and no call. *)
Lemma scratch_replays_hilo_round_example :
  let reply :=
    httpserver.roundEnd site.server httpserver.MethodPost (Some (site.endRequest "higher"))
      (site.world [csprng.RandOk 6] 100) in
  server.response
    <$> server.handleScratchRoundStart (httpserver.core (httpserver.server reply))
          (fixtures.scratchRequest "sess" 1 "h-1") "acme" "scratch_match3"
          (fixtures.world fixtures.winningTape 200 fs.WriteOk)
  = Some (fixtures.scratchAnswer "h-1" ("", "", "") 0 10 "").
Proof.
  destruct (scratch_replays_hilo_round site.server (site.endRequest "higher")
              (site.world [csprng.RandOk 6] 100) site.openRound
              (site_request_wellFormed "higher" (or_introl eq_refl))
              eq_refl eq_refl eq_refl eq_refl eq_refl) as (r & Hr & Hreplay).
  cbv zeta.
  rewrite (Hreplay (fixtures.scratchRequest "sess" 1 "h-1") "acme" "scratch_match3"
             (fixtures.world fixtures.winningTape 200 fs.WriteOk) eq_refl eq_refl).
  injection Hr as <-. reflexivity.
Defined.

(** X11: [roundStart] creates a round only after the wallet took the
    stake.  Either the response is the new round, under the round id of the
    request (a fresh one when the request has none), with a number between
    1 and 10, after exactly one bet of the requested amount, and the store
    holds that round; or the server is as before, and the wallet was asked
    at most for the one bet that it refused. *)
Theorem roundStart_creates s method body w :
  let reply := roundStart s method body w in
  (exists req betID round,
     body = Some req /\ bet (base w) = BetOk betID
     /\ response reply
        = RoundStart StatusOK
            {| roundStartResponse.RoundID := hilo.RoundID round;
               roundStartResponse.CurrentNumber := hilo.CurrentNumber round;
               roundStartResponse.BetID := betID;
               roundStartResponse.Error := "" |}
     /\ hilo.RoundID round
        = orDefault (roundStartRequest.RoundID req) (uuid (base w))
     /\ hilo.Amount round = roundStartRequest.Amount req
     /\ 1 <= hilo.CurrentNumber round <= 10
     /\ calls reply
        = [Wallet (Bet (roundStartRequest.Token req)
                     (orDefault (roundStartRequest.Currency req) "USD")
                     (roundStartRequest.Amount req) "")]
     /\ hilo.Get (store (server reply)) (hilo.RoundID round) = Some round)
  \/ (server reply = s /\ rest reply = tape (base w)
      /\ (calls reply = []
          \/ exists c status msg,
               calls reply = [Wallet c] /\ bet (base w) = BetErr status msg)).
Proof.
  cbv zeta. unfold roundStart.
  destruct (negb _); [right; simpl; auto|].
  destruct body as [req|]; [|right; simpl; auto].
  destruct (String.eqb (roundStartRequest.Token req) ""); [right; simpl; auto|].
  destruct (_ <=? 0)%float; [right; simpl; auto|].
  destruct (bet (base w)) as [betID|status msg] eqn:Hbet.
  2:{ right. simpl. repeat split. right. eauto. }
  left.
  pose proof (Get_Create_eq (store s)
                (orDefault (roundStartRequest.RoundID req) (uuid (base w))) betID
                (orDefault (roundStartRequest.Currency req) "USD")
                (roundStartRequest.Amount req) (now (base w)) (tape (base w))
                (disk (base w))) as Hget.
  pose proof (NextNumber_range (tape (base w))) as Hnum.
  unfold hilo.Create in *.
  destruct (hilo.NextNumber (tape (base w))) as [num tape']. simpl in *.
  exists req, betID,
    {| hilo.RoundID := orDefault (roundStartRequest.RoundID req) (uuid (base w));
       hilo.BetID := betID;
       hilo.Currency := orDefault (roundStartRequest.Currency req) "USD";
       hilo.Amount := roundStartRequest.Amount req;
       hilo.CurrentNumber := num;
       hilo.CreatedAt := now (base w) |}.
  simpl. repeat split; try reflexivity; try exact Hget; lia.
Qed.

(** X12: the rounds of Hi/Lo survive a restart.  After [Create] or [Delete]
    on a sound store, when the write of [rounds.json] went through, the
    store of the next process holds the same rounds: a created round is
    found again, a deleted one is not. *)
Theorem hilo_rounds_survive_restart (s : hilo.Store) :
  hilo.sound s ->
  (forall roundID betID currency amount now tape,
     roundID <> "" -> round.finite amount = true ->
     let '(r, s', _) :=
       hilo.Create s roundID betID currency amount now tape fs.WriteOk in
     hilo.sound s' /\ hilo.rounds (hilo.restart s') = hilo.rounds s'
     /\ hilo.Get (hilo.restart s') roundID = Some r)
  /\ (forall roundID,
        let s' := hilo.Delete s roundID fs.WriteOk in
        hilo.sound s' /\ hilo.rounds (hilo.restart s') = hilo.rounds s'
        /\ hilo.Get (hilo.restart s') roundID = None).
Proof.
  intros Hs. split.
  - intros roundID betID currency amount now tape Hne Hfin.
    pose proof (sound_Create s roundID betID currency amount now tape fs.WriteOk
                  Hs Hne Hfin) as Hs'.
    pose proof (Get_Create_eq s roundID betID currency amount now tape fs.WriteOk)
      as Hget.
    unfold hilo.Create in *. destruct (hilo.NextNumber tape) as [num tape'].
    simpl in Hs'.
    set (s1 := {| hilo.rounds := _; hilo.file := hilo.file s |}) in *.
    assert (Hs1 : hilo.sound s1).
    { intros k r. rewrite <- (hilo_rounds_save s1 fs.WriteOk). apply Hs'. }
    split; [exact Hs'|].
    rewrite (hilo_restart_save s1 Hs1), hilo_rounds_save.
    split; [reflexivity|].
    unfold hilo.Get in *. rewrite (hilo_restart_save s1 Hs1).
    now rewrite hilo_rounds_save in Hget.
  - intros roundID. cbv zeta.
    pose proof (sound_Delete s roundID fs.WriteOk Hs) as Hs'.
    unfold hilo.Delete in *.
    set (s1 := {| hilo.rounds := _; hilo.file := hilo.file s |}) in *.
    assert (Hs1 : hilo.sound s1).
    { intros k r. rewrite <- (hilo_rounds_save s1 fs.WriteOk). apply Hs'. }
    split; [exact Hs'|].
    rewrite (hilo_restart_save s1 Hs1), hilo_rounds_save.
    split; [reflexivity|].
    unfold hilo.Get. rewrite (hilo_restart_save s1 Hs1). apply lookup_delete_eq.
Qed.

(** A second round h-2 is read back by the next process, and so is the
    removal of h-1. *)
Lemma hilo_rounds_survive_restart_example :
  hilo.CurrentNumber
    <$> hilo.Get
          (hilo.restart
             (hilo.Create site.rounds "h-2" "bet-2" "USD" 2.5 100 [csprng.RandOk 3]
                fs.WriteOk).1.2)
          "h-2"
  = Some 4
  /\ hilo.Get (hilo.restart (hilo.Delete site.rounds "h-1" fs.WriteOk)) "h-1" = None.
Proof.
  pose proof (hilo_rounds_survive_restart site.rounds site_rounds_sound) as [H1 H2].
  split.
  - specialize (H1 "h-2" "bet-2" "USD" 2.5%float 100 [csprng.RandOk 3]
                  ltac:(discriminate) eq_refl).
    set (created := hilo.Create site.rounds "h-2" "bet-2" "USD" 2.5 100
                      [csprng.RandOk 3] fs.WriteOk) in *.
    assert (Hnumber : hilo.CurrentNumber created.1.1 = 4) by (vm_compute; reflexivity).
    clearbody created. destruct created as [[r s'] t].
    destruct H1 as (_ & _ & H1). cbn [fst snd] in *. rewrite H1.
    cbn [fmap option_fmap option_map]. now rewrite Hnumber.
  - exact (proj2 (proj2 (H2 "h-1"))).
Defined.

End HiLoLedger.

(** ** strings: paths and their segments *)

Section Strings.

Lemma upto_app p s : strings.upto (String.length p) (p +:+ s) = p.
Proof. induction p as [|c p IH]; simpl; [now destruct s|now rewrite IH]. Qed.

Lemma from_app p s : strings.from (String.length p) (p +:+ s) = s.
Proof. induction p as [|c p IH]; simpl; [reflexivity|exact IH]. Qed.

Lemma string_length_app p s :
  String.length (p +:+ s) = (String.length p + String.length s)%nat.
Proof. induction p as [|c p IH]; simpl; [reflexivity|now rewrite IH]. Qed.

Lemma TrimPrefix_app p s : strings.TrimPrefix (p +:+ s) p = s.
Proof.
  unfold strings.TrimPrefix, strings.HasPrefix.
  rewrite upto_app, String.eqb_refl, string_length_app, andb_true_r.
  destruct (Nat.leb_spec (String.length p) (String.length p + String.length s));
    [apply from_app|lia].
Qed.

Lemma Split_segment_sep sep p t :
  routes.hasByte sep p = false ->
  strings.Split (p +:+ String sep t) sep = p :: strings.Split t sep.
Proof.
  induction p as [|c p IH]; intros Hp.
  - simpl. now rewrite Ascii.eqb_refl.
  - simpl in Hp. apply orb_false_iff in Hp as [Hc Hp].
    change (String c p +:+ String sep t) with (String c (p +:+ String sep t)).
    simpl. rewrite Hc, (IH Hp). reflexivity.
Qed.

Lemma Split_segment sep p :
  routes.hasByte sep p = false -> strings.Split p sep = [p].
Proof.
  induction p as [|c p IH]; intros Hp; [reflexivity|].
  simpl in Hp. apply orb_false_iff in Hp as [Hc Hp].
  simpl. rewrite Hc, (IH Hp). reflexivity.
Qed.

Lemma hasByte_app c s t :
  routes.hasByte c (s +:+ t) = routes.hasByte c s || routes.hasByte c t.
Proof.
  induction s as [|d s IH]; [reflexivity|].
  change (String d s +:+ t) with (String d (s +:+ t)).
  simpl. rewrite IH. now rewrite orb_assoc.
Qed.

Lemma TrimLeft_segment p t :
  p <> "" -> routes.hasByte "/" p = false ->
  strings.TrimLeft (p +:+ t) "/" = p +:+ t.
Proof.
  destruct p as [|c p]; [congruence|]. intros _ Hp.
  simpl in Hp. apply orb_false_iff in Hp as [Hc _].
  change (String c p +:+ t) with (String c (p +:+ t)).
  simpl. now rewrite Hc.
Qed.

(** A string that ends in a string which [TrimRight] leaves alone is
    left alone. *)
Lemma TrimRight_app s t cutset :
  t <> "" -> strings.TrimRight t cutset = t ->
  strings.TrimRight (s +:+ t) cutset = s +:+ t.
Proof.
  intros Hne Ht. induction s as [|c s IH]; [exact Ht|].
  change (String c s +:+ t) with (String c (s +:+ t)).
  simpl. rewrite IH.
  destruct (s +:+ t) eqn:E; [|reflexivity].
  destruct s; cbv [String.append] in E; [congruence|discriminate].
Qed.

End Strings.

(** ** server: the provider routes *)

Section Routes.

Import server httpserver routes.

(** The segments of the path of an action. *)
Lemma providerPath_parts p g action :
  segment p -> routes.hasByte "/" g = false ->
  action <> "" -> strings.TrimRight action "/" = action ->
  strings.Split
    (strings.Trim (strings.TrimPrefix (providerPath p g action) "/rgs/providers/") "/") "/"
  = p :: "games" :: g :: strings.Split action "/".
Proof.
  intros [Hp Hps] Hg Ha Hat. unfold providerPath.
  rewrite TrimPrefix_app. unfold strings.Trim.
  rewrite (TrimLeft_segment p _ Hp Hps).
  assert (Htail : forall x, x <> "" -> strings.TrimRight x "/" = x ->
            forall y, y +:+ x <> "" /\ strings.TrimRight (y +:+ x) "/" = y +:+ x).
  { intros x Hx Hxt y. split; [|now apply TrimRight_app].
    destruct y; cbv [String.append]; [exact Hx|discriminate]. }
  destruct (Htail action Ha Hat "/") as [H1 H1t].
  destruct (Htail _ H1 H1t g) as [H2 H2t].
  destruct (Htail _ H2 H2t "/games/") as [H3 H3t].
  rewrite (TrimRight_app p _ "/" H3 H3t).
  change ("/games/" +:+ g +:+ "/" +:+ action)
    with (String "/" ("games" +:+ String "/" (g +:+ String "/" action))).
  rewrite (Split_segment_sep "/" p _ Hps).
  rewrite (Split_segment_sep "/" "games" _ eq_refl).
  rewrite (Split_segment_sep "/" g _ Hg).
  reflexivity.
Qed.

Lemma target_providerPath p g action :
  segment p -> routes.hasByte "/" g = false ->
  action <> "" -> strings.TrimRight action "/" = action ->
  target (providerPath p g action) = Some (p, g).
Proof.
  intros Hp Hg Ha Hat. unfold target.
  rewrite providerPath_parts by assumption.
  destruct action as [|c action]; [congruence|].
  destruct (strings.Split (String c action) "/") eqn:E; [|reflexivity].
  simpl in E. destruct (Ascii.eqb c "/"); [discriminate|].
  destruct (strings.Split action "/"); discriminate.
Qed.

Lemma refused_answer s w status msg code :
  refused s w {| response := Provider (APIError status msg code);
                 server := s; calls := []; rest := tape (base w) |}.
Proof. repeat split. eauto. Qed.

(** X13: the router lets nothing through for a game that the provider does
    not have.  Whatever the method, the path and the body, either the path
    names a provider and a game that the registry holds for it, or the
    request is answered with an error and nothing has happened: no wallet
    call, no draw, no change of the server. *)
Theorem route_guard s r w :
  (exists p g, target (Path r) = Some (p, g) /\ games.HasGame (registry s) p g = true)
  \/ exists reply, handleProviderRoute s r w = Some reply /\ refused s w reply.
Proof.
  unfold handleProviderRoute, target.
  destruct (strings.Split _ _) as [|p [|p1 [|g [|p3 more]]]];
    try (right; eexists; split; [reflexivity|apply refused_answer]).
  destruct (negb (String.eqb p1 "games"));
    [right; eexists; split; [reflexivity|apply refused_answer]|].
  destruct (games.HasGame (registry s) p g) eqn:Hhas;
    [left; eauto|right; eexists; split; [reflexivity|apply refused_answer]].
Qed.

(** X14: the routes of the rounds.  For a provider and a game whose ids
    are path segments and which the registry holds, the path of an action
    reaches the handler of that action with that provider and that game:
    the start of a round goes to the crash handler for the game crash and
    to the scratch handler, with the game id of the path, for every other
    game; cashout and status exist for crash only, and are answered with
    404 INVALID_PATH for any other game. *)
Theorem route_round_actions s w p g :
  segment p -> hasByte "/" g = false ->
  games.HasGame (registry s) p g = true ->
  (forall r, Path r = providerPath p g "round/start" -> Method r = MethodPost ->
     handleProviderRoute s r w
     = if String.eqb g "crash"
       then decoded s w (asCrashRoundStartRequest r)
              (fun req => Some (handleCrashRoundStart (core s) req p (base w)))
       else decoded s w (asScratchRoundStartRequest r)
              (fun req => handleScratchRoundStart (core s) req p g (base w)))
  /\ (forall r, Path r = providerPath p g "round/cashout" -> Method r = MethodPost ->
        handleProviderRoute s r w
        = if String.eqb g "crash"
          then decoded s w (asCrashCashoutRequest r)
                 (fun req => Some (handleCrashCashout (core s) req p (base w)))
          else Some {| response :=
                         Provider (APIError StatusNotFound "invalid path" "INVALID_PATH");
                       server := s; calls := []; rest := tape (base w) |})
  /\ (forall r, Path r = providerPath p g "round/status" -> Method r = MethodGet ->
        handleProviderRoute s r w
        = if String.eqb g "crash"
          then Some (lift s (handleCrashStatus (core s) (query_roundId r)
                               (query_token r) (base w)))
          else Some {| response :=
                         Provider (APIError StatusNotFound "invalid path" "INVALID_PATH");
                       server := s; calls := []; rest := tape (base w) |}).
Proof.
  intros Hp Hg Hhas.
  repeat split; intros r Hpath Hm; unfold handleProviderRoute;
    rewrite Hpath, providerPath_parts by (assumption || discriminate || reflexivity);
    simpl; rewrite Hhas, Hm; simpl; reflexivity.
Qed.

(** On the crash game of acme the status of c-1 is served; on its scratch
    game a cashout is no path. *)
Lemma route_round_actions_example :
  httpserver.response
    <$> httpserver.handleProviderRoute site.server
          (site.request httpserver.MethodGet
             (routes.providerPath "acme" "crash" "round/status"))
          (site.world [] fixtures.atStep55)
  = Some (httpserver.Provider
            (server.CrashStatus
               {| server.CrashStatusResponse.roundId := "c-1";
                  server.CrashStatusResponse.currentStep := 55;
                  server.CrashStatusResponse.multiplier := Some 1.55%float;
                  server.CrashStatusResponse.crashed := true;
                  server.CrashStatusResponse.crashStep := Some 50;
                  server.CrashStatusResponse.crashMultiplier := Some 1.5%float |}))
  /\ httpserver.response
       <$> httpserver.handleProviderRoute site.server
             (site.request httpserver.MethodPost
                (routes.providerPath "acme" "scratch_match3" "round/cashout"))
             (site.world [] 0)
     = Some (httpserver.Provider (server.APIError 404 "invalid path" "INVALID_PATH")).
Proof.
  split.
  - rewrite (proj2 (proj2 (route_round_actions site.server
                             (site.world [] fixtures.atStep55) "acme" "crash"
                             ltac:(split; [discriminate | reflexivity])
                             eq_refl eq_refl))
               (site.request httpserver.MethodGet
                  (routes.providerPath "acme" "crash" "round/status"))
               eq_refl eq_refl).
    reflexivity.
  - rewrite (proj1 (proj2 (route_round_actions site.server
                             (site.world [] 0) "acme" "scratch_match3"
                             ltac:(split; [discriminate | reflexivity])
                             eq_refl eq_refl))
               (site.request httpserver.MethodPost
                  (routes.providerPath "acme" "scratch_match3" "round/cashout"))
               eq_refl eq_refl).
    reflexivity.
Defined.

End Routes.

(** ** url: what escaping leaves in a query component *)

Section QueryEscape.

Import routes.

Lemma upperhex_unreserved (c : ascii) :
  url.unreserved (url.upperhex (N_of_ascii c / 16)) = true
  /\ url.unreserved (url.upperhex (N_of_ascii c mod 16)) = true.
Proof. destruct c as [[] [] [] [] [] [] [] []]; split; reflexivity. Qed.

Lemma eqb_unreserved d c :
  url.unreserved d = true -> url.unreserved c = false -> Ascii.eqb d c = false.
Proof.
  intros Hd Hc. destruct (Ascii.eqb_spec d c) as [->|]; [congruence|reflexivity].
Qed.

Lemma hasByte_cons c d s :
  hasByte c (String d s) = Ascii.eqb d c || hasByte c s.
Proof. reflexivity. Qed.

Lemma QueryEscape_cons d s :
  url.QueryEscape (String d s)
  = if url.unreserved d then String d (url.QueryEscape s)
    else if Ascii.eqb d " " then String "+" (url.QueryEscape s)
    else String "%" (String (url.upperhex (N_of_ascii d / 16))
           (String (url.upperhex (N_of_ascii d mod 16)) (url.QueryEscape s))).
Proof. reflexivity. Qed.

(** A byte that [QueryEscape] would escape, other than the percent and
    plus signs that it writes, does not occur in its result. *)
Lemma QueryEscape_escapes c s :
  url.unreserved c = false -> c <> "%"%char -> c <> "+"%char ->
  hasByte c (url.QueryEscape s) = false.
Proof.
  intros Hc Hpct Hplus. induction s as [|d s IH]; [reflexivity|].
  rewrite QueryEscape_cons. destruct (url.unreserved d) eqn:Hd.
  - now rewrite hasByte_cons, (eqb_unreserved d c Hd Hc), IH.
  - destruct (Ascii.eqb d " ").
    + rewrite hasByte_cons, IH, orb_false_r. apply Ascii.eqb_neq. congruence.
    + destruct (upperhex_unreserved d) as [H1 H2].
      rewrite !hasByte_cons.
      rewrite (eqb_unreserved _ c H1 Hc), (eqb_unreserved _ c H2 Hc), IH.
      rewrite !orb_false_r. apply Ascii.eqb_neq. congruence.
Qed.

End QueryEscape.

(** ** games: the registry and the launch URL *)

Section LaunchURL.

Import server httpserver routes.

Lemma app_assoc_string (a b c : string) : (a +:+ b) +:+ c = a +:+ b +:+ c.
Proof.
  induction a as [|x a IH]; [reflexivity|].
  change (String x (a +:+ b) +:+ c = String x (a +:+ b +:+ c)).
  change (String x ((a +:+ b) +:+ c) = String x (a +:+ b +:+ c)).
  now rewrite IH.
Qed.


(** The query of a launch. *)
Lemma launch_query token lang currency :
  let query := ("token=" +:+ url.QueryEscape token)
               +:+ String "&" (("lang=" +:+ url.QueryEscape lang)
               +:+ String "&" ("currency=" +:+ url.QueryEscape currency)) in
  strings.Split query "&"
  = ["token=" +:+ url.QueryEscape token; "lang=" +:+ url.QueryEscape lang;
     "currency=" +:+ url.QueryEscape currency]
  /\ hasByte "#" query = false /\ hasByte "?" query = false.
Proof.
  cbv zeta.
  assert (Hfree : forall c key v,
            url.unreserved c = false -> c <> "%"%char -> c <> "+"%char ->
            hasByte c key = false ->
            hasByte c (key +:+ url.QueryEscape v) = false).
  { intros c key v H1 H2 H3 Hk.
    now rewrite hasByte_app, Hk, QueryEscape_escapes. }
  split.
  - rewrite Split_segment_sep by (apply Hfree; (reflexivity || discriminate)).
    rewrite Split_segment_sep by (apply Hfree; (reflexivity || discriminate)).
    rewrite Split_segment by (apply Hfree; (reflexivity || discriminate)).
    reflexivity.
  - assert (Hq : forall c,
              url.unreserved c = false -> c <> "%"%char -> c <> "+"%char ->
              c <> "&"%char -> hasByte c "token=" = false ->
              hasByte c "lang=" = false -> hasByte c "currency=" = false ->
              hasByte c (("token=" +:+ url.QueryEscape token)
                         +:+ String "&" (("lang=" +:+ url.QueryEscape lang)
                         +:+ String "&" ("currency=" +:+ url.QueryEscape currency)))
              = false).
    { intros c H1 H2 H3 H4 Ht Hl Hc.
      assert (He : Ascii.eqb "&" c = false) by (apply Ascii.eqb_neq; congruence).
      rewrite hasByte_app, (Hfree c _ token H1 H2 H3 Ht).
      rewrite hasByte_cons, He, hasByte_app, (Hfree c _ lang H1 H2 H3 Hl).
      rewrite hasByte_cons, He, (Hfree c _ currency H1 H2 H3 Hc). reflexivity. }
    split; apply Hq; (reflexivity || discriminate).
Qed.

Lemma GetLaunchURL_known r baseURL p g token lang currency :
  games.HasGame r p g = true -> token <> "" -> lang <> "" -> currency <> "" ->
  games.GetLaunchURL r baseURL p g token lang currency
  = inl (baseURL +:+ "/rgs/game/" +:+ g +:+ "?"
         +:+ ("token=" +:+ url.QueryEscape token)
         +:+ String "&" (("lang=" +:+ url.QueryEscape lang)
         +:+ String "&" ("currency=" +:+ url.QueryEscape currency))).
Proof.
  intros Hhas Ht Hl Hc. unfold games.GetLaunchURL, games.addParam.
  rewrite Hhas. simpl.
  apply String.eqb_neq in Ht, Hl, Hc. rewrite Ht, Hl, Hc. simpl.
  f_equal. rewrite !app_assoc_string. reflexivity.
Qed.

(** X15: the launch URL carries its parameters and nothing else.  For a
    game that the provider has, with a token, a language and a currency
    that are not empty, [GetLaunchURL] gives the game page of the game
    followed by a query which, cut at the ampersands, is exactly the token,
    the language and the currency, each escaped; no value can add a
    parameter, start a fragment or a second query.  For a game that the
    provider does not have it gives an error. *)
Theorem GetLaunchURL_parameters r baseURL p g token lang currency :
  token <> "" -> lang <> "" -> currency <> "" ->
  if games.HasGame r p g then
    exists query,
      games.GetLaunchURL r baseURL p g token lang currency
      = inl (baseURL +:+ "/rgs/game/" +:+ g +:+ "?" +:+ query)
      /\ strings.Split query "&"
         = ["token=" +:+ url.QueryEscape token; "lang=" +:+ url.QueryEscape lang;
            "currency=" +:+ url.QueryEscape currency]
      /\ hasByte "#" query = false /\ hasByte "?" query = false
  else
    games.GetLaunchURL r baseURL p g token lang currency
    = inr ("unknown game " +:+ g +:+ " for provider " +:+ p).
Proof.
  intros Ht Hl Hc. destruct (games.HasGame r p g) eqn:Hhas.
  - eexists. split; [now apply GetLaunchURL_known|].
    apply launch_query.
  - unfold games.GetLaunchURL. now rewrite Hhas.
Qed.

(** A token with a space and an ampersand is one parameter of the launch
    URL of a known game. *)
Lemma GetLaunchURL_parameters_example :
  exists query,
    games.GetLaunchURL site.catalogue "http://localhost:8081" "acme" "crash"
      "a b&c" "es" "USD"
    = inl ("http://localhost:8081/rgs/game/crash?" +:+ query)
    /\ strings.Split query "&" = ["token=a+b%26c"; "lang=es"; "currency=USD"]
    /\ routes.hasByte "#" query = false /\ routes.hasByte "?" query = false.
Proof.
  exact (GetLaunchURL_parameters site.catalogue "http://localhost:8081" "acme"
           "crash" "a b&c" "es" "USD"
           ltac:(discriminate) ltac:(discriminate) ltac:(discriminate)).
Defined.

Lemma orDefault_not_empty s d : d <> "" -> orDefault s d <> "".
Proof.
  intros Hd. unfold orDefault. destruct (String.eqb_spec s ""); congruence.
Qed.

(** X16: what a launch answers.  For a game that the provider has (the
    router asks for no other), [handleLaunch] leaves the server as it is
    and asks the wallet at most for the balance; it answers with an error of
    the body, of the token or of the wallet, or with the launch URL under
    the base URL without its final slash, whose query is the token, the
    language (es by default) and the currency (USD by default).  It never
    answers LAUNCH_ERROR. *)
Theorem handleLaunch_answers s body p g w :
  games.HasGame (registry s) p g = true ->
  let reply := handleLaunch s body p g w in
  server reply = s /\ rest reply = tape (base w)
  /\ ((calls reply = []
       /\ exists status msg code,
            response reply = Provider (APIError status msg code)
            /\ (code = "INVALID_BODY" \/ code = "TOKEN_REQUIRED"))
      \/ (exists req status msg,
            body = Some req /\ calls reply = [GetBalance (LaunchRequest.Token req)]
            /\ response reply = Provider (APIError status msg "TOKEN_INVALID"))
      \/ (exists req query,
            body = Some req /\ calls reply = [GetBalance (LaunchRequest.Token req)]
            /\ balance w = BalanceOk
            /\ response reply
               = Launch
                   {| LaunchResponse.IframeURL :=
                        strings.TrimSuffix (config.RGSBaseURL (cfg s)) "/"
                        +:+ "/rgs/game/" +:+ g +:+ "?" +:+ query;
                      LaunchResponse.Config_lang :=
                        orDefault (LaunchRequest.Lang req) "es";
                      LaunchResponse.Config_currency :=
                        orDefault (LaunchRequest.Currency req) "USD" |}
            /\ strings.Split query "&"
               = ["token=" +:+ url.QueryEscape (LaunchRequest.Token req);
                  "lang=" +:+ url.QueryEscape (orDefault (LaunchRequest.Lang req) "es");
                  "currency="
                  +:+ url.QueryEscape (orDefault (LaunchRequest.Currency req) "USD")])).
Proof.
  intros Hhas. cbv zeta. unfold handleLaunch.
  destruct body as [req|]; [|simpl; repeat split; left; split; eauto 10].
  destruct (String.eqb_spec (LaunchRequest.Token req) "") as [|Ht];
    [simpl; repeat split; left; split; eauto 10|].
  destruct (balance w) as [|status msg] eqn:Hbal.
  2:{ simpl. repeat split. right. left. eauto 10. }
  rewrite (GetLaunchURL_known _ _ _ _ _ _ _ Hhas Ht)
    by (apply orDefault_not_empty; discriminate).
  simpl. repeat split. right. right. eexists req, _.
  repeat split. apply launch_query.
Qed.

(** The launch of the crash game of acme leaves the server as it is. *)
Lemma handleLaunch_answers_example :
  httpserver.server
    (httpserver.handleLaunch site.server
       (Some {| httpserver.LaunchRequest.Token := "a b&c";
                httpserver.LaunchRequest.Lang := "";
                httpserver.LaunchRequest.Currency := "" |})
       "acme" "crash" (site.world [] 0))
  = site.server.
Proof.
  exact (proj1 (handleLaunch_answers site.server
                  (Some {| httpserver.LaunchRequest.Token := "a b&c";
                           httpserver.LaunchRequest.Lang := "";
                           httpserver.LaunchRequest.Currency := "" |})
                  "acme" "crash" (site.world [] 0) eq_refl)).
Defined.

End LaunchURL.

Section ImportedGames.

Import server httpserver routes.

Lemma import_step_lookup gameID (r : gmap string games.Provider) k p :
  match games.ListGames r k with
  | Some games =>
      if existsb (fun g => String.eqb g gameID) games then r
      else games.Register r k (games ++ [gameID])
  | None => games.Register r k [gameID]
  end !! p
  = if decide (p = k) then imported gameID k (r !! k) else r !! p.
Proof.
  unfold games.ListGames, games.Register, imported.
  destruct (r !! k) as [prov|] eqn:Hk; simpl.
  - destruct (existsb _ _).
    + destruct (decide (p = k)) as [->|]; [exact Hk|reflexivity].
    + rewrite lookup_insert. destruct (decide (k = p)) as [->|];
        destruct (decide _); congruence.
  - rewrite lookup_insert. destruct (decide (k = p)) as [->|];
      destruct (decide _); congruence.
Qed.

Lemma import_loop_lookup gameID ks : forall (r : gmap string games.Provider) p,
  NoDup ks ->
  foldl (fun r providerID =>
           match games.ListGames r providerID with
           | Some games =>
               if existsb (fun g => String.eqb g gameID) games then r
               else games.Register r providerID (games ++ [gameID])
           | None => games.Register r providerID [gameID]
           end) r ks !! p
  = if decide (p ∈ ks) then imported gameID p (r !! p) else r !! p.
Proof.
  induction ks as [|k ks IH]; intros r p Hnd.
  - simpl. destruct (decide (p ∈ [])) as [H|]; [inversion H|reflexivity].
  - apply NoDup_cons in Hnd as [Hk Hnd]. simpl. rewrite IH by exact Hnd.
    rewrite import_step_lookup.
    destruct (decide (p ∈ ks)) as [Hin|Hnin].
    + destruct (decide (p = k)) as [->|Hne]; [contradiction|].
      destruct (decide (p ∈ k :: ks)) as [|Hn]; [reflexivity|].
      exfalso. apply Hn. now right.
    + destruct (decide (p = k)) as [->|Hne].
      * destruct (decide (k ∈ k :: ks)) as [|Hn]; [reflexivity|].
        exfalso. apply Hn. left.
      * destruct (decide (p ∈ k :: ks)) as [Hin|]; [|reflexivity].
        apply elem_of_cons in Hin as [|]; contradiction.
Qed.

Lemma registerImported_lookup (r : gmap string games.Provider) gameID p :
  registerImported r gameID !! p
  = match r !! p with
    | Some prov => imported gameID p (Some prov)
    | None => None
    end.
Proof.
  unfold registerImported, games.ListProviders.
  rewrite import_loop_lookup by apply NoDup_fst_map_to_list.
  destruct (r !! p) as [prov|] eqn:Hp.
  - destruct (decide _) as [|Hn]; [reflexivity|].
    exfalso. apply Hn. apply list_elem_of_fmap. exists (p, prov).
    split; [reflexivity|]. now apply elem_of_map_to_list.
  - destruct (decide _) as [Hin|]; [|reflexivity].
    apply list_elem_of_fmap in Hin as ([k prov] & -> & Hin).
    apply elem_of_map_to_list in Hin. simpl in Hp. congruence.
Qed.

(** X17: an imported game is announced to the providers that the registry
    already holds, and to no other.  After the loop of [handleImportZip],
    every provider of the registry has the new game and keeps the games it
    had; a provider that the registry does not hold is not created, so with
    an empty registry the imported game is reachable under no provider. *)
Theorem registerImported_announces r gameID providerID :
  match games.ListGames r providerID with
  | Some _ =>
      games.HasGame (registerImported r gameID) providerID gameID = true
      /\ forall g, games.HasGame r providerID g = true ->
                   games.HasGame (registerImported r gameID) providerID g = true
  | None =>
      games.ListGames (registerImported r gameID) providerID = None
      /\ forall g, games.HasGame (registerImported r gameID) providerID g = false
  end.
Proof.
  unfold games.ListGames, games.HasGame. rewrite registerImported_lookup.
  destruct (r !! providerID) as [prov|]; simpl; [|auto].
  destruct (existsb (fun g => String.eqb g gameID) (games.Games prov)) eqn:E.
  - auto.
  - simpl. split.
    + rewrite existsb_app. simpl. rewrite String.eqb_refl. apply orb_true_r.
    + intros g Hg. rewrite existsb_app, Hg. reflexivity.
Qed.

(** The imported game lucky_star is a game of acme afterwards, and crash
    still is. *)
Lemma registerImported_announces_example :
  games.HasGame (routes.registerImported site.catalogue "lucky_star") "acme"
    "lucky_star" = true
  /\ games.HasGame (routes.registerImported site.catalogue "lucky_star") "acme"
       "crash" = true.
Proof.
  pose proof (registerImported_announces site.catalogue "lucky_star" "acme") as H.
  change (games.ListGames site.catalogue "acme")
    with (Some ["scratch_match3"; "crash"]) in H.
  destruct H as [H1 H2]. split; [exact H1 | exact (H2 "crash" eq_refl)].
Defined.

End ImportedGames.

(** ** server: registration of a model *)

Section RegisterGameMath.

Import server httpserver.

(** X18: a posted model is in force under its own model id.  For a body
    with a model id and a prize table, [handleRegisterGameMath] puts the
    model into the registry under the model id of the body, whatever game
    the URL names, and leaves every other model alone; the model is in the
    registry even when the file cannot be written and the answer is 500
    REGISTER_FAILED. *)
Theorem handleRegisterGameMath_effect s math gameID w :
  gamemath.ModelID math <> "" -> gamemath.PrizeTable math <> [] ->
  let reply := handleRegisterGameMath s (Some math) gameID w in
  gamemath.Get (gameMath (core (server reply))) (gamemath.ModelID math) = Some math
  /\ (forall id, id <> gamemath.ModelID math ->
        gamemath.Get (gameMath (core (server reply))) id
        = gamemath.Get (gameMath (core s)) id)
  /\ response reply
     = (if fs.succeeded (disk (base w)) then MathRegistered (gamemath.ModelID math)
        else Provider (APIError StatusInternalServerError (diskError w)
                         "REGISTER_FAILED"))
  /\ calls reply = [] /\ rest reply = tape (base w).
Proof.
  intros Hid Htbl. cbv zeta. unfold handleRegisterGameMath.
  apply String.eqb_neq in Hid. rewrite Hid.
  destruct (gamemath.PrizeTable math) as [|t tbl] eqn:Ht; [congruence|].
  unfold gamemath.Register. rewrite Hid. unfold gamemath.saveLocked, gamemath.Get.
  simpl. repeat split.
  - apply lookup_insert_eq.
  - intros id Hne. apply lookup_insert_ne. congruence.
Qed.

(** The registered model is the one that the server uses afterwards, also
    when the write of its file is torn. *)
Lemma handleRegisterGameMath_effect_example :
  gamemath.Get
    (server.gameMath
       (httpserver.core
          (httpserver.server
             (httpserver.handleRegisterGameMath site.server
                (Some fixtures.distribution) "scratch_match3"
                {| httpserver.base := fixtures.world [] 0 fs.WriteTorn;
                   httpserver.rollback := server.WinOk;
                   httpserver.balance := httpserver.BalanceOk;
                   httpserver.cleanup := fs.WriteOk;
                   httpserver.diskError := "short write" |}))))
    (gamemath.ModelID fixtures.distribution)
  = Some fixtures.distribution.
Proof.
  exact (proj1 (handleRegisterGameMath_effect site.server fixtures.distribution
                  "scratch_match3"
                  {| httpserver.base := fixtures.world [] 0 fs.WriteTorn;
                     httpserver.rollback := server.WinOk;
                     httpserver.balance := httpserver.BalanceOk;
                     httpserver.cleanup := fs.WriteOk;
                     httpserver.diskError := "short write" |}
                  ltac:(discriminate) ltac:(discriminate))).
Defined.

End RegisterGameMath.

(** ** config: the environment *)

Section Config.

(** X19: the port of the configuration.  [Load] gives a positive port: the
    value of PORT when it is a positive decimal number; the value of
    RGS_PORT, under the same condition, only when PORT is not set; 8081
    otherwise, also when PORT is set to something else and RGS_PORT is a
    good port.  The directories and URLs that have a default are never
    empty. *)
Theorem Load_defaults (Getenv : string -> string) :
  let cfg := config.Load Getenv in
  0 < config.RGSPort cfg
  /\ config.RGSPort cfg
     = (let chosen := if String.eqb (Getenv "PORT") "" then Getenv "RGS_PORT"
                      else Getenv "PORT" in
        match strconv.Atoi chosen with
        | Some v => if 0 <? v then v else 8081
        | None => 8081
        end)
  /\ config.PlatformURL cfg <> "" /\ config.RGSBaseURL cfg <> ""
  /\ config.DataDir cfg <> "" /\ config.GamesDir cfg <> ""
  /\ config.GameName cfg <> "" /\ config.GameProvider cfg <> "".
Proof.
  cbv zeta. unfold config.Load. simpl.
  assert (Hport : config.port Getenv
                  = match strconv.Atoi (if String.eqb (Getenv "PORT") ""
                                        then Getenv "RGS_PORT" else Getenv "PORT") with
                    | Some v => if 0 <? v then v else 8081
                    | None => 8081
                    end).
  { unfold config.port.
    destruct (String.eqb (Getenv "PORT") ""); simpl; [|reflexivity].
    destruct (String.eqb_spec (Getenv "RGS_PORT") "") as [->|]; reflexivity. }
  split.
  - rewrite Hport. destruct (strconv.Atoi _) as [v|]; [|lia].
    destruct (0 <? v) eqn:E; lia.
  - split; [exact Hport|].
    repeat split; apply orDefault_not_empty; discriminate.
Qed.

End Config.

(** ** server: the models of game bundles *)

Section BundleMath.

Import gamemath httpserver.

Lemma exactWeight_positive tbl :
  tbl <> [] -> Forall (fun t => 1 <= Weight t) tbl -> 0 < exactWeight tbl.
Proof.
  intros Hne Hall. destruct tbl as [|t tbl]; [congruence|].
  apply Forall_cons in Hall as [Ht _]. simpl.
  pose proof (exactWeight_nonneg tbl).
  destruct (Weight t <=? 0) eqn:E; [apply Z.leb_le in E; lia|lia].
Qed.

(** A model whose positive weights have a positive sum below 2^63 is
    never refused while the random reader works. *)
Lemma PickTier_accepts m tape :
  0 < exactWeight (PrizeTable m) < 2 ^ 63 ->
  csprng.fails tape = false ->
  let r := PickTier (Some m) tape in
  r.1.2 = true /\ In r.1.1 (PrizeTable m) /\ 0 < Weight r.1.1.
Proof.
  intros [Hpos Hb] Hfails. cbv zeta. unfold PickTier.
  destruct (PrizeTable m) as [|t0 tbl] eqn:Htbl; [simpl in Hpos; lia|].
  rewrite sumWeights_exact by lia. rewrite Z.add_0_l.
  rewrite (proj2 (Z.leb_gt _ _) Hpos).
  destruct (csprng.Int _ tape) as [[idx|] tape'] eqn:Hint.
  - destruct (csprng_Int_Some _ _ _ _ Hpos Hint) as (Hidx & _).
    destruct (walk_finds idx (t0 :: tbl) 0) as (t & Hw & Hin & Hwt);
      [lia | rewrite sumWeights_exact by lia; lia |].
    rewrite Hw. simpl. auto.
  - exfalso. pose proof (proj1 (csprng_Int_None (exactWeight (t0 :: tbl)) tape)) as H.
    rewrite Hint in H. destruct (H eq_refl) as [_ H']. congruence.
Qed.

Lemma tierWeight_positive indefinite p : 1 <= tierWeight indefinite p.
Proof.
  unfold tierWeight.
  destruct (_ && _); destruct (_ <=? 0) eqn:E; try lia; apply Z.leb_gt in E; lia.
Qed.

(** X20: the model of an imported bundle.  [registerBundleMath] registers
    the prize table of [math.json] under the id of the game, not under the
    model id of the file, tier by tier with its name and multiplier, and
    gives every tier a weight of at least 1, whatever weight or
    probability the file states.  Such a model is never refused for its
    weights: while the random reader works and the weights sum to less
    than 2^63, [PickTier] draws one of its tiers. *)
Theorem registerBundleMath_model indefinite store gameID raw w :
  gameID <> "" -> rgsMathFile.PrizeTable raw <> [] ->
  let registered := (registerBundleMath indefinite store gameID (Some raw) w).1 in
  exists m,
    Get registered gameID = Some m
    /\ ModelID m = gameID
    /\ Tier <$> PrizeTable m = rgsBundlePrizeTier.Tier <$> rgsMathFile.PrizeTable raw
    /\ Multiplier <$> PrizeTable m
       = rgsBundlePrizeTier.Multiplier <$> rgsMathFile.PrizeTable raw
    /\ Forall (fun t => 1 <= Weight t) (PrizeTable m)
    /\ (exactWeight (PrizeTable m) < 2 ^ 63 ->
        forall tape, csprng.fails tape = false ->
          (PickTier (Some m) tape).1.2 = true
          /\ In (PickTier (Some m) tape).1.1 (PrizeTable m)).
Proof.
  intros Hid Htbl. cbv zeta. unfold registerBundleMath.
  destruct (rgsMathFile.PrizeTable raw) as [|p tbl] eqn:Hraw; [congruence|].
  unfold Register. simpl. rewrite (proj2 (String.eqb_neq _ _) Hid).
  exists (bundleMath indefinite gameID raw).
  assert (Hall : Forall (fun t => 1 <= Weight t)
                   (PrizeTable (bundleMath indefinite gameID raw))).
  { simpl. apply Forall_fmap, Forall_forall. intros q _. simpl.
    apply tierWeight_positive. }
  split; [unfold Get; simpl; apply lookup_insert_eq|].
  split; [reflexivity|].
  split; [simpl; rewrite <- list_fmap_compose, Hraw; reflexivity|].
  split; [simpl; rewrite <- list_fmap_compose, Hraw; reflexivity|].
  split; [exact Hall|].
  intros Hb tape Hfails.
  assert (Hne : PrizeTable (bundleMath indefinite gameID raw) <> []).
  { simpl. rewrite Hraw. discriminate. }
  pose proof (exactWeight_positive _ Hne Hall) as Hpos.
  destruct (PickTier_accepts (bundleMath indefinite gameID raw) tape
              (conj Hpos Hb) Hfails) as (H1 & H2 & _).
  auto.
Qed.

(** The bundle of the game 130300001 is registered under that id, not
    under the name in its file. *)
Lemma registerBundleMath_model_example :
  gamemath.ModelID
    <$> gamemath.Get
          (httpserver.registerBundleMath site.indefinite
             (server.gameMath fixtures.emptyServer) "130300001" (Some site.bundle)
             fs.WriteOk).1
          "130300001"
  = Some "130300001".
Proof.
  destruct (registerBundleMath_model site.indefinite
              (server.gameMath fixtures.emptyServer) "130300001" site.bundle fs.WriteOk
              ltac:(discriminate) ltac:(discriminate)) as (m & -> & Hm & _).
  cbn [fmap option_fmap option_map]. rewrite Hm. reflexivity.
Defined.

(** *** The lucky_star bundle *)

Lemma winTiers_positive indefinite table :
  Forall (fun t => 1 <= Weight t) (winTiers indefinite table).
Proof.
  unfold winTiers. apply Forall_forall. intros t Hin.
  apply list_elem_of_omap in Hin as (p & _ & Hp).
  destruct (_ || _); [discriminate|]. inversion Hp; subst t. simpl.
  destruct (_ <? 1) eqn:E; [lia|]. apply Z.ltb_ge in E. lia.
Qed.

Lemma exactWeight_app a b :
  exactWeight (a ++ b) = exactWeight a + exactWeight b.
Proof.
  induction a as [|t a IH]; simpl; [reflexivity|].
  rewrite IH. destruct (Weight t <=? 0); lia.
Qed.

(** Without overflow the running total of the winning weights is their
    sum. *)
Lemma totalWinWeight_exact tiers :
  Forall (fun t => 1 <= Weight t) tiers ->
  exactWeight tiers < 2 ^ 63 ->
  totalWinWeight tiers = exactWeight tiers.
Proof.
  intros Hall Hb. unfold totalWinWeight.
  assert (Hgen : forall total, 0 <= total -> total + exactWeight tiers < 2 ^ 63 ->
            foldl (fun total t => add64 total (Weight t)) total tiers
            = total + exactWeight tiers).
  { clear Hb. induction Hall as [|t tbl Ht Hall IH]; simpl; intros total H0 Hb; [lia|].
    pose proof (exactWeight_nonneg tbl).
    destruct (Weight t <=? 0) eqn:E; [apply Z.leb_le in E; lia|].
    unfold add64. rewrite wrap64_id by (unfold int64_range; lia).
    rewrite IH; lia. }
  rewrite Hgen; lia.
Qed.

(** X21: the share of the house in the lucky_star model.  The model that
    [loadLuckyStarMath] registers holds the winning entries of the bundle
    that have a positive probability, each with a weight of at least 1,
    and, when 70 times their total weight [W] stays below 2^63, one more
    tier LOSE of multiplier 0 and weight [L] = 70 W / 30 rounded down:
    [30 L <= 70 W < 30 (L + 1)], so the house wins between 70% of the
    draws less one part in [W + L] and 70%.  The losing entries of the
    bundle itself are dropped. *)
Theorem luckyStarMath_share indefinite bundle m :
  luckyStarMath indefinite bundle = Some m ->
  let wins := winTiers indefinite (default [] bundle) in
  let W := exactWeight wins in
  ModelID m = luckyStarModelID
  /\ wins <> []
  /\ Forall (fun t => 1 <= Weight t) wins
  /\ (70 * W < 2 ^ 63 ->
      exists L,
        PrizeTable m
        = wins ++ [{| Tier := "LOSE"; Multiplier := 0%float; Weight := L |}]
        /\ 30 * L <= 70 * W < 30 * (L + 1)
        /\ exactWeight (PrizeTable m) = W + L).
Proof.
  intros Hm. cbv zeta. unfold luckyStarMath in Hm.
  destruct bundle as [[|p table]|]; try discriminate. simpl default.
  set (wins := winTiers indefinite (p :: table)) in *.
  pose proof (winTiers_positive indefinite (p :: table)) as Hall. fold wins in Hall.
  destruct wins as [|t wins'] eqn:Hw; [discriminate|].
  inversion Hm; subst m; clear Hm. simpl ModelID. simpl PrizeTable.
  split; [reflexivity|]. split; [discriminate|]. split; [exact Hall|].
  intros Hb.
  pose proof (exactWeight_positive (t :: wins') ltac:(discriminate) Hall) as Hpos.
  unfold withLoseTier.
  rewrite (totalWinWeight_exact _ Hall) by lia.
  rewrite (proj2 (Z.ltb_lt _ _) Hpos).
  unfold mul64. rewrite wrap64_id by (unfold int64_range; lia).
  set (W := exactWeight (t :: wins')) in *.
  exists (Z.quot (W * 70) 30). split; [reflexivity|].
  rewrite Z.quot_div_nonneg by lia.
  pose proof (Z.div_mod (W * 70) 30 ltac:(lia)) as Hdm.
  pose proof (Z.mod_pos_bound (W * 70) 30 ltac:(lia)) as Hmod.
  split; [lia|].
  assert (Hq : 0 < W * 70 / 30) by (apply Z.div_str_pos; lia).
  rewrite exactWeight_app. fold W. simpl.
  destruct (W * 70 / 30 <=? 0) eqn:E; [apply Z.leb_le in E; lia|lia].
Qed.

(** Two prizes of weights 200000000 and 100000000 get a losing tier of
    weight 700000000. *)
Lemma luckyStarMath_share_example :
  exists m L,
    httpserver.luckyStarMath site.indefinite (Some site.luckyStar) = Some m
    /\ gamemath.Weight <$> gamemath.PrizeTable m = [200000000; 100000000; L]
    /\ 30 * L <= 70 * 300000000 < 30 * (L + 1).
Proof.
  destruct (httpserver.luckyStarMath site.indefinite (Some site.luckyStar))
    as [m|] eqn:E; [|discriminate E].
  destruct (luckyStarMath_share site.indefinite (Some site.luckyStar) m E)
    as (_ & _ & _ & H).
  destruct (H ltac:(vm_compute; reflexivity)) as (L & HT & HL & _).
  exists m, L. split; [reflexivity|]. split; [|exact HL].
  rewrite HT. reflexivity.
Defined.

End BundleMath.

(** ** crash: the multiplier *)

Section Multiplier.

Import stores.

(** The order of the floating point numbers is transitive. *)
Lemma compare_cont_Lt_trans m1 m2 m3 :
  Pos.compare_cont Eq m1 m2 = Lt -> Pos.compare_cont Eq m2 m3 = Lt ->
  Pos.compare_cont Eq m1 m3 = Lt.
Proof.
  change (Pos.compare_cont Eq) with Pos.compare.
  rewrite !Pos.compare_lt_iff. lia.
Qed.

Lemma compare_cont_Gt_trans m1 m2 m3 :
  Pos.compare_cont Eq m1 m2 = Gt -> Pos.compare_cont Eq m2 m3 = Gt ->
  Pos.compare_cont Eq m1 m3 = Gt.
Proof.
  change (Pos.compare_cont Eq) with Pos.compare.
  rewrite !Pos.compare_gt_iff. lia.
Qed.

Lemma SFcompare_Lt_trans a b c :
  SFcompare a b = Some Lt -> SFcompare b c = Some Lt -> SFcompare a c = Some Lt.
Proof.
  destruct a as [sa|sa| |sa ma ea], b as [sb|sb| |sb mb eb], c as [sc|sc| |sc mc ec];
    try destruct sa; try destruct sb; try destruct sc; simpl;
    try discriminate; try reflexivity.
  - destruct (Z.compare_spec ea eb), (Z.compare_spec eb ec); try discriminate; subst;
      intros H1 H2.
    + rewrite Z.compare_refl.
      destruct (Pos.compare_cont Eq ma mb) eqn:E1; try discriminate.
      destruct (Pos.compare_cont Eq mb mc) eqn:E2; try discriminate.
      now rewrite (compare_cont_Gt_trans _ _ _ E1 E2).
    + now rewrite (proj2 (Z.compare_gt_iff _ _)) by lia.
    + now rewrite (proj2 (Z.compare_gt_iff _ _)) by lia.
    + now rewrite (proj2 (Z.compare_gt_iff _ _)) by lia.
  - destruct (Z.compare_spec ea eb), (Z.compare_spec eb ec); try discriminate; subst;
      intros H1 H2.
    + rewrite Z.compare_refl.
      destruct (Pos.compare_cont Eq ma mb) eqn:E1; try discriminate.
      destruct (Pos.compare_cont Eq mb mc) eqn:E2; try discriminate.
      now rewrite (compare_cont_Lt_trans _ _ _ E1 E2).
    + now rewrite (proj2 (Z.compare_lt_iff _ _)) by lia.
    + now rewrite (proj2 (Z.compare_lt_iff _ _)) by lia.
    + now rewrite (proj2 (Z.compare_lt_iff _ _)) by lia.
Qed.

Lemma float_ltb_trans (x y z : float) :
  (x <? y)%float = true -> (y <? z)%float = true -> (x <? z)%float = true.
Proof.
  rewrite !ltb_spec. unfold SFltb. intros H1 H2.
  destruct (SFcompare (Prim2SF x) (Prim2SF y)) as [[]|] eqn:E1; try discriminate.
  destruct (SFcompare (Prim2SF y) (Prim2SF z)) as [[]|] eqn:E2; try discriminate.
  now rewrite (SFcompare_Lt_trans _ _ _ E1 E2).
Qed.

(** One step more pays more, up to the last crash step. *)
Lemma Multiplier_next (step : Z) :
  0 <= step < crash.CrashStepMax ->
  (crash.Multiplier step <? crash.Multiplier (step + 1))%float = true.
Proof.
  intros H. unfold crash.CrashStepMax in H.
  assert (Hall : increasing 400 = true) by (vm_compute; reflexivity).
  unfold increasing in Hall. rewrite forallb_forall in Hall.
  specialize (Hall (Z.to_nat step) ltac:(apply in_seq; lia)).
  rewrite Nat2Z.inj_succ, Z2Nat.id in Hall by lia. exact Hall.
Qed.

Lemma Multiplier_later (step : Z) (n : nat) :
  0 <= step -> step + 1 + Z.of_nat n <= crash.CrashStepMax ->
  (crash.Multiplier step <? crash.Multiplier (step + 1 + Z.of_nat n))%float = true.
Proof.
  intros H0. induction n as [|n IH]; intros Hmax.
  - rewrite Z.add_0_r. apply Multiplier_next. simpl in Hmax. lia.
  - apply (float_ltb_trans _ (crash.Multiplier (step + 1 + Z.of_nat n))).
    + apply IH. lia.
    + replace (step + 1 + Z.of_nat (S n)) with (step + 1 + Z.of_nat n + 1) by lia.
      apply Multiplier_next. lia.
Qed.

(** X22: the multiplier over the steps of a round.  From step 0 to the
    last crash step, 400, the multiplier grows strictly with the step; it
    is 1.10 at the first crash step and 5.00 at the last; and a negative
    step has the multiplier of step 0. *)
Theorem Multiplier_increasing (step step' : Z) :
  0 <= step < step' -> step' <= crash.CrashStepMax ->
  (crash.Multiplier step <? crash.Multiplier step')%float = true
  /\ (crash.Multiplier crash.CrashStepMin =? 1.1)%float = true
  /\ (crash.Multiplier crash.CrashStepMax =? 5)%float = true
  /\ forall negative, negative < 0 -> crash.Multiplier negative = crash.Multiplier 0.
Proof.
  intros Hlt Hmax. split.
  - replace step' with (step + 1 + Z.of_nat (Z.to_nat (step' - step - 1))) by lia.
    apply Multiplier_later; lia.
  - split; [reflexivity|]. split; [reflexivity|].
    intros negative Hneg. unfold crash.Multiplier.
    now rewrite (proj2 (Z.ltb_lt _ _) Hneg).
Qed.

(** Step 11 pays more than step 10. *)
Lemma Multiplier_increasing_example :
  (crash.Multiplier 10 <? crash.Multiplier 11)%float = true.
Proof.
  exact (proj1 (Multiplier_increasing 10 11 ltac:(lia) ltac:(vm_compute; discriminate))).
Defined.

End Multiplier.

(** ** server: the working set of crash rounds *)

Section WorkingSetGrows.

Import server httpserver routes.

Lemma Get_Settle_kept s roundID w id :
  is_Some (round.Get s id) -> is_Some (round.Get (round.Settle s roundID w) id).
Proof.
  intros H. rewrite Get_Settle.
  destruct (decide (roundID = id)) as [->|]; [|exact H].
  destruct H as [r ->]. simpl. eauto.
Qed.

Lemma handleCrashRoundStart_kept s req p w id :
  is_Some (round.Get (crashStore s) id) ->
  is_Some (round.Get (crashStore (server.server (handleCrashRoundStart s req p w))) id).
Proof.
  intros H. unfold handleCrashRoundStart.
  destruct (String.eqb _ ""); [exact H|].
  destruct (_ <=? 0)%float; [exact H|].
  destruct (bet w) as [betID|status msg]; [|exact H].
  destruct (crash.GenerateCrashStep (tape w)) as [crashStep tape'].
  destruct (round.Create _ _ _ _ _ _ _ _) as [cr store] eqn:Hc. simpl.
  change store with (cr, store).2. rewrite <- Hc, Get_Create.
  destruct (decide _); [eauto|exact H].
Qed.

(** X23: no request removes a crash round.  Through every request that
    the router serves, a round that the crash store holds is still held
    afterwards, settled or not: [CrashStore.Delete] is never called, and
    the working set only grows until the process restarts. *)
Theorem crash_rounds_are_kept s r w reply id :
  handleProviderRoute s r w = Some reply ->
  is_Some (round.Get (crashStore (core s)) id) ->
  is_Some (round.Get (crashStore (core (server reply))) id).
Proof.
  intros Hroute Hheld. unfold handleProviderRoute in Hroute.
  destruct (strings.Split _ _) as [|p [|p1 [|g [|p3 more]]]];
    try (inversion Hroute; subst reply; exact Hheld).
  destruct (negb (String.eqb p1 "games")); [inversion Hroute; subst; exact Hheld|].
  destruct (negb (games.HasGame _ _ _)); [inversion Hroute; subst; exact Hheld|].
  destruct more as [|p4 [|p5 more]]; [| |inversion Hroute; subst; exact Hheld].
  - destruct (String.eqb p3 "launch").
    { destruct (negb _); [inversion Hroute; subst; exact Hheld|].
      inversion Hroute; subst reply; clear Hroute. unfold handleLaunch.
      destruct (asLaunchRequest r) as [req|]; [|exact Hheld].
      destruct (String.eqb _ ""); [exact Hheld|].
      destruct (balance w); [|exact Hheld].
      destruct (games.GetLaunchURL _ _ _ _ _ _ _); exact Hheld. }
    destruct (String.eqb p3 "math"); [|inversion Hroute; subst; exact Hheld].
    destruct (negb _); [inversion Hroute; subst; exact Hheld|].
    inversion Hroute; subst reply; clear Hroute. unfold handleRegisterGameMath.
    destruct (asGameMath r) as [math|]; [|exact Hheld].
    destruct (String.eqb _ ""); [exact Hheld|].
    destruct (gamemath.PrizeTable math); [exact Hheld|].
    destruct (gamemath.Register _ _ _). exact Hheld.
  - destruct (String.eqb p3 "round"); [|inversion Hroute; subst; exact Hheld].
    destruct (String.eqb p4 "start").
    { destruct (negb _); [inversion Hroute; subst; exact Hheld|].
      destruct (String.eqb g "crash").
      - destruct (asCrashRoundStartRequest r) as [req|]; simpl in Hroute;
          inversion Hroute; subst reply; [|exact Hheld].
        simpl. now apply handleCrashRoundStart_kept.
      - destruct (asScratchRoundStartRequest r) as [req|]; simpl in Hroute;
          [|inversion Hroute; subst reply; exact Hheld].
        destruct (handleScratchRoundStart _ _ _ _ _) as [rep|] eqn:Hs;
          simpl in Hroute; inversion Hroute; subst reply. simpl.
        now rewrite (handleScratchRoundStart_crashStore _ _ _ _ _ _ Hs). }
    destruct (String.eqb p4 "cashout").
    { destruct (negb _); [inversion Hroute; subst; exact Hheld|].
      destruct (String.eqb g "crash"); [|inversion Hroute; subst; exact Hheld].
      destruct (asCrashCashoutRequest r) as [req|]; simpl in Hroute;
        inversion Hroute; subst reply; [|exact Hheld].
      simpl. destruct (handleCrashCashout_store (core s) req p (base w)) as [-> | ->];
        [exact Hheld|]. simpl. now apply Get_Settle_kept. }
    destruct (String.eqb p4 "status"); [|inversion Hroute; subst; exact Hheld].
    destruct (negb _); [inversion Hroute; subst; exact Hheld|].
    destruct (String.eqb g "crash"); [|inversion Hroute; subst; exact Hheld].
    inversion Hroute; subst reply. simpl.
    destruct (handleCrashStatus_store (core s) (query_roundId r) (query_token r) (base w))
      as [-> | ->]; [exact Hheld|]. simpl. now apply Get_Settle_kept.
Qed.

(** The round c-1 is still in the working set after its status showed
    that it crashed. *)
Lemma crash_rounds_are_kept_example :
  exists reply,
    httpserver.handleProviderRoute site.server
      (site.request httpserver.MethodGet
         (routes.providerPath "acme" "crash" "round/status"))
      (site.world [] fixtures.atStep55)
    = Some reply
    /\ is_Some (round.Get (server.crashStore (httpserver.core (httpserver.server reply)))
                  "c-1").
Proof.
  destruct (httpserver.handleProviderRoute site.server
              (site.request httpserver.MethodGet
                 (routes.providerPath "acme" "crash" "round/status"))
              (site.world [] fixtures.atStep55)) as [reply|] eqn:E; [|discriminate E].
  exists reply. split; [reflexivity|].
  exact (crash_rounds_are_kept site.server _ _ reply "c-1" E
           (ex_intro _ fixtures.openRound eq_refl)).
Defined.

End WorkingSetGrows.

(** ** gamemath: the file of the registry *)

Section GameMathFile.

Import gamemath stores.

Lemma gamemath_load_lookup l : forall (m0 : gmap string GameMath) k,
  NoDup l.*1 -> Forall (fun e => e.1 <> "") l ->
  foldl (fun m (e : string * option GameMath) =>
           match e with
           | (id, Some math) => if String.eqb id "" then m else <[id := math]> m
           | (_, None) => m
           end) m0 (prod_map id Some <$> l) !! k
  = match list_to_map (M := gmap string GameMath) l !! k with
    | Some math => Some math
    | None => m0 !! k
    end.
Proof.
  induction l as [|[id math] l IH]; intros m0 k Hnd Hne.
  - simpl. now rewrite lookup_empty.
  - rewrite fmap_cons in Hnd. apply NoDup_cons in Hnd as [Hnotin Hnd].
    apply Forall_cons in Hne as [Hid Hne]. simpl in Hid.
    simpl. rewrite (proj2 (String.eqb_neq _ _) Hid).
    rewrite IH by assumption.
    destruct (decide (id = k)) as [->|Hk].
    + rewrite (not_elem_of_list_to_map_1 l k Hnotin), !lookup_insert_eq. reflexivity.
    + rewrite !lookup_insert_ne by exact Hk. reflexivity.
Qed.

(** X24: the registry of models survives a restart.  When the write of
    [game_math.json] went through, the store that the next process loads
    holds the registered model and every other model as before: [load]
    undoes [saveLocked]. *)
Theorem gamemath_survives_restart (s : Store) (m : GameMath) :
  named s -> ModelID m <> "" ->
  let s' := (Register s (Some m) fs.WriteOk).1 in
  named s'
  /\ math (gamemathStore.restart s') = math s'
  /\ Get (gamemathStore.restart s') (ModelID m) = Some m.
Proof.
  intros Hs Hid. cbv zeta. unfold Register.
  rewrite (proj2 (String.eqb_neq _ _) Hid). unfold saveLocked. simpl.
  assert (Hnamed : forall k x, <[ModelID m := m]> (math s) !! k = Some x -> k <> "").
  { intros k x. rewrite lookup_insert. destruct (decide _) as [<-|]; [auto|apply Hs]. }
  split; [exact Hnamed|].
  assert (Heq : gamemathStore.load
                  (prod_map id Some <$> map_to_list (<[ModelID m := m]> (math s)))
                = <[ModelID m := m]> (math s)).
  { apply map_eq. intros k. unfold gamemathStore.load.
    rewrite gamemath_load_lookup.
    - rewrite list_to_map_to_list, lookup_empty.
      destruct (_ !! k); reflexivity.
    - apply NoDup_fst_map_to_list.
    - apply Forall_forall. intros [k' x] Hin. simpl.
      apply elem_of_map_to_list in Hin. eapply Hnamed, Hin. }
  unfold gamemathStore.restart, gamemathStore.NewStore, Get. simpl.
  rewrite Heq. split; [reflexivity|apply lookup_insert_eq].
Qed.

(** A model registered on an empty store is there for the next process. *)
Lemma gamemath_survives_restart_example :
  gamemath.Get
    (gamemathStore.restart
       (gamemath.Register (server.gameMath fixtures.emptyServer)
          (Some fixtures.distribution) fs.WriteOk).1)
    (gamemath.ModelID fixtures.distribution)
  = Some fixtures.distribution.
Proof.
  refine (proj2 (proj2 (gamemath_survives_restart (server.gameMath fixtures.emptyServer)
                          fixtures.distribution _ ltac:(discriminate)))).
  intros k m H. discriminate H.
Defined.

End GameMathFile.

(** ** operator: what the signature covers *)

Section Signature.

Variable hmacSHA256 : string -> string -> string.
Variable FormatFloat : float -> string.

Lemma sortStrings_unique l1 l2 :
  l1 ≡ₚ l2 -> operator.sortStrings l1 = operator.sortStrings l2.
Proof.
  intros Hp. unfold operator.sortStrings.
  apply (Sorted_unique String.le).
  - apply Sorted_merge_sort; apply _.
  - apply Sorted_merge_sort; apply _.
  - now rewrite !merge_sort_Permutation.
Qed.

(** The signature depends on the values of the keys other than
    [action], and on nothing else. *)
Lemma sign_ext secret (v1 v2 : gmap string string) :
  (forall k, k <> "action" -> v1 !! k = v2 !! k) ->
  operator.sign hmacSHA256 secret v1 = operator.sign hmacSHA256 secret v2.
Proof.
  intros Hext. unfold operator.sign. f_equal.
  assert (Hperm : filter (fun k => k <> "action") (map_to_list v1).*1
                  ≡ₚ filter (fun k => k <> "action") (map_to_list v2).*1).
  { apply NoDup_Permutation.
    - apply NoDup_filter, NoDup_fst_map_to_list.
    - apply NoDup_filter, NoDup_fst_map_to_list.
    - intros k. rewrite !list_elem_of_filter.
      assert (Hdom : forall v : gmap string string,
                k ∈ (map_to_list v).*1 <-> is_Some (v !! k)).
      { intros v. rewrite list_elem_of_fmap. split.
        - intros ([k' x] & -> & Hin). apply elem_of_map_to_list in Hin. eauto.
        - intros [x Hx]. exists (k, x). split; [reflexivity|].
          now apply elem_of_map_to_list. }
      rewrite !Hdom. split; intros [Hk Hin]; (split; [exact Hk|]);
        [rewrite <- Hext|rewrite Hext]; assumption. }
  rewrite (sortStrings_unique _ _ Hperm).
  f_equal. apply Forall_fmap_ext_1, Forall_forall. intros k Hin.
  unfold operator.sortStrings in Hin. rewrite merge_sort_Permutation in Hin.
  apply list_elem_of_filter in Hin as [Hk _].
  unfold operator.Get. now rewrite Hext.
Qed.

(** X25: the signature of the operator client does not cover the
    action.  [sign] leaves the value of [action] out, so the query of a
    refund and the query of the reversal of that refund, which have the same
    parameters, carry the same signature: whoever holds a signed refund
    holds a signed reverse_refund for the same transaction, and the other
    way round. *)
Theorem Refund_signature_covers_ReverseRefund
    (secret playerID sessionID roundID txID gameCode deviceType apiVersion : string)
    (refundAmount : float) :
  secret <> "" ->
  let refund :=
    operator.Refund hmacSHA256 FormatFloat secret playerID sessionID roundID txID
      gameCode deviceType apiVersion refundAmount in
  let reverse :=
    operator.ReverseRefund hmacSHA256 FormatFloat secret playerID sessionID roundID txID
      gameCode deviceType apiVersion refundAmount in
  refund !! "action" = Some "refund"
  /\ reverse !! "action" = Some "reverse_refund"
  /\ is_Some (refund !! "signature")
  /\ forall k, k <> "action" -> refund !! k = reverse !! k.
Proof.
  intros Hsecret. cbv zeta. unfold operator.Refund, operator.ReverseRefund, operator.query.
  rewrite (proj2 (String.eqb_neq _ _) Hsecret).
  set (rest := list_to_map (M := gmap string string)
                 [("player_id", playerID); ("session_id", sessionID);
                  ("round_id", roundID); ("tx_id", txID);
                  ("refund_amount", operator.formatAmount FormatFloat refundAmount);
                  ("game_code", gameCode); ("device_type", deviceType);
                  ("api_version", apiVersion)]).
  change (list_to_map (("action", "refund") :: _))
    with (<["action" := "refund"]> rest).
  change (list_to_map (("action", "reverse_refund") :: _))
    with (<["action" := "reverse_refund"]> rest).
  set (v1 := filter _ (<["action" := "refund"]> rest)).
  set (v2 := filter _ (<["action" := "reverse_refund"]> rest)).
  assert (Hext : forall k, k <> "action" -> v1 !! k = v2 !! k).
  { intros k Hk. subst v1 v2. apply option_eq. intros x.
    rewrite !map_lookup_filter_Some, !lookup_insert_ne by congruence. reflexivity. }
  assert (H1 : v1 !! "action" = Some "refund").
  { subst v1. apply map_lookup_filter_Some. split; [apply lookup_insert_eq|discriminate]. }
  assert (H2 : v2 !! "action" = Some "reverse_refund").
  { subst v2. apply map_lookup_filter_Some. split; [apply lookup_insert_eq|discriminate]. }
  split; [rewrite lookup_insert_ne by discriminate; exact H1|].
  split; [rewrite lookup_insert_ne by discriminate; exact H2|].
  split; [rewrite lookup_insert_eq; eauto|].
  intros k Hk. rewrite (sign_ext secret v1 v2 Hext).
  destruct (decide (k = "signature")) as [->|Hs].
  - now rewrite !lookup_insert_eq.
  - rewrite !lookup_insert_ne by congruence. now apply Hext.
Qed.

End Signature.

(** With a stand-in for the keyed hash: the signature of a refund is the
    signature of its reversal. *)
Lemma Refund_signature_covers_ReverseRefund_example :
  operator.Refund site.keyed site.decimal "s3cret" "p1" "sess" "r-1" "tx-9"
    "scratch" "desktop" "1.0" 10 !! "signature"
  = operator.ReverseRefund site.keyed site.decimal "s3cret" "p1" "sess" "r-1" "tx-9"
      "scratch" "desktop" "1.0" 10 !! "signature".
Proof.
  exact (proj2 (proj2 (proj2 (Refund_signature_covers_ReverseRefund site.keyed
                                site.decimal "s3cret" "p1" "sess" "r-1" "tx-9"
                                "scratch" "desktop" "1.0" 10 ltac:(discriminate))))
           "signature" ltac:(discriminate)).
Defined.

(** ** filepath: cleaned paths *)

Section CleanPaths.

Import routes bundlepath.

Lemma Split_not_nil s sep : strings.Split s sep <> [].
Proof.
  destruct s as [|c s]; simpl; [discriminate|].
  destruct (Ascii.eqb c sep); [discriminate|].
  destruct (strings.Split s sep); discriminate.
Qed.

Lemma Split_free s sep :
  Forall (fun e => hasByte sep e = false) (strings.Split s sep).
Proof.
  induction s as [|c s IH]; simpl; [repeat constructor|].
  destruct (Ascii.eqb c sep) eqn:E; [constructor; [reflexivity|exact IH]|].
  destruct (strings.Split s sep) as [|x xs]; [repeat constructor; simpl; now rewrite E|].
  apply Forall_cons in IH as [Hx Hxs]. constructor; [|exact Hxs].
  simpl. now rewrite E, Hx.
Qed.

Lemma Split_app s t sep :
  strings.Split (s +:+ String sep t) sep = strings.Split s sep ++ strings.Split t sep.
Proof.
  induction s as [|c s IH].
  - simpl. now rewrite Ascii.eqb_refl.
  - change (String c s +:+ String sep t) with (String c (s +:+ String sep t)).
    simpl. rewrite IH. destruct (Ascii.eqb c sep); [reflexivity|].
    pose proof (Split_not_nil s sep).
    destruct (strings.Split s sep); [congruence|reflexivity].
Qed.

Lemma path_join_cons x l :
  l <> [] -> filepath.join (x :: l) = x +:+ String "/" (filepath.join l).
Proof. destruct l; [congruence|reflexivity]. Qed.

Lemma join_Split s : filepath.join (strings.Split s "/") = s.
Proof.
  induction s as [|c s IH]; [reflexivity|]. simpl.
  pose proof (Split_not_nil s "/") as Hne.
  destruct (Ascii.eqb_spec c "/") as [->|Hc].
  - rewrite path_join_cons by exact Hne. now rewrite IH.
  - destruct (strings.Split s "/") as [|x xs]; [congruence|].
    destruct xs as [|y ys]; simpl in *; now rewrite <- IH.
Qed.

Lemma Split_join l :
  l <> [] -> Forall (fun e => hasByte "/" e = false) l ->
  strings.Split (filepath.join l) "/" = l.
Proof.
  induction l as [|x l IH]; [congruence|]. intros _ Hall.
  apply Forall_cons in Hall as [Hx Hl].
  destruct l as [|y l]; [now apply Split_segment|].
  rewrite path_join_cons by discriminate.
  rewrite Split_segment_sep by exact Hx.
  now rewrite IH.
Qed.

Lemma path_join_app l1 l2 :
  l1 <> [] -> l2 <> [] ->
  filepath.join (l1 ++ l2) = filepath.join l1 +:+ String "/" (filepath.join l2).
Proof.
  intros H1 H2. induction l1 as [|x l1 IH]; [congruence|].
  destruct l1 as [|y l1].
  - simpl app. now rewrite path_join_cons.
  - change ((x :: y :: l1) ++ l2) with (x :: ((y :: l1) ++ l2)).
    rewrite path_join_cons by (destruct l1; discriminate).
    rewrite IH by discriminate. rewrite (path_join_cons x (y :: l1)) by discriminate.
    now rewrite app_assoc_string.
Qed.

Lemma step_climbing kept elem :
  hasByte "/" elem = false -> climbing kept ->
  climbing (filepath.step false kept elem).
Proof.
  intros Hfree (plains & dotdots & -> & Hp & Hd). unfold filepath.step.
  destruct (String.eqb_spec elem "") as [|Hne]; [exists plains, dotdots; auto|].
  destruct (String.eqb_spec elem ".") as [|Hdot]; [exists plains, dotdots; auto|].
  simpl. destruct (String.eqb_spec elem "..") as [->|Hdd].
  - destruct plains as [|p plains].
    + simpl. destruct dotdots as [|d dotdots].
      * exists [], [".."]. repeat split; repeat constructor.
      * apply Forall_cons in Hd as [-> Hd]. simpl.
        exists [], (".." :: ".." :: dotdots). repeat split; repeat constructor; auto.
    + apply Forall_cons in Hp as [Hpp Hp]. simpl.
      destruct (String.eqb_spec p "..") as [->|_]; [destruct Hpp as (_ & _ & ? & _); congruence|].
      exists plains, dotdots. auto.
  - exists (elem :: plains), dotdots. repeat split; auto.
    constructor; [repeat split; auto|exact Hp].
Qed.

Lemma foldl_climbing elems : forall kept,
  Forall (fun e => hasByte "/" e = false) elems -> climbing kept ->
  climbing (foldl (filepath.step false) kept elems).
Proof.
  induction elems as [|e elems IH]; intros kept Hall Hk; [exact Hk|].
  apply Forall_cons in Hall as [He Hall]. simpl.
  apply IH; [exact Hall|]. now apply step_climbing.
Qed.

Lemma foldl_plain rooted elems : forall kept,
  Forall plain elems ->
  foldl (filepath.step rooted) kept elems = rev elems ++ kept.
Proof.
  induction elems as [|e elems IH]; intros kept Hall; [reflexivity|].
  apply Forall_cons in Hall as [(H1 & H2 & H3 & _) Hall]. simpl.
  rewrite IH by exact Hall. unfold filepath.step.
  apply String.eqb_neq in H1, H2, H3. rewrite H1, H2, H3. simpl.
  now rewrite <- app_assoc.
Qed.

Lemma HasPrefix_app p s : strings.HasPrefix (p +:+ s) p = true.
Proof.
  unfold strings.HasPrefix. rewrite upto_app, String.eqb_refl, string_length_app, andb_true_r.
  apply Nat.leb_le. lia.
Qed.

Lemma join_not_empty x l : x <> "" -> filepath.join (x :: l) <> "".
Proof.
  intros Hx. destruct l as [|y l]; [exact Hx|].
  rewrite path_join_cons by discriminate.
  destruct x; [congruence|discriminate].
Qed.

Lemma TrimLeft_head name cutset :
  strings.inCutset "/" cutset = true ->
  strings.TrimLeft name cutset = ""
  \/ exists c t, strings.TrimLeft name cutset = String c t /\ c <> "/"%char.
Proof.
  intros Hcut. induction name as [|c name IH]; [now left|].
  simpl. destruct (strings.inCutset c cutset) eqn:E; [exact IH|].
  right. exists c, name. split; [reflexivity|]. congruence.
Qed.

(** The cleaned form of a path that does not start at the root either
    starts with [..], or is [.], or is made of plain elements. *)
Lemma Clean_relative t :
  (t = "" \/ exists c t', t = String c t' /\ c <> "/"%char) ->
  strings.HasPrefix (filepath.Clean t) ".." = false ->
  filepath.Clean t <> "." ->
  Forall plain (strings.Split (filepath.Clean t) "/").
Proof.
  intros [->|(c & t' & -> & Hc)] Hpre Hdot; [simpl in Hdot; congruence|].
  unfold filepath.Clean in *. apply Ascii.eqb_neq in Hc. rewrite Hc in *.
  destruct (foldl_climbing (strings.Split (String c t') "/") []
              (Split_free _ _)) as (plains & dotdots & Hk & Hp & Hd).
  { exists [], []. repeat split; constructor. }
  rewrite Hk in *. rewrite rev_app_distr in *.
  destruct (rev dotdots) as [|d ds] eqn:Hrd.
  - simpl app in *.
    destruct (rev plains) as [|x xs] eqn:Hrp; [simpl in Hdot; congruence|].
    assert (Hall : Forall plain (x :: xs)).
    { rewrite <- Hrp. apply Forall_forall. intros e He.
      rewrite Forall_forall in Hp. apply Hp. apply list_elem_of_In.
      apply list_elem_of_In, in_rev in He. exact He. }
    assert (Hx : x <> "") by (apply Forall_cons in Hall as [(? & _) _]; assumption).
    rewrite (proj2 (String.eqb_neq _ _) (join_not_empty x xs Hx)).
    rewrite Split_join; [exact Hall|discriminate|].
    eapply Forall_impl; [exact Hall|]. now intros e (_ & _ & _ & ?).
  - exfalso. assert (Hdd : d = "..").
    { rewrite Forall_forall in Hd. apply Hd, list_elem_of_In, in_rev.
      rewrite Hrd. left. reflexivity. }
    subst d.
    assert (Hout : exists rest, filepath.join ((".." :: ds) ++ rev plains) = ".." +:+ rest).
    { destruct (ds ++ rev plains) as [|y ys] eqn:E.
      - exists "". simpl. now rewrite E.
      - exists (String "/" (filepath.join (y :: ys))). simpl app. rewrite E.
        now rewrite path_join_cons by discriminate. }
    destruct Hout as [rest Hout]. rewrite Hout in Hpre.
    change ((".." +:+ rest =? "")%string) with false in Hpre.
    cbv iota in Hpre. now rewrite HasPrefix_app in Hpre.
Qed.

(** Below a directory, a path of plain elements stays below it. *)
Lemma Join_plain root rel :
  root <> "" -> filepath.Clean root <> "." -> filepath.Clean root <> "/" ->
  Forall plain (strings.Split rel "/") ->
  filepath.Join root rel = filepath.Clean root +:+ String "/" rel.
Proof.
  intros Hroot Hdot Hslash Hrel. destruct root as [|c root]; [congruence|].
  unfold filepath.Join.
  change (String c root +:+ String "/" rel) with (String c (root +:+ String "/" rel)).
  unfold filepath.Clean in *.
  change (String c (root +:+ String "/" rel)) with (String c root +:+ String "/" rel).
  rewrite Split_app, foldl_app, (foldl_plain _ _ _ Hrel).
  set (kept := foldl _ [] (strings.Split (String c root) "/")) in *.
  rewrite rev_app_distr, rev_involutive.
  destruct (rev kept) as [|x xs] eqn:Hk.
  { destruct (Ascii.eqb c "/"); simpl in *; congruence. }
  rewrite path_join_app by (discriminate || apply Split_not_nil).
  rewrite join_Split.
  destruct (Ascii.eqb c "/"); [reflexivity|].
  destruct (String.eqb_spec (filepath.join (x :: xs)) "") as [E|_]; [congruence|].
  destruct (filepath.join (x :: xs)) eqn:E; [|reflexivity].
  reflexivity.
Qed.

(** X26: the files of a bundle stay in the directory of the bundle.
    Whatever the name of an entry of the ZIP, the path that
    [sanitizeBundlePath] returns for it is empty (the entry is skipped) or
    made of plain elements: none is empty, [.] or [..].  Joined to the
    directory of the bundle it is that directory, a slash and the path: no
    entry is written outside.  The same holds for [sanitizeZipPath] of the
    importer command, which can also return [.], the directory itself. *)
Theorem sanitized_paths_stay_below name :
  (let rel := sanitizeBundlePath name in
   rel <> "" ->
   Forall plain (strings.Split rel "/")
   /\ forall root, root <> "" -> filepath.Clean root <> "." ->
        filepath.Clean root <> "/" ->
        filepath.Join root rel = filepath.Clean root +:+ String "/" rel)
  /\ (let rel := sanitizeZipPath name in
      rel <> "" -> rel <> "." ->
      Forall plain (strings.Split rel "/")
      /\ forall root, root <> "" -> filepath.Clean root <> "." ->
           filepath.Clean root <> "/" ->
           filepath.Join root rel = filepath.Clean root +:+ String "/" rel).
Proof.
  pose proof (TrimLeft_head name "./\" eq_refl) as Hhead.
  split; cbv zeta.
  - unfold sanitizeBundlePath.
    destruct (String.eqb_spec (filepath.Clean (strings.TrimLeft name "./\")) "");
      [simpl; congruence|].
    destruct (String.eqb_spec (filepath.Clean (strings.TrimLeft name "./\")) ".")
      as [|Hdot]; [simpl; congruence|].
    simpl. destruct (strings.HasPrefix _ "..") eqn:Hpre; [simpl; congruence|].
    destruct (_ || _); [congruence|]. intros _.
    pose proof (Clean_relative _ Hhead Hpre Hdot) as Hplain.
    split; [exact Hplain|]. intros root H1 H2 H3. now apply Join_plain.
  - unfold sanitizeZipPath.
    destruct (strings.HasPrefix _ "..") eqn:Hpre; [congruence|]. intros _ Hdot.
    pose proof (Clean_relative _ Hhead Hpre Hdot) as Hplain.
    split; [exact Hplain|]. intros root H1 H2 H3. now apply Join_plain.
Qed.

(** An entry that starts by climbing is extracted below the directory of
    the bundle. *)
Lemma sanitized_paths_stay_below_example :
  filepath.Join "games/bundles" (bundlepath.sanitizeBundlePath "../../etc//passwd")
  = "games/bundles/etc/passwd".
Proof.
  exact (proj2 (proj1 (sanitized_paths_stay_below "../../etc//passwd")
                  ltac:(discriminate))
           "games/bundles" ltac:(discriminate) ltac:(discriminate) ltac:(discriminate)).
Defined.

End CleanPaths.

(** ** server: the replay of a settled round through later requests *)

Section Idempotence.

Import server fixtures.

(** An entry for another round, appended by a write that is not torn,
    leaves the entry that the ledger gives for a round. *)
Lemma Append_keeps_record file res d r rec :
  round.GetByRoundID file r = (Some rec, true) ->
  d <> fs.WriteTorn -> round.Result.RoundID res <> r ->
  round.GetByRoundID (round.Append file res d).1 r = (Some rec, true).
Proof.
  intros Hrec Hd Hne. rewrite GetByRoundID_Append.
  destruct (round.marshals res); [|exact Hrec].
  destruct d; [|exact Hrec|congruence].
  destruct (String.eqb_spec (round.Result.RoundID res) r) as [E|_]; [congruence|].
  destruct file as [l|]; [exact Hrec|discriminate].
Qed.

Lemma roundStart_core s method body w :
  httpserver.core (httpserver.server (httpserver.roundStart s method body w))
  = httpserver.core s.
Proof.
  unfold httpserver.roundStart.
  destruct (negb _); [reflexivity|].
  destruct body as [req|]; [|reflexivity].
  destruct (String.eqb _ ""); [reflexivity|].
  destruct (_ <=? 0)%float; [reflexivity|].
  destruct (bet (httpserver.base w)); [|reflexivity].
  destruct (hilo.Create _ _ _ _ _ _ _ _) as [[rnd st] tape']. reflexivity.
Qed.

(** [httpserver.roundEnd] leaves the ledger as it is or appends one entry, under
    the round id of the request. *)
Lemma roundEnd_results s method body w :
  let reply := httpserver.roundEnd s method body w in
  results (httpserver.core (httpserver.server reply)) = results (httpserver.core s)
  \/ exists req res,
       body = Some req
       /\ round.Result.RoundID res = httpserver.roundEndRequest.RoundID req
       /\ results (httpserver.core (httpserver.server reply))
          = (round.Append (results (httpserver.core s)) res
               (disk (httpserver.base w))).1.
Proof.
  unfold httpserver.roundEnd.
  destruct (negb _); [auto|].
  destruct body as [req|]; [|auto].
  destruct (String.eqb (httpserver.roundEndRequest.Token req) ""); [auto|].
  destruct (String.eqb (httpserver.roundEndRequest.RoundID req) ""); [auto|].
  destruct (_ && _); [auto|].
  destruct (hilo.Get _ _) as [rnd|]; [|auto].
  destruct (hilo.NextNumber _) as [nextNum tape'].
  destruct (nextNum =? _).
  { destruct (httpserver.rollback w); [|auto].
    right. eexists req, _. split; [reflexivity|]. split; [|reflexivity]. reflexivity. }
  destruct (_ || _).
  { destruct (win (httpserver.base w)); [|auto].
    right. eexists req, _. split; [reflexivity|]. split; [|reflexivity]. reflexivity. }
  right. eexists req, _. split; [reflexivity|]. split; [|reflexivity]. reflexivity.
Qed.

(** A request to a provider route leaves the core of the server with the
    ledger it had, or is one of the four round requests, served on the
    core. *)
Lemma handleProviderRoute_core s r w reply :
  httpserver.handleProviderRoute s r w = Some reply ->
  results (httpserver.core (httpserver.server reply)) = results (httpserver.core s)
  \/ exists rq rep,
       serve (httpserver.core s) rq (httpserver.base w) = Some rep
       /\ httpserver.core (httpserver.server reply) = server.server rep.
Proof.
  intros Hroute. unfold httpserver.handleProviderRoute in Hroute.
  destruct (strings.Split _ _) as [|p [|p1 [|g [|p3 more]]]];
    try (inversion Hroute; subst reply; now left).
  destruct (negb (String.eqb p1 "games")); [inversion Hroute; subst; now left|].
  destruct (negb (games.HasGame _ _ _)); [inversion Hroute; subst; now left|].
  destruct more as [|p4 [|p5 more]]; [| |inversion Hroute; subst; now left].
  - left. destruct (String.eqb p3 "launch").
    { destruct (negb _); [inversion Hroute; subst; reflexivity|].
      inversion Hroute; subst reply; clear Hroute. unfold httpserver.handleLaunch.
      destruct (httpserver.asLaunchRequest r) as [req|]; [|reflexivity].
      destruct (String.eqb _ ""); [reflexivity|].
      destruct (httpserver.balance w); [|reflexivity].
      destruct (games.GetLaunchURL _ _ _ _ _ _ _); reflexivity. }
    destruct (String.eqb p3 "math"); [|inversion Hroute; subst; reflexivity].
    destruct (negb _); [inversion Hroute; subst; reflexivity|].
    inversion Hroute; subst reply; clear Hroute. unfold httpserver.handleRegisterGameMath.
    destruct (httpserver.asGameMath r) as [math|]; [|reflexivity].
    destruct (String.eqb _ ""); [reflexivity|].
    destruct (gamemath.PrizeTable math); [reflexivity|].
    destruct (gamemath.Register _ _ _). reflexivity.
  - destruct (String.eqb p3 "round"); [|inversion Hroute; subst; now left].
    destruct (String.eqb p4 "start").
    { destruct (negb _); [inversion Hroute; subst; now left|].
      destruct (String.eqb g "crash").
      - destruct (httpserver.asCrashRoundStartRequest r) as [req|]; simpl in Hroute;
          inversion Hroute; subst reply; [|now left].
        right. exists (CrashStart req p),
          (handleCrashRoundStart (httpserver.core s) req p (httpserver.base w)).
        split; reflexivity.
      - destruct (httpserver.asScratchRoundStartRequest r) as [req|]; simpl in Hroute;
          [|inversion Hroute; subst reply; now left].
        destruct (handleScratchRoundStart _ _ _ _ _) as [rep|] eqn:Hs;
          simpl in Hroute; inversion Hroute; subst reply.
        right. exists (ScratchStart req p g), rep. split; [exact Hs|reflexivity]. }
    destruct (String.eqb p4 "cashout").
    { destruct (negb _); [inversion Hroute; subst; now left|].
      destruct (String.eqb g "crash"); [|inversion Hroute; subst; now left].
      destruct (httpserver.asCrashCashoutRequest r) as [req|]; simpl in Hroute;
        inversion Hroute; subst reply; [|now left].
      right. exists (Cashout req p),
        (handleCrashCashout (httpserver.core s) req p (httpserver.base w)).
      split; reflexivity. }
    destruct (String.eqb p4 "status"); [|inversion Hroute; subst; now left].
    destruct (negb _); [inversion Hroute; subst; now left|].
    destruct (String.eqb g "crash"); [|inversion Hroute; subst; now left].
    inversion Hroute; subst reply.
    right. exists (Status (httpserver.query_roundId r) (httpserver.query_token r)),
      (handleCrashStatus (httpserver.core s) (httpserver.query_roundId r)
         (httpserver.query_token r) (httpserver.base w)).
    split; reflexivity.
Qed.

(** The entry that the ledger gives for a round stays the one it gives
    through every request that tears no file and ends no round of Hi/Lo
    under the same id. *)
Lemma handle_keeps_record r rec s q w reply :
  mux.handle s q w = Some reply ->
  mux.tearsNothing (q, w) -> mux.sparesRound r (q, w) ->
  round.GetByRoundID (results (httpserver.core s)) r = (Some rec, true) ->
  round.GetByRoundID (results (httpserver.core (httpserver.server reply))) r
  = (Some rec, true).
Proof.
  intros Hh Hdisk Hspare Hrec. destruct q as [rq|method body|method body]; simpl in Hh.
  - destruct (handleProviderRoute_core _ _ _ _ Hh) as [->|(q & rep & Hs & ->)];
      [exact Hrec|].
    exact (serve_keeps_record _ _ _ _ _ _ Hs Hdisk Hrec).
  - inversion Hh; subst reply. now rewrite roundStart_core.
  - inversion Hh; subst reply.
    destruct (roundEnd_results s method body w) as [->|(req & res & -> & Hid & ->)];
      [exact Hrec|].
    apply Append_keeps_record; [exact Hrec|exact Hdisk|].
    rewrite Hid. exact Hspare.
Qed.

Lemma handleAll_keeps_record r rec qs : forall s s',
  mux.handleAll s qs = Some s' ->
  Forall mux.tearsNothing qs -> Forall (mux.sparesRound r) qs ->
  round.GetByRoundID (results (httpserver.core s)) r = (Some rec, true) ->
  round.GetByRoundID (results (httpserver.core s')) r = (Some rec, true).
Proof.
  induction qs as [|[q w] qs IH]; intros s s' Hall Hwhole Hspare Hrec; simpl in Hall.
  - now inversion Hall; subst.
  - destruct (mux.handle s q w) as [reply|] eqn:Hh; [|discriminate].
    inversion Hwhole; subst. inversion Hspare; subst.
    eapply IH; eauto using handle_keeps_record.
Qed.

(** C1, amended.  If a call for round [r] was answered with a scratch
    response and the ledger afterwards holds a result for [r], then, after
    any requests to the provider routes and to the routes of Hi/Lo of
    which none tears the file of the ledger and none ends a round of Hi/Lo
    under the id [r], every call for [r] that passes the checks of the
    session and the stake, whatever its stake, answers with the round id,
    symbols, win amount and balance delta of the first response, which are
    those of the recorded result; it makes no wallet call, consumes no
    draw and leaves the server as it was. *)
Theorem settleInstantRound_idempotent r s req p g w reply1 resp1 rec :
  requestRoundID req = r -> r <> "" ->
  handleScratchRoundStart s req p g w = Some reply1 ->
  response reply1 = ScratchRoundStart resp1 ->
  round.GetByRoundID (results (server.server reply1)) r = (Some rec, true) ->
  forall h qs h2 req2 p2 g2 w2,
    httpserver.core h = server.server reply1 ->
    mux.handleAll h qs = Some h2 ->
    Forall mux.tearsNothing qs -> Forall (mux.sparesRound r) qs ->
    requestRoundID req2 = r -> accepted req2 = true ->
    exists resp2,
      handleScratchRoundStart (httpserver.core h2) req2 p2 g2 w2 =
        Some {| response := ScratchRoundStart resp2; server := httpserver.core h2;
                calls := []; rest := tape w2 |}
      /\ shows resp2 rec
      /\ ScratchRoundStartResponse.RoundID resp2 = r
      /\ ScratchRoundStartResponse.RoundID resp2 = ScratchRoundStartResponse.RoundID resp1
      /\ ScratchRoundStartResponse.Symbols resp2 = ScratchRoundStartResponse.Symbols resp1
      /\ ScratchRoundStartResponse.WinAmount resp2
         = ScratchRoundStartResponse.WinAmount resp1
      /\ ScratchRoundStartResponse.BalanceDelta resp2
         = ScratchRoundStartResponse.BalanceDelta resp1.
Proof.
  intros Hr Hne Hcall Hresp Hrec h qs h2 req2 p2 g2 w2 Hcore Hall Hwhole Hspare Hr2 Hacc2.
  pose proof (handleScratchRoundStart_shows_record _ _ _ _ _ _ _ _ _
                Hr Hne Hcall Hresp Hrec) as (E1 & E2 & E3 & E4).
  rewrite <- Hcore in Hrec.
  pose proof (handleAll_keeps_record _ _ _ _ _ Hall Hwhole Hspare Hrec) as Hrec2.
  rewrite handleScratchRoundStart_accepted by exact Hacc2.
  cbv zeta. rewrite Hr2, (orDefault_nonempty r _ Hne), Hrec2.
  eexists. split; [reflexivity|]. simpl.
  pose proof (GetByRoundID_RoundID _ _ _ _ Hrec2) as Hid.
  unfold shows. simpl. repeat split; congruence.
Qed.

(** Round r-1 settled as a loss at stake 10; then a round of Hi/Lo is
    played under the id r-2 and a scratch round under r-3; then r-1 is
    asked for again at stake 25 and answered as it was settled the first
    time. *)
Lemma settleInstantRound_idempotent_witness :
  exists resp2,
    handleScratchRoundStart (httpserver.core sequel.apart)
      (scratchRequest "tok" 25 "r-1") "acme" "scratch_match3"
      (world winningTape 1700000005000000000 fs.WriteOk)
    = Some {| response := ScratchRoundStart resp2;
              server := httpserver.core sequel.apart;
              calls := []; rest := winningTape |}
    /\ shows resp2 recordedLoss
    /\ ScratchRoundStartResponse.RoundID resp2 = "r-1"
    /\ ScratchRoundStartResponse.RoundID resp2 = "r-1"
    /\ ScratchRoundStartResponse.Symbols resp2 = ("cherry", "cherry", "lemon")
    /\ ScratchRoundStartResponse.WinAmount resp2 = 0%float
    /\ ScratchRoundStartResponse.BalanceDelta resp2 = (-10)%float.
Proof.
  refine (settleInstantRound_idempotent "r-1"
            (withModel emptyServer distribution) (scratchRequest "tok" 10 "r-1")
            "acme" "scratch_match3"
            (world losingTape 1700000000000000000 fs.WriteOk)
            {| response :=
                 scratchAnswer "r-1" ("cherry", "cherry", "lemon") 0 (-10) "LOSE";
               server := settledServer;
               calls := [Bet "tok" "USD" 10 "Scratch"];
               rest := [] |}
            _ recordedLoss eq_refl _ _ eq_refl _
            sequel.settled (sequel.requests "r-2") sequel.apart
            (scratchRequest "tok" 25 "r-1") "acme" "scratch_match3"
            (world winningTape 1700000005000000000 fs.WriteOk)
            eq_refl _ _ _ eq_refl eq_refl).
  - discriminate.
  - vm_compute. reflexivity.
  - reflexivity.
  - vm_compute. reflexivity.
  - repeat constructor; discriminate.
  - repeat constructor; discriminate.
Defined.

(** C1 as stated fails, in three ways.  Round r-1 of the scratch game is
    settled as a loss of 10 and recorded.  Then a round of Hi/Lo is
    started and ended under the same id r-1, which appends its own entry
    to the same ledger, with no torn write: a later call for the scratch
    round r-1 is answered, without a draw and without a wallet call, with
    the entry of Hi/Lo, three empty symbols and a balance delta of 5, not
    the recorded symbols and the balance delta of -10.  Or the write of a
    later round tears the file of the ledger: the later call for r-1 is
    played anew, with a second bet, a second outcome and a payout.  And a
    later call for r-1 whose stake is above the maximum is answered with
    an error, not with the recorded result. *)
Lemma later_call_departs_from_record :
  let first :=
    handleScratchRoundStart (withModel emptyServer distribution)
      (scratchRequest "tok" 10 "r-1") "acme" "scratch_match3"
      (world losingTape 1700000000000000000 fs.WriteOk) in
  let later (s : Server) (stake : float) :=
    handleScratchRoundStart s (scratchRequest "tok" stake "r-1") "acme"
      "scratch_match3" (world winningTape 1700000005000000000 fs.WriteOk) in
  (first
   = Some {| response :=
               scratchAnswer "r-1" ("cherry", "cherry", "lemon") 0 (-10) "LOSE";
             server := settledServer;
             calls := [Bet "tok" "USD" 10 "Scratch"];
             rest := [] |}
   /\ round.GetByRoundID (results settledServer) "r-1" = (Some recordedLoss, true))
  /\ (mux.handleAll sequel.settled (sequel.requests "r-1") = Some sequel.shared
      /\ Forall mux.tearsNothing (sequel.requests "r-1")
      /\ later (httpserver.core sequel.shared) 25%float
         = Some {| response := scratchAnswer "r-1" ("", "", "") 0 5 "";
                   server := httpserver.core sequel.shared;
                   calls := []; rest := winningTape |}
      /\ scratchAnswer "r-1" ("", "", "") 0 5 ""
         <> scratchAnswer "r-1" ("cherry", "cherry", "lemon") 0 (-10) "")
  /\ (mux.handleAll sequel.settled sequel.tearing = Some sequel.torn
      /\ Forall (mux.sparesRound "r-1") sequel.tearing
      /\ (fun reply => (response reply, calls reply, rest reply))
           <$> later (httpserver.core sequel.torn) 25%float
         = Some (scratchAnswer "r-1" ("seven", "seven", "seven") 50 25 "T1",
                 [Bet "tok" "USD" 25 "Scratch"; Win "tok" "USD" 50 "Scratch"], []))
  /\ later settledServer 2000000%float
     = Some {| response :=
                 APIError StatusBadRequest "bet_amount exceeds maximum" "INVALID_AMOUNT";
               server := settledServer; calls := []; rest := winningTape |}.
Proof.
  cbv zeta. split; [split; [vm_compute; reflexivity | reflexivity]|].
  split.
  { split; [vm_compute; reflexivity|].
    split; [repeat constructor; discriminate|].
    split; [vm_compute; reflexivity|].
    intros H. inversion H. }
  split.
  { split; [vm_compute; reflexivity|].
    split; [repeat constructor|].
    vm_compute. reflexivity. }
  vm_compute. reflexivity.
Qed.

End Idempotence.
